(** * The mediation core of core_dajarony: event bus, circuit breaker,
      interaction manager and telemetry collector

    A shallow embedding of
      logica/event_bus.py, logica/store.py, logica/circuit_breaker.py,
      logica/interaction_manager.py and logica/telemetry_collector.py
    followed by the properties proved about them.

    Conventions of the embedding.
    - A Python dict whose order of insertion can be observed (the store's
      data, the alert thresholds, the metric buffers) is an association
      list updated in place ([dict_set]); the breaker's registry of
      circuits, which is only looked up by key, is a [gmap].
    - A circuit is a Python dict that the breaker and the store share by
      reference.  The circuits therefore live in a heap (a list indexed by
      address) and both the registry and the store hold addresses.
    - [time.time()] is an argument [now] of every operation, in whole
      seconds; the readings one operation takes are taken equal.
    - Whether an event loop is running in the thread that calls
      [EventBus.emit] is the argument [loop_running] of [emit].
    - Metric values are IEEE binary64 numbers, as Python floats are. *)

From Stdlib Require Import ZArith String Ascii List DecimalString Floats Lia.
From stdpp Require Import gmap strings list.
Import ListNotations.

Open Scope string_scope.
Open Scope Z_scope.

(** A decimal literal such as [0.7] denotes the nearest binary64 number,
    as it does in Python. *)
#[global] Set Warnings "-inexact-float".

(* ===================================================================== *)
(** * Python strings and dicts                                            *)
(* ===================================================================== *)

Module Py.

(** [s.startswith(p)] *)
Definition startswith (s p : string) : bool := String.prefix p s.

(** [c in s] for a one-character string [c] *)
Fixpoint contains (c : ascii) (s : string) : bool :=
  match s with
  | EmptyString => false
  | String d rest => if Ascii.eqb d c then true else contains c rest
  end.

(** [s.endswith(p)]: some tail of [s] is [p] *)
Fixpoint endswith (s p : string) : bool :=
  if String.eqb s p then true
  else match s with
       | EmptyString => false
       | String _ rest => endswith rest p
       end.

(** [s.split(sep)] for a one-character separator: never the empty list *)
Fixpoint split (sep : ascii) (s : string) : list string :=
  match s with
  | EmptyString => [EmptyString]
  | String c rest =>
      if Ascii.eqb c sep then EmptyString :: split sep rest
      else match split sep rest with
           | [] => [String c EmptyString]
           | h :: t => String c h :: t
           end
  end.

(** [s[:-1]] and [s[1:]] *)
Fixpoint drop_last (s : string) : string :=
  match s with
  | EmptyString => EmptyString
  | String c EmptyString => EmptyString
  | String c rest => String c (drop_last rest)
  end.

Definition drop_first (s : string) : string :=
  match s with
  | EmptyString => EmptyString
  | String _ rest => rest
  end.

(** [str(int(t))] *)
Definition str_int (z : Z) : string := NilZero.string_of_int (Z.to_int z).

(** [fnmatch.fnmatch(name, pat)] on a POSIX system (no case folding), for
    the patterns of [plain_glob] below.  [*] matches any run of characters
    and every other character itself.  A string is the UTF-8 text of the
    Python string, so that a run of bytes that [*] skips between two
    literal parts is a run of characters.  Bracket expressions are not
    modelled, and [?] is taken for one byte where Python takes one
    character: what is proved of a pattern given from outside asks for
    [plain_glob]. *)
Fixpoint fnmatch_pat (pat : string) : string -> bool :=
  match pat with
  | EmptyString => fun name => String.eqb name EmptyString
  | String p pat' =>
      if Ascii.eqb p "*" then
        fix star (name : string) : bool :=
          if fnmatch_pat pat' name then true
          else match name with
               | EmptyString => false
               | String _ name' => star name'
               end
      else if Ascii.eqb p "?" then
        fun name => match name with
                    | EmptyString => false
                    | String _ name' => fnmatch_pat pat' name'
                    end
      else
        fun name => match name with
                    | EmptyString => false
                    | String c name' => Ascii.eqb c p && fnmatch_pat pat' name'
                    end
  end.

Definition fnmatch (name pat : string) : bool := fnmatch_pat pat name.

(** The patterns on which [fnmatch] above is Python's on every name:
    those with neither a bracket nor a question mark. *)
Definition plain_glob (pat : string) : bool :=
  negb (contains "[" pat) && negb (contains "?" pat).

(** A dict in insertion order. *)
Section Dict.
Context {A : Type}.

Fixpoint dict_get (k : string) (d : list (string * A)) : option A :=
  match d with
  | [] => None
  | (k', v) :: rest => if String.eqb k' k then Some v else dict_get k rest
  end.

(** [d[k] = v]: an existing key keeps its place, a new one goes last. *)
Fixpoint dict_set (k : string) (v : A) (d : list (string * A)) : list (string * A) :=
  match d with
  | [] => [(k, v)]
  | (k', v') :: rest =>
      if String.eqb k' k then (k', v) :: rest else (k', v') :: dict_set k v rest
  end.

Fixpoint dict_del (k : string) (d : list (string * A)) : list (string * A) :=
  match d with
  | [] => []
  | (k', v') :: rest =>
      if String.eqb k' k then rest else (k', v') :: dict_del k rest
  end.

Definition dict_keys (d : list (string * A)) : list string := map fst d.
End Dict.

End Py.

(* ===================================================================== *)
(** * What the components share: exceptions, events, the store            *)
(* ===================================================================== *)

Module Sys.
Import Py.

(** The exceptions the core raises and tells apart. *)
Inductive Exc :=
| KeyError (key : string)
| RuntimeError (msg : string)
| AsyncTimeoutError                      (* asyncio.TimeoutError *)
| BuiltinTimeoutError (msg : string)     (* TimeoutError *)
| PermissionError (msg : string)
| OtherError (msg : string).

(** [str(e)] *)
Definition exc_str (e : Exc) : string :=
  match e with
  | KeyError k => "'" ++ k ++ "'"
  | RuntimeError m => m
  | AsyncTimeoutError => ""
  | BuiltinTimeoutError m => m
  | PermissionError m => m
  | OtherError m => m
  end.

(** From Python 3.11 on [asyncio.TimeoutError] is the builtin
    [TimeoutError]; before, they are unrelated classes.  [py311] says which
    interpreter runs the code. *)
Definition is_asyncio_timeout (py311 : bool) (e : Exc) : bool :=
  match e with
  | AsyncTimeoutError => true
  | BuiltinTimeoutError _ => py311
  | _ => false
  end.

Definition is_builtin_timeout (py311 : bool) (e : Exc) : bool :=
  match e with
  | BuiltinTimeoutError _ => true
  | AsyncTimeoutError => py311
  | _ => false
  end.

Definition is_permission_error (e : Exc) : bool :=
  match e with
  | PermissionError _ => true
  | _ => false
  end.

(** The trace dict of one mediated call (interaction_manager.py). *)
Record Trace := mkTrace {
  status : string;
  timestamp : string;
  tr_source : string;
  tr_target : string;
  payload_summary : option string;
  security_level : string;
  completed_at : option string;
  error : option string;
  error_type : option string;
  error_time : option string
}.

(** Payloads of the events the breaker and the manager emit. *)
Inductive Payload :=
| PStateChange (circuit_id old_state new_state : string) (at_time : Z)
               (source target : string)
| PCircuitLatency (circuit_id : string) (duration_ms : Z) (at_time : Z)
| PModuleCall (from payload : string)
| PInteraction (trace_key source target : string) (success : bool)
| PFallback (source target : string)
| PInteractionError (trace_key error_type error : string)
| PLatency (source target : string) (duration_ms : Z).

Definition Event : Type := string * Payload.

(** Values the breaker and the manager put in the store.  A circuit is
    stored by reference: [VCircuit a] is the dict at heap address [a]. *)
Inductive StoreVal :=
| VCircuit (a : nat)
| VNumber (n : Z)
| VErrorRecord (error : string) (at_time : Z)
| VStateChange (from to : string) (at_time : Z)
| VTrace (t : Trace).

(** The store as its callers here use it: [set] without ttl, [get], and
    [keys] with a glob.  Expiry, persistence to disk, versioning and the
    store's own change notifications are left out. *)
Definition Store : Type := list (string * StoreVal).

Definition store_set (key : string) (v : StoreVal) (s : Store) : Store :=
  dict_set key v s.

Definition store_get (key : string) (s : Store) : option StoreVal :=
  dict_get key s.

Definition store_keys (pattern : option string) (s : Store) : list string :=
  List.filter (fun key => match pattern with
                     | None => true
                     | Some p => fnmatch key p
                     end) (dict_keys s).

(** Everything outside the breaker that a call can change: the store, the
    events emitted on the bus so far (oldest first), and the state [U] of
    the component that makes the call. *)
Record Env (U : Type) := mkEnv {
  store : Store;
  events : list Event;
  user : U
}.
Arguments mkEnv {U}.
Arguments store {U}.
Arguments events {U}.
Arguments user {U}.

Definition env_store_set {U} (key : string) (v : StoreVal) (e : Env U) : Env U :=
  mkEnv (store_set key v (store e)) (events e) (user e).

(** [event_bus.emit(name, payload)], seen from the emitter: the event is
    appended to the log. *)
Definition env_emit {U} (name : string) (p : Payload) (e : Env U) : Env U :=
  mkEnv (store e) (events e ++ [(name, p)]) (user e).

Definition env_set_user {U} (u : U) (e : Env U) : Env U :=
  mkEnv (store e) (events e) u.

End Sys.

(* ===================================================================== *)
(** * circuit_breaker.py                                                  *)
(* ===================================================================== *)

Module Breaker.
Import Py Sys.

Inductive CircuitState := CLOSED | OPEN | HALF_OPEN.

(** [CircuitState.value] *)
Definition state_value (s : CircuitState) : string :=
  match s with
  | CLOSED => "closed"
  | OPEN => "open"
  | HALF_OPEN => "half_open"
  end.

Definition state_eqb (a b : CircuitState) : bool :=
  match a, b with
  | CLOSED, CLOSED | OPEN, OPEN | HALF_OPEN, HALF_OPEN => true
  | _, _ => false
  end.

(** The circuit dict, with the keys [register_circuit] gives it. *)
Record Circuit := mkCircuit {
  state : CircuitState;
  failure_count : Z;
  success_count : Z;
  last_failure_time : Z;
  last_success_time : Z;
  last_state_change : Z;
  total_failures : Z;
  total_successes : Z;
  total_timeouts : Z;
  open_count : Z;
  source : string;
  target : string;
  max_failures : Z;
  reset_timeout : Z;
  half_open_max_calls : Z;
  success_threshold : Z;
  half_open_calls : Z
}.

(** [circuit[key] = v], one definition per key that is assigned. *)
Definition set_state (v : CircuitState) (c : Circuit) : Circuit :=
  mkCircuit v (failure_count c) (success_count c) (last_failure_time c)
    (last_success_time c) (last_state_change c) (total_failures c)
    (total_successes c) (total_timeouts c) (open_count c) (source c)
    (target c) (max_failures c) (reset_timeout c) (half_open_max_calls c)
    (success_threshold c) (half_open_calls c).

Definition set_failure_count (v : Z) (c : Circuit) : Circuit :=
  mkCircuit (state c) v (success_count c) (last_failure_time c)
    (last_success_time c) (last_state_change c) (total_failures c)
    (total_successes c) (total_timeouts c) (open_count c) (source c)
    (target c) (max_failures c) (reset_timeout c) (half_open_max_calls c)
    (success_threshold c) (half_open_calls c).

Definition set_success_count (v : Z) (c : Circuit) : Circuit :=
  mkCircuit (state c) (failure_count c) v (last_failure_time c)
    (last_success_time c) (last_state_change c) (total_failures c)
    (total_successes c) (total_timeouts c) (open_count c) (source c)
    (target c) (max_failures c) (reset_timeout c) (half_open_max_calls c)
    (success_threshold c) (half_open_calls c).

Definition set_last_failure_time (v : Z) (c : Circuit) : Circuit :=
  mkCircuit (state c) (failure_count c) (success_count c) v
    (last_success_time c) (last_state_change c) (total_failures c)
    (total_successes c) (total_timeouts c) (open_count c) (source c)
    (target c) (max_failures c) (reset_timeout c) (half_open_max_calls c)
    (success_threshold c) (half_open_calls c).

Definition set_last_success_time (v : Z) (c : Circuit) : Circuit :=
  mkCircuit (state c) (failure_count c) (success_count c)
    (last_failure_time c) v (last_state_change c) (total_failures c)
    (total_successes c) (total_timeouts c) (open_count c) (source c)
    (target c) (max_failures c) (reset_timeout c) (half_open_max_calls c)
    (success_threshold c) (half_open_calls c).

Definition set_last_state_change (v : Z) (c : Circuit) : Circuit :=
  mkCircuit (state c) (failure_count c) (success_count c)
    (last_failure_time c) (last_success_time c) v (total_failures c)
    (total_successes c) (total_timeouts c) (open_count c) (source c)
    (target c) (max_failures c) (reset_timeout c) (half_open_max_calls c)
    (success_threshold c) (half_open_calls c).

Definition set_total_failures (v : Z) (c : Circuit) : Circuit :=
  mkCircuit (state c) (failure_count c) (success_count c)
    (last_failure_time c) (last_success_time c) (last_state_change c) v
    (total_successes c) (total_timeouts c) (open_count c) (source c)
    (target c) (max_failures c) (reset_timeout c) (half_open_max_calls c)
    (success_threshold c) (half_open_calls c).

Definition set_total_successes (v : Z) (c : Circuit) : Circuit :=
  mkCircuit (state c) (failure_count c) (success_count c)
    (last_failure_time c) (last_success_time c) (last_state_change c)
    (total_failures c) v (total_timeouts c) (open_count c) (source c)
    (target c) (max_failures c) (reset_timeout c) (half_open_max_calls c)
    (success_threshold c) (half_open_calls c).

Definition set_total_timeouts (v : Z) (c : Circuit) : Circuit :=
  mkCircuit (state c) (failure_count c) (success_count c)
    (last_failure_time c) (last_success_time c) (last_state_change c)
    (total_failures c) (total_successes c) v (open_count c) (source c)
    (target c) (max_failures c) (reset_timeout c) (half_open_max_calls c)
    (success_threshold c) (half_open_calls c).

Definition set_open_count (v : Z) (c : Circuit) : Circuit :=
  mkCircuit (state c) (failure_count c) (success_count c)
    (last_failure_time c) (last_success_time c) (last_state_change c)
    (total_failures c) (total_successes c) (total_timeouts c) v (source c)
    (target c) (max_failures c) (reset_timeout c) (half_open_max_calls c)
    (success_threshold c) (half_open_calls c).

Definition set_max_failures (v : Z) (c : Circuit) : Circuit :=
  mkCircuit (state c) (failure_count c) (success_count c)
    (last_failure_time c) (last_success_time c) (last_state_change c)
    (total_failures c) (total_successes c) (total_timeouts c) (open_count c)
    (source c) (target c) v (reset_timeout c) (half_open_max_calls c)
    (success_threshold c) (half_open_calls c).

Definition set_reset_timeout (v : Z) (c : Circuit) : Circuit :=
  mkCircuit (state c) (failure_count c) (success_count c)
    (last_failure_time c) (last_success_time c) (last_state_change c)
    (total_failures c) (total_successes c) (total_timeouts c) (open_count c)
    (source c) (target c) (max_failures c) v (half_open_max_calls c)
    (success_threshold c) (half_open_calls c).

Definition set_half_open_max_calls (v : Z) (c : Circuit) : Circuit :=
  mkCircuit (state c) (failure_count c) (success_count c)
    (last_failure_time c) (last_success_time c) (last_state_change c)
    (total_failures c) (total_successes c) (total_timeouts c) (open_count c)
    (source c) (target c) (max_failures c) (reset_timeout c) v
    (success_threshold c) (half_open_calls c).

Definition set_success_threshold (v : Z) (c : Circuit) : Circuit :=
  mkCircuit (state c) (failure_count c) (success_count c)
    (last_failure_time c) (last_success_time c) (last_state_change c)
    (total_failures c) (total_successes c) (total_timeouts c) (open_count c)
    (source c) (target c) (max_failures c) (reset_timeout c)
    (half_open_max_calls c) v (half_open_calls c).

Definition set_half_open_calls (v : Z) (c : Circuit) : Circuit :=
  mkCircuit (state c) (failure_count c) (success_count c)
    (last_failure_time c) (last_success_time c) (last_state_change c)
    (total_failures c) (total_successes c) (total_timeouts c) (open_count c)
    (source c) (target c) (max_failures c) (reset_timeout c)
    (half_open_max_calls c) (success_threshold c) v.

(** The breaker object: its registry maps a circuit id to the address of
    the circuit dict.  [has_store] and [has_bus] say whether [self.store]
    and [self.event_bus] were given. *)
Record CircuitBreaker := mkBreaker {
  circuits : gmap string nat;
  has_store : bool;
  has_bus : bool;
  default_max_failures : Z;
  default_reset_timeout : Z;
  default_half_open_max_calls : Z;
  default_success_threshold : Z
}.

Definition set_circuits (m : gmap string nat) (cb : CircuitBreaker) : CircuitBreaker :=
  mkBreaker m (has_store cb) (has_bus cb) (default_max_failures cb)
    (default_reset_timeout cb) (default_half_open_max_calls cb)
    (default_success_threshold cb).

(** The result of a call: a value or an exception. *)
Inductive Outcome (V : Type) :=
| Returned (v : V)
| Raised (e : Exc).
Arguments Returned {V}.
Arguments Raised {V}.

(** The keys of [config] that [update_configuration] reads. *)
Record Config := mkConfig {
  cfg_max_failures : option Z;
  cfg_reset_timeout : option Z;
  cfg_half_open_max_calls : option Z;
  cfg_success_threshold : option Z
}.

(** [x or d] for an optional integer: [None] and [0] give [d]. *)
Definition py_or (x : option Z) (d : Z) : Z :=
  match x with
  | Some v => if v =? 0 then d else v
  | None => d
  end.

(** [if x is not None: circuit[key] = x] *)
Definition set_if_given (set : Z -> Circuit -> Circuit) (x : option Z)
    (c : Circuit) : Circuit :=
  match x with
  | Some v => set v c
  | None => c
  end.

Section Operations.
Context {U V : Type}.
(** Which interpreter: see [Sys.is_asyncio_timeout]. *)
Variable py311 : bool.

(** The circuit dicts and everything else. *)
Record World := mkWorld {
  heap : list Circuit;
  env : Env U
}.

(** Assignment to keys of the dict at address [a]. *)
Definition heap_update (a : nat) (f : Circuit -> Circuit) (w : World) : World :=
  mkWorld (alter f a (heap w)) (env w).

(** [if self.store: self.store.set(key, v)] *)
Definition persist (cb : CircuitBreaker) (key : string) (v : StoreVal)
    (w : World) : World :=
  if has_store cb then mkWorld (heap w) (env_store_set key v (env w)) else w.

(** [if self.event_bus: self.event_bus.emit(name, p)] *)
Definition emit (cb : CircuitBreaker) (name : string) (p : Payload)
    (w : World) : World :=
  if has_bus cb then mkWorld (heap w) (env_emit name p (env w)) else w.

(** [_load_circuits], one key of [store.keys("circuit.*.state")].  The
    value under [circuit.<id>] is the circuit dict itself, whose state is
    already a [CircuitState]; a value that is not a circuit is skipped. *)
Definition load_key (s : Store) (loaded : gmap string nat) (key : string)
    : gmap string nat :=
  match split "." key with
  | _ :: circuit_id :: _ :: _ =>
      match store_get ("circuit." ++ circuit_id) s with
      | Some (VCircuit a) => <[circuit_id := a]> loaded
      | _ => loaded
      end
  | _ => loaded
  end.

Definition _load_circuits (with_store : bool) (w : World) : gmap string nat :=
  if with_store then
    fold_left (load_key (store (env w)))
              (store_keys (Some "circuit.*.state") (store (env w))) ∅
  else ∅.

(** [CircuitBreaker(event_bus, store, ...)] with the default thresholds
    of the signature when none is given. *)
Definition new_breaker (with_bus with_store : bool)
    (max_failures reset_timeout half_open_max_calls success_threshold : Z)
    (w : World) : CircuitBreaker :=
  mkBreaker (_load_circuits with_store w) with_store with_bus
    max_failures reset_timeout half_open_max_calls success_threshold.

Definition default_breaker (with_bus with_store : bool) (w : World)
    : CircuitBreaker :=
  new_breaker with_bus with_store 3 30 1 2 w.

Definition register_circuit (cb : CircuitBreaker) (source target : string)
    (max_failures reset_timeout half_open_max_calls success_threshold : option Z)
    (now : Z) (w : World) : CircuitBreaker * World :=
  let circuit_id := source ++ ":" ++ target in
  match circuits cb !! circuit_id with
  | Some a =>
      (cb, heap_update a
             (fun c =>
                set_if_given set_success_threshold success_threshold
                  (set_if_given set_half_open_max_calls half_open_max_calls
                     (set_if_given set_reset_timeout reset_timeout
                        (set_if_given set_max_failures max_failures c)))) w)
  | None =>
      let circuit :=
        {| state := CLOSED;
           failure_count := 0;
           success_count := 0;
           last_failure_time := 0;
           last_success_time := 0;
           last_state_change := now;
           total_failures := 0;
           total_successes := 0;
           total_timeouts := 0;
           open_count := 0;
           source := source;
           target := target;
           max_failures := py_or max_failures (default_max_failures cb);
           reset_timeout := py_or reset_timeout (default_reset_timeout cb);
           half_open_max_calls :=
             py_or half_open_max_calls (default_half_open_max_calls cb);
           success_threshold :=
             py_or success_threshold (default_success_threshold cb);
           half_open_calls := 0 |} in
      let a := length (heap w) in
      (set_circuits (<[circuit_id := a]> (circuits cb)) cb,
       persist cb ("circuit." ++ circuit_id) (VCircuit a)
         (mkWorld (heap w ++ [circuit]) (env w)))
  end.

Definition _change_state (cb : CircuitBreaker) (circuit_id : string)
    (new_state : CircuitState) (now : Z) (w : World) : World :=
  match circuits cb !! circuit_id with
  | None => w
  | Some a =>
    match heap w !! a with
    | None => w
    | Some circuit =>
      let old_state := state circuit in
      if state_eqb old_state new_state then w
      else
        let w1 := heap_update a
                    (fun c => set_last_state_change now (set_state new_state c)) w in
        let w2 :=
          match new_state with
          | CLOSED =>
              heap_update a
                (fun c => set_success_count 0 (set_failure_count 0 c)) w1
          | OPEN => heap_update a (set_success_count 0) w1
          | HALF_OPEN =>
              heap_update a
                (fun c => set_success_count 0 (set_half_open_calls 0 c)) w1
          end in
        let w3 := persist cb ("circuit." ++ circuit_id) (VCircuit a) w2 in
        let w4 := persist cb
                    ("circuit." ++ circuit_id ++ ".state_change." ++ str_int now)
                    (VStateChange (state_value old_state)
                                  (state_value new_state) now) w3 in
        emit cb "circuit:state_change"
          (PStateChange circuit_id (state_value old_state)
             (state_value new_state) now (source circuit) (target circuit)) w4
    end
  end.

Definition _record_success (cb : CircuitBreaker) (circuit_id : string)
    (duration : Z) (now : Z) (w : World) : World :=
  match circuits cb !! circuit_id with
  | None => w
  | Some a =>
    match heap w !! a with
    | None => w
    | Some circuit =>
      let current_state := state circuit in
      let w1 := heap_update a
                  (fun c =>
                     set_failure_count 0
                       (set_last_success_time now
                          (set_total_successes (total_successes c + 1)
                             (set_success_count (success_count c + 1) c)))) w in
      let duration_ms := duration * 1000 in
      let w2 := persist cb
                  ("circuit." ++ circuit_id ++ ".latency." ++ str_int now)
                  (VNumber duration_ms) w1 in
      let w3 := emit cb "metrics:circuit_latency"
                  (PCircuitLatency circuit_id duration_ms now) w2 in
      let w4 :=
        match heap w3 !! a with
        | None => w3
        | Some c =>
            if state_eqb current_state HALF_OPEN
               && (success_count c >=? success_threshold c)
            then _change_state cb circuit_id CLOSED now w3
            else w3
        end in
      persist cb ("circuit." ++ circuit_id) (VCircuit a) w4
    end
  end.

Definition _record_failure (cb : CircuitBreaker) (circuit_id : string)
    (error : string) (now : Z) (w : World) : World :=
  match circuits cb !! circuit_id with
  | None => w
  | Some a =>
    match heap w !! a with
    | None => w
    | Some circuit =>
      let current_state := state circuit in
      let w1 := heap_update a
                  (fun c =>
                     set_success_count 0
                       (set_last_failure_time now
                          (set_total_failures (total_failures c + 1)
                             (set_failure_count (failure_count c + 1) c)))) w in
      let w2 := persist cb
                  ("circuit." ++ circuit_id ++ ".error." ++ str_int now)
                  (VErrorRecord error now) w1 in
      let w3 :=
        match heap w2 !! a with
        | None => w2
        | Some c =>
            if (state_eqb current_state CLOSED || state_eqb current_state HALF_OPEN)
               && (failure_count c >=? max_failures c)
            then heap_update a (fun c => set_open_count (open_count c + 1) c)
                   (_change_state cb circuit_id OPEN now w2)
            else w2
        end in
      persist cb ("circuit." ++ circuit_id) (VCircuit a) w3
    end
  end.

Definition _record_timeout (cb : CircuitBreaker) (circuit_id : string)
    (now : Z) (w : World) : World :=
  match circuits cb !! circuit_id with
  | None => w
  | Some a =>
      _record_failure cb circuit_id "Timeout" now
        (heap_update a (fun c => set_total_timeouts (total_timeouts c + 1) c) w)
  end.

Definition reset (cb : CircuitBreaker) (circuit_id : string) (now : Z)
    (w : World) : bool * World :=
  match circuits cb !! circuit_id with
  | None => (false, w)
  | Some _ => (true, _change_state cb circuit_id CLOSED now w)
  end.

Definition get_state (cb : CircuitBreaker) (circuit_id : string) (w : World)
    : option CircuitState :=
  match circuits cb !! circuit_id with
  | None => None
  | Some a => state <$> heap w !! a
  end.

Definition update_configuration (cb : CircuitBreaker) (circuit_id : string)
    (config : Config) (w : World) : bool * World :=
  match circuits cb !! circuit_id with
  | None => (false, w)
  | Some a =>
      let w1 := heap_update a
                  (fun c =>
                     set_if_given set_success_threshold (cfg_success_threshold config)
                       (set_if_given set_half_open_max_calls
                          (cfg_half_open_max_calls config)
                          (set_if_given set_reset_timeout (cfg_reset_timeout config)
                             (set_if_given set_max_failures
                                (cfg_max_failures config) c)))) w in
      let updated :=
        match config with
        | mkConfig None None None None => false
        | _ => true
        end in
      (updated,
       if updated then persist cb ("circuit." ++ circuit_id) (VCircuit a) w1
       else w1)
  end.

(** The awaited call [fn] (under [asyncio.wait_for] when a timeout is
    given) either returns or raises; an expired timeout is the exception
    [AsyncTimeoutError].  It works on the environment and not on the
    circuits.  A fallback returns a value. *)
Definition Fn : Type := Env U -> Outcome V * Env U.
Definition Fallback : Type := Env U -> V * Env U.

(** [if fallback: return fallback(...) else: raise e] *)
Definition fallback_or_raise (fallback : option Fallback) (e : Exc)
    (w : World) : Outcome V * World :=
  match fallback with
  | Some fb => let '(v, env') := fb (env w) in (Returned v, mkWorld (heap w) env')
  | None => (Raised e, w)
  end.

(** The [try] block of [execute]. *)
Definition execute_call (cb : CircuitBreaker) (circuit_id : string) (fn : Fn)
    (fallback : option Fallback) (duration : Z) (now : Z) (w : World)
    : Outcome V * World :=
  let '(r, env1) := fn (env w) in
  let w1 := mkWorld (heap w) env1 in
  match r with
  | Returned v => (Returned v, _record_success cb circuit_id duration now w1)
  | Raised e =>
      if is_asyncio_timeout py311 e then
        fallback_or_raise fallback e (_record_timeout cb circuit_id now w1)
      else
        fallback_or_raise fallback e
          (_record_failure cb circuit_id (exc_str e) now w1)
  end.

(** [execute].  The two state checks run one after the other on
    [current_state], the state read before either; [inl] is an early
    return. *)
Definition execute (cb : CircuitBreaker) (circuit_id : string) (fn : Fn)
    (fallback : option Fallback) (duration : Z) (now : Z) (w : World)
    : Outcome V * CircuitBreaker * World :=
  let '(cb1, w1) :=
    match circuits cb !! circuit_id with
    | Some _ => (cb, w)
    | None =>
        match split ":" circuit_id with
        | [source; target] =>
            register_circuit cb source target None None None None now w
        | _ =>
            register_circuit cb "default" circuit_id None None None None now w
        end
    end in
  match circuits cb1 !! circuit_id with
  | None => (Raised (KeyError circuit_id), cb1, w1)
  | Some a =>
    match heap w1 !! a with
    | None => (Raised (KeyError circuit_id), cb1, w1)
    | Some circuit =>
      let current_state := state circuit in
      let open_check : (Outcome V * World) + World :=
        if state_eqb current_state OPEN then
          if now - last_failure_time circuit >? reset_timeout circuit then
            inr (heap_update a (set_half_open_calls 0)
                   (_change_state cb1 circuit_id HALF_OPEN now w1))
          else
            inl (fallback_or_raise fallback
                   (RuntimeError ("Circuito " ++ circuit_id ++ " abierto")) w1)
        else inr w1 in
      match open_check with
      | inl (r, w2) => (r, cb1, w2)
      | inr w2 =>
        let half_open_check : (Outcome V * World) + World :=
          if state_eqb current_state HALF_OPEN then
            let w3 := heap_update a
                        (fun c => set_half_open_calls (half_open_calls c + 1) c) w2 in
            match heap w3 !! a with
            | None => inr w3
            | Some c =>
                if half_open_calls c >? half_open_max_calls c then
                  inl (fallback_or_raise fallback
                         (RuntimeError
                            ("Circuito " ++ circuit_id ++
                             " en half-open con máximo de llamadas alcanzado")) w3)
                else inr w3
            end
          else inr w2 in
        match half_open_check with
        | inl (r, w3) => (r, cb1, w3)
        | inr w3 =>
            let '(r, w4) := execute_call cb1 circuit_id fn fallback duration now w3 in
            (r, cb1, w4)
        end
      end
    end
  end.

(** The operations of the breaker as data, to speak of "every operation". *)
Inductive Op :=
| OpRegister (source target : string)
             (max_failures reset_timeout half_open_max_calls success_threshold : option Z)
| OpExecute (circuit_id : string) (fn : Fn) (fallback : option Fallback)
            (duration : Z)
| OpRecordSuccess (circuit_id : string) (duration : Z)
| OpRecordFailure (circuit_id : string) (error : string)
| OpRecordTimeout (circuit_id : string)
| OpChangeState (circuit_id : string) (new_state : CircuitState)
| OpReset (circuit_id : string)
| OpUpdateConfiguration (circuit_id : string) (config : Config).

Definition run_op (op : Op) (now : Z) (s : CircuitBreaker * World)
    : CircuitBreaker * World :=
  let '(cb, w) := s in
  match op with
  | OpRegister source target mf rt hc st =>
      register_circuit cb source target mf rt hc st now w
  | OpExecute circuit_id fn fallback duration =>
      let '(_, cb', w') := execute cb circuit_id fn fallback duration now w in
      (cb', w')
  | OpRecordSuccess circuit_id duration =>
      (cb, _record_success cb circuit_id duration now w)
  | OpRecordFailure circuit_id error =>
      (cb, _record_failure cb circuit_id error now w)
  | OpRecordTimeout circuit_id => (cb, _record_timeout cb circuit_id now w)
  | OpChangeState circuit_id new_state =>
      (cb, _change_state cb circuit_id new_state now w)
  | OpReset circuit_id => (cb, snd (reset cb circuit_id now w))
  | OpUpdateConfiguration circuit_id config =>
      (cb, snd (update_configuration cb circuit_id config w))
  end.

(** A run of operations, each with the clock reading it is made at. *)
Definition run_ops (ops : list (Op * Z)) (s : CircuitBreaker * World)
    : CircuitBreaker * World :=
  fold_left (fun s '(op, now) => run_op op now s) ops s.

End Operations.

Arguments World U : clear implicits.
Arguments mkWorld {U}.
Arguments Fn U V : clear implicits.
Arguments Fallback U V : clear implicits.
Arguments Op U V : clear implicits.

End Breaker.

(* ===================================================================== *)
(** * event_bus.py                                                        *)
(* ===================================================================== *)

Module Bus.
Import Py.

(** A handler, as far as the bus looks at it: which function it is,
    whether it is a coroutine function, and whether calling it raises. *)
Record Callback := mkCallback {
  handler : string;
  is_coroutine : bool;
  raises : bool
}.

(** [(subscription_id, callback)] *)
Definition Subscription : Type := string * Callback.

(** [_subscribers] is a dict from pattern to the list of its
    subscriptions; [_patterns] is a set, here a list without repeats in
    the order of insertion (Python leaves the order of a set open). *)
Record EventBus := mkBus {
  _subscribers : list (string * list Subscription);
  _patterns : list string;
  events_emitted : nat;
  events_processed : nat;
  subscribers_notified : nat
}.

Definition new_bus : EventBus := mkBus [] [] 0 0 0.

(** [set.add] and [set.remove] *)
Definition set_add (x : string) (s : list string) : list string :=
  if existsb (String.eqb x) s then s else (s ++ [x])%list.

Definition set_remove (x : string) (s : list string) : list string :=
  List.filter (fun y => negb (String.eqb x y)) s.

(** [self._subscribers[pattern]] where the key is known to be there; every
    pattern of [_patterns] is a key of [_subscribers]. *)
Definition subscribers_of (b : EventBus) (pattern : string) : list Subscription :=
  match dict_get pattern (_subscribers b) with
  | Some l => l
  | None => []
  end.

(** [on(event_pattern, callback)]; [subscription_id] is the fresh
    [uuid.uuid4()] and is what the call returns. *)
Definition on (b : EventBus) (event_pattern : string) (callback : Callback)
    (subscription_id : string) : EventBus :=
  mkBus
    (dict_set event_pattern
       (subscribers_of b event_pattern ++ [(subscription_id, callback)])%list
       (_subscribers b))
    (if contains "*" event_pattern then set_add event_pattern (_patterns b)
     else _patterns b)
    (events_emitted b) (events_processed b) (subscribers_notified b).

(** [subscribers.pop(i)] for the first entry with this id *)
Fixpoint remove_subscription (subscription_id : string) (l : list Subscription)
    : option (list Subscription) :=
  match l with
  | [] => None
  | (sub_id, cb) :: rest =>
      if String.eqb sub_id subscription_id then Some rest
      else match remove_subscription subscription_id rest with
           | Some rest' => Some ((sub_id, cb) :: rest')
           | None => None
           end
  end.

(** The loop of [off] over the items of [_subscribers]: the pattern under
    which the id was found and the list left for it. *)
Fixpoint find_subscription (subscription_id : string)
    (items : list (string * list Subscription))
    : option (string * list Subscription) :=
  match items with
  | [] => None
  | (event_pattern, subscribers) :: rest =>
      match remove_subscription subscription_id subscribers with
      | Some remaining => Some (event_pattern, remaining)
      | None => find_subscription subscription_id rest
      end
  end.

Definition off (b : EventBus) (subscription_id : string) : bool * EventBus :=
  match find_subscription subscription_id (_subscribers b) with
  | None => (false, b)
  | Some (event_pattern, remaining) =>
      match remaining with
      | [] =>
          (true,
           mkBus (dict_del event_pattern (_subscribers b))
             (set_remove event_pattern (_patterns b))
             (events_emitted b) (events_processed b) (subscribers_notified b))
      | _ =>
          (true,
           mkBus (dict_set event_pattern remaining (_subscribers b)) (_patterns b)
             (events_emitted b) (events_processed b) (subscribers_notified b))
      end
  end.

Definition clear (b : EventBus) : EventBus :=
  mkBus [] [] (events_emitted b) (events_processed b) (subscribers_notified b).

Definition _get_subscribers_for_event (b : EventBus) (event_name : string)
    : list Subscription :=
  (match dict_get event_name (_subscribers b) with
   | Some l => l
   | None => []
   end
   ++ flat_map (fun pattern =>
                  if fnmatch event_name pattern then subscribers_of b pattern
                  else [])
               (_patterns b))%list.

(** What happens to one subscriber of an emission: a synchronous handler
    is called with the payload and the event name; for a coroutine
    function the coroutine of [callback(payload)] is handed to
    [asyncio.create_task] and not awaited. *)
Inductive Delivery (P : Type) :=
| Called (subscription_id : string) (callback : Callback) (payload : P)
         (event_name : string)
| Scheduled (subscription_id : string) (callback : Callback) (payload : P).
Arguments Called {P}.
Arguments Scheduled {P}.

Definition delivery_id {P} (d : Delivery P) : string :=
  match d with
  | Called sid _ _ _ => sid
  | Scheduled sid _ _ => sid
  end.

(** One turn of the loop over the subscribers.  [loop_running] says
    whether an event loop is running in the thread that emits: without
    one [asyncio.create_task] raises [RuntimeError], which the [except]
    clause of the loop logs, and the coroutine function is never run. *)
Definition deliver {P} (loop_running : bool) (event_name : string) (payload : P)
    (s : Subscription) : option (Delivery P) :=
  let '(sid, callback) := s in
  if is_coroutine callback then
    if loop_running then Some (Scheduled sid callback payload) else None
  else Some (Called sid callback payload event_name).

Definition deliveries {P} (loop_running : bool) (event_name : string)
    (payload : P) (subscribers : list Subscription) : list (Delivery P) :=
  flat_map (fun s => match deliver loop_running event_name payload s with
                     | Some d => [d]
                     | None => []
                     end) subscribers.

(** Whether the turn reaches [subscribers_notified += 1]: not when the
    synchronous handler raises, and not when no task could be created. *)
Definition notified (loop_running : bool) (s : Subscription) : bool :=
  if is_coroutine (snd s) then loop_running else negb (raises (snd s)).

(** [emit(event_name, payload)]: the number of subscribers notified, the
    deliveries in order, and the bus with its statistics updated. *)
Definition emit {P} (b : EventBus) (event_name : string) (payload : P)
    (loop_running : bool) : nat * list (Delivery P) * EventBus :=
  let direct_subscribers := _get_subscribers_for_event b event_name in
  let count := length (List.filter (notified loop_running) direct_subscribers) in
  (count,
   deliveries loop_running event_name payload direct_subscribers,
   mkBus (_subscribers b) (_patterns b) (S (events_emitted b))
     (S (events_processed b)) (subscribers_notified b + count)%nat).

(** What the task of a coroutine handler has come to when the one who
    awaits [emit_async] stops waiting: a result, an exception of class
    [Exception], or nothing yet. *)
Inductive Completion (R : Type) :=
| Completed (result : R)
| Failed
| Unfinished.
Arguments Completed {R}.
Arguments Failed {R}.
Arguments Unfinished {R}.

Definition unfinished {R} (c : Completion R) : bool :=
  match c with
  | Unfinished => true
  | _ => false
  end.

(** The entry of [results] for a task that [asyncio.gather] returns. *)
Definition task_result {R} (c : Completion R) : option R :=
  match c with
  | Completed result => Some result
  | _ => None
  end.

(** [await emit_async(event_name, payload)], which runs in an event loop.
    [await k] is what the task created [k]-th comes to.  The synchronous
    handlers are called in the loop over the subscribers and each leaves
    a [None] in [results], whether it raises or not; then the tasks are
    gathered with [return_exceptions=True] and each leaves its result, or
    [None] for an exception.  The first component is [None] when some task
    is unfinished: [emit_async] then has not returned, and
    [events_processed] is not yet counted. *)
Definition emit_async {P R} (b : EventBus) (event_name : string) (payload : P)
    (await : nat -> Completion R)
    : option (list (option R)) * list (Delivery P) * EventBus :=
  let direct_subscribers := _get_subscribers_for_event b event_name in
  let called :=
    List.filter (fun s => negb (is_coroutine (snd s))) direct_subscribers in
  let tasks := List.filter (fun s => is_coroutine (snd s)) direct_subscribers in
  let count := length (List.filter (notified true) direct_subscribers) in
  let completions := map await (seq 0 (length tasks)) in
  let returns := negb (existsb unfinished completions) in
  (if returns
   then Some (map (fun _ => None) called ++ map task_result completions)%list
   else None,
   deliveries true event_name payload direct_subscribers,
   mkBus (_subscribers b) (_patterns b) (S (events_emitted b))
     (if returns then S (events_processed b) else events_processed b)
     (subscribers_notified b + count)%nat).

(** The subscription with this id was invoked by the emission. *)
Definition invoked {P} (subscription_id : string)
    (r : nat * list (Delivery P) * EventBus) : Prop :=
  In subscription_id (map delivery_id (snd (fst r))).

(** No subscription of the bus has this id. *)
Definition fresh_id (subscription_id : string) (b : EventBus) : Prop :=
  forall pattern l,
    dict_get pattern (_subscribers b) = Some l ->
    ~ In subscription_id (map fst l).

(** [get_subscribers_count(event_pattern)] *)
Definition get_subscribers_count (b : EventBus) (event_pattern : option string)
    : nat :=
  match event_pattern with
  | None => list_sum (map (fun kv => length (snd kv)) (_subscribers b))
  | Some p =>
      match dict_get p (_subscribers b) with
      | Some l => length l
      | None => 0%nat
      end
  end.

(** [get_stats()]: the three counters, then [active_subscriptions] and
    [event_patterns], which is the number of keys of [_subscribers]. *)
Definition get_stats (b : EventBus) : nat * nat * nat * nat * nat :=
  (events_emitted b, events_processed b, subscribers_notified b,
   list_sum (map (fun kv => length (snd kv)) (_subscribers b)),
   length (_subscribers b)).

(** The operations that change a bus, as data. *)
Inductive BusOp :=
| BOn (event_pattern : string) (callback : Callback) (subscription_id : string)
| BOff (subscription_id : string)
| BEmit (event_name : string) (loop_running : bool)
| BClear.

Definition run_bus_op (b : EventBus) (op : BusOp) : EventBus :=
  match op with
  | BOn event_pattern callback subscription_id =>
      on b event_pattern callback subscription_id
  | BOff subscription_id => snd (off b subscription_id)
  | BEmit event_name loop_running => snd (emit b event_name tt loop_running)
  | BClear => clear b
  end.

Definition run_bus_ops (ops : list BusOp) (b : EventBus) : EventBus :=
  fold_left run_bus_op ops b.

End Bus.

(* ===================================================================== *)
(** * interaction_manager.py                                              *)
(* ===================================================================== *)

Module Mediator.
Import Py Sys Breaker.

Inductive PermissionLevel := NONE | READ | NORMAL | ELEVATED | ADMIN | SYSTEM.

(** [PermissionLevel.value] and [.name] *)
Definition level_value (l : PermissionLevel) : Z :=
  match l with
  | NONE => 0
  | READ => 10
  | NORMAL => 20
  | ELEVATED => 30
  | ADMIN => 40
  | SYSTEM => 50
  end.

Definition level_name (l : PermissionLevel) : string :=
  match l with
  | NONE => "NONE"
  | READ => "READ"
  | NORMAL => "NORMAL"
  | ELEVATED => "ELEVATED"
  | ADMIN => "ADMIN"
  | SYSTEM => "SYSTEM"
  end.

Record SecurityContext := mkSecurityContext {
  level : PermissionLevel;
  attributes : list (string * string)
}.

(** The counters kept per ordered pair of modules. *)
Record Stats := mkStats {
  requests : Z;
  successes : Z;
  errors : Z;
  timeouts : Z;
  fallbacks : Z;
  permission_errors : Z;
  security_errors : Z;
  latency_sum : Z;
  latency_count : Z;
  latency_max : Z
}.

Definition zero_stats : Stats := mkStats 0 0 0 0 0 0 0 0 0 0.

(** The [stat_type] strings that [_update_stats] is called with. *)
Inductive StatType :=
| Requests | Successes | Errors | Timeouts | Fallbacks
| PermissionErrors | SecurityErrors.

Definition increment (t : StatType) (s : Stats) : Stats :=
  match t with
  | Requests =>
      mkStats (requests s + 1) (successes s) (errors s) (timeouts s) (fallbacks s)
        (permission_errors s) (security_errors s) (latency_sum s)
        (latency_count s) (latency_max s)
  | Successes =>
      mkStats (requests s) (successes s + 1) (errors s) (timeouts s) (fallbacks s)
        (permission_errors s) (security_errors s) (latency_sum s)
        (latency_count s) (latency_max s)
  | Errors =>
      mkStats (requests s) (successes s) (errors s + 1) (timeouts s) (fallbacks s)
        (permission_errors s) (security_errors s) (latency_sum s)
        (latency_count s) (latency_max s)
  | Timeouts =>
      mkStats (requests s) (successes s) (errors s) (timeouts s + 1) (fallbacks s)
        (permission_errors s) (security_errors s) (latency_sum s)
        (latency_count s) (latency_max s)
  | Fallbacks =>
      mkStats (requests s) (successes s) (errors s) (timeouts s) (fallbacks s + 1)
        (permission_errors s) (security_errors s) (latency_sum s)
        (latency_count s) (latency_max s)
  | PermissionErrors =>
      mkStats (requests s) (successes s) (errors s) (timeouts s) (fallbacks s)
        (permission_errors s + 1) (security_errors s) (latency_sum s)
        (latency_count s) (latency_max s)
  | SecurityErrors =>
      mkStats (requests s) (successes s) (errors s) (timeouts s) (fallbacks s)
        (permission_errors s) (security_errors s + 1) (latency_sum s)
        (latency_count s) (latency_max s)
  end.

(** The manager's own state.  Its store and its event bus are those of the
    environment; its circuit breaker is passed along with it. *)
Record InteractionManager := mkManager {
  registry : list (string * list (string * PermissionLevel));
  _stats : list (string * list (string * Stats));
  _timeouts : list (string * Z);
  telemetry_enabled : bool
}.

Definition new_manager : InteractionManager := mkManager [] [] [] true.

Definition set_registry (r : list (string * list (string * PermissionLevel)))
    (m : InteractionManager) : InteractionManager :=
  mkManager r (_stats m) (_timeouts m) (telemetry_enabled m).

Definition set_stats (s : list (string * list (string * Stats)))
    (m : InteractionManager) : InteractionManager :=
  mkManager (registry m) s (_timeouts m) (telemetry_enabled m).

Definition set_timeouts (t : list (string * Z)) (m : InteractionManager)
    : InteractionManager :=
  mkManager (registry m) (_stats m) t (telemetry_enabled m).

(** [d.get(k, {})] and the like *)
Definition get_or {A} (k : string) (d : list (string * A)) (default : A) : A :=
  match dict_get k d with
  | Some v => v
  | None => default
  end.

Definition stats_of (m : InteractionManager) (source target : string) : Stats :=
  get_or target (get_or source (_stats m) []) zero_stats.

Definition Env' : Type := Env InteractionManager.

Definition _update_stats (source target : string) (t : StatType) (e : Env') : Env' :=
  let m := user e in
  let per_source := get_or source (_stats m) [] in
  let s := get_or target per_source zero_stats in
  env_set_user
    (set_stats (dict_set source (dict_set target (increment t s) per_source)
                  (_stats m)) m) e.

Definition _record_latency (source target : string) (duration_ms : Z) (e : Env')
    : Env' :=
  let m := user e in
  let per_source := get_or source (_stats m) [] in
  let s := get_or target per_source zero_stats in
  let s' :=
    mkStats (requests s) (successes s) (errors s) (timeouts s) (fallbacks s)
      (permission_errors s) (security_errors s) (latency_sum s + duration_ms)
      (latency_count s + 1)
      (if duration_ms >? latency_max s then duration_ms else latency_max s) in
  let e1 := env_set_user
              (set_stats (dict_set source (dict_set target s' per_source)
                            (_stats m)) m) e in
  if telemetry_enabled m then
    env_emit "telemetry:latency" (PLatency source target duration_ms) e1
  else e1.

Definition set_timeout (source target : string) (timeout_seconds : Z) (e : Env')
    : Env' :=
  env_set_user
    (set_timeouts (dict_set (source ++ ":" ++ target) timeout_seconds
                     (_timeouts (user e))) (user e)) e.

(** [_handle_error]: the trace dict gets its error keys and is written to
    the store, and the error event is emitted.  [clock] is the text of
    [datetime.utcnow().isoformat()]. *)
Definition _handle_error (trace_key : string) (metadata : Trace)
    (error_msg error_type clock : string) (e : Env') : Env' :=
  let metadata' :=
    mkTrace "error" (timestamp metadata) (tr_source metadata)
      (tr_target metadata) (payload_summary metadata) (security_level metadata)
      (completed_at metadata) (Some error_msg) (Some error_type) (Some clock) in
  env_emit "module:interaction_error"
    (PInteractionError trace_key error_type error_msg)
    (env_store_set trace_key (VTrace metadata') e).

(** [_fallback_handler]; the value it returns is [None]. *)
Definition _fallback_handler {R} (source target : string) (e : Env')
    : option R * Env' :=
  (None,
   env_emit "module:circuit_fallback" (PFallback source target)
     (_update_stats source target Fallbacks e)).

Section Call.
Context {R : Type}.
(** Which interpreter: see [Sys.is_asyncio_timeout]. *)
Variable py311 : bool.

(** The awaited [wait_for(event_bus.emit_async("module:handle:" + target,
    payload), timeout)], whatever object the manager was given as its
    event bus: a result, or an exception, which is [AsyncTimeoutError]
    when the timeout expires.  For the [EventBus] of this repository the
    outcome is [awaited_emission] below.  The handlers may change the
    environment. *)
Definition Handle : Type := Env' -> Outcome R * Env'.

(** [_do_call].  The trace dict is passed by value: every update of it is
    written to the store at once, and the places that update it one after
    the other set the same keys. *)
Definition _do_call (source target payload trace_key : string) (metadata : Trace)
    (timeout : Z) (clock : string) (handle : Handle) (e : Env')
    : Outcome (option R) * Env' :=
  let e1 := env_emit ("module:call:" ++ target) (PModuleCall source payload) e in
  let '(r, e2) := handle e1 in
  match r with
  | Raised x =>
      let x' :=
        if is_asyncio_timeout py311 x then
          BuiltinTimeoutError
            ("Interaction timeout after " ++ str_int timeout ++ "s: " ++ source
             ++ "->" ++ target)
        else x in
      if is_builtin_timeout py311 x' then (Raised x', e2)
      else
        (Raised x',
         _handle_error trace_key metadata (exc_str x') "EXECUTION_ERROR" clock e2)
  | Returned result =>
      let metadata' :=
        mkTrace "success" (timestamp metadata) (tr_source metadata)
          (tr_target metadata) (payload_summary metadata)
          (security_level metadata) (Some clock) (error metadata)
          (error_type metadata) (error_time metadata) in
      let e3 := env_store_set trace_key (VTrace metadata') e2 in
      let e4 := _update_stats source target Successes e3 in
      let e5 :=
        if telemetry_enabled (user e4) then
          env_emit "telemetry:interaction"
            (PInteraction trace_key source target true) e4
        else e4 in
      (Returned (Some result), e5)
  end.

Definition register_interaction (cb : option CircuitBreaker)
    (source target : string) (permission_level : PermissionLevel) (now : Z)
    (w : World InteractionManager)
    : option CircuitBreaker * World InteractionManager :=
  let m := user (env w) in
  let per_source := get_or source (registry m) [] in
  let w1 :=
    mkWorld (heap w)
      (env_set_user
         (set_registry (dict_set source
                          (dict_set target permission_level per_source)
                          (registry m)) m) (env w)) in
  match cb with
  | Some b =>
      let '(b', w2) := register_circuit b source target None None None None now w1 in
      (Some b', w2)
  | None => (None, w1)
  end.

(** The trace key and the first trace dict of a call. *)
Definition trace_key_of (source target clock : string) : string :=
  "interaction." ++ source ++ "." ++ target ++ "." ++ clock.

Definition pending_trace (source target payload : string)
    (security_context : option SecurityContext) (clock : string) : Trace :=
  mkTrace "pending" clock source target
    (if String.eqb payload "" then None else Some (substring 0 100 payload))
    (match security_context with
     | Some c => level_name (level c)
     | None => "NONE"
     end)
    None None None None.

Definition not_permitted (source target : string) : string :=
  "Interaction not permitted: " ++ source ++ " -> " ++ target.

Definition level_insufficient (required got : PermissionLevel) : string :=
  "Security level insufficient: required " ++ level_name required ++ ", got "
  ++ level_name got.

(** [call].  [payload] is the text of the payload, empty for a payload
    that is false; [duration] and [duration_ms] are the two elapsed times
    that are measured. *)
Definition call (cb : option CircuitBreaker) (source target payload : string)
    (security_context : option SecurityContext) (clock : string)
    (handle : Handle) (duration duration_ms now : Z)
    (w : World InteractionManager)
    : Outcome (option R) * option CircuitBreaker * World InteractionManager :=
  let circuit_id := source ++ ":" ++ target in
  let trace_key := trace_key_of source target clock in
  let metadata := pending_trace source target payload security_context clock in
  let e1 := env_store_set trace_key (VTrace metadata) (env w) in
  let e2 := _update_stats source target Requests e1 in
  let timeout :=
    get_or circuit_id (_timeouts (user e2))
      (get_or (source ++ ":*") (_timeouts (user e2)) 10) in
  match dict_get target (get_or source (registry (user e2)) []) with
  | None =>
      let error := not_permitted source target in
      let e3 := _handle_error trace_key metadata error "PERMISSION_ERROR" clock e2 in
      let e4 := _update_stats source target PermissionErrors e3 in
      (Raised (PermissionError error), cb, mkWorld (heap w) e4)
  | Some target_permission =>
      let refused :=
        match security_context with
        | Some c =>
            if level_value target_permission >? level_value (level c) then
              let error := level_insufficient target_permission (level c) in
              let e3 := _handle_error trace_key metadata error "SECURITY_ERROR"
                          clock e2 in
              let e4 := _update_stats source target SecurityErrors e3 in
              Some (Raised (PermissionError error), cb, mkWorld (heap w) e4)
            else None
        | None => None
        end in
      match refused with
      | Some r => r
      | None =>
        let '(r, cb', w3) :=
          match cb with
          | Some b =>
              let '(r, b', w') :=
                execute py311 b circuit_id
                  (_do_call source target payload trace_key metadata timeout
                     clock handle)
                  (Some (_fallback_handler source target))
                  duration now (mkWorld (heap w) e2) in
              (r, Some b', w')
          | None =>
              let '(r, e') :=
                _do_call source target payload trace_key metadata timeout
                  clock handle e2 in
              (r, None, mkWorld (heap w) e')
          end in
        let e4 :=
          match r with
          | Returned _ => env w3
          | Raised x =>
              if is_asyncio_timeout py311 x then
                _handle_error trace_key metadata (exc_str x) "TIMEOUT_ERROR" clock
                  (_update_stats source target Timeouts (env w3))
              else if is_permission_error x then
                _handle_error trace_key metadata (exc_str x) "PERMISSION_ERROR"
                  clock (env w3)
              else
                _handle_error trace_key metadata (exc_str x) "EXECUTION_ERROR"
                  clock (_update_stats source target Errors (env w3))
          end in
        (r, cb', mkWorld (heap w3) (_record_latency source target duration_ms e4))
      end
  end.

End Call.

Arguments Handle R : clear implicits.

(** The awaited call of [_do_call] when the event bus is the [EventBus] of
    this repository:
    [wait_for(event_bus.emit_async("module:handle:" + target, payload),
    timeout)].  With a timeout that is not positive [wait_for] cancels the
    emission before it starts.  Otherwise it gives the results of
    [emit_async], or raises [asyncio.TimeoutError] when [emit_async] has
    not returned in time, which is when a task is unfinished.  An
    exception of a handler does not come out of [emit_async]. *)
Definition awaited_emission {P R : Type} (bus : Bus.EventBus) (target : string)
    (payload : P) (await : nat -> Bus.Completion R) (timeout : Z)
    : Outcome (list (option R)) :=
  if timeout <=? 0 then Raised AsyncTimeoutError
  else
    match fst (fst (Bus.emit_async bus ("module:handle:" ++ target) payload await))
    with
    | Some results => Returned results
    | None => Raised AsyncTimeoutError
    end.

(** [is_interaction_allowed(source, target, security_context)] *)
Definition is_interaction_allowed (m : InteractionManager) (source target : string)
    (security_context : option SecurityContext) : bool :=
  match dict_get source (registry m) with
  | None => false
  | Some targets =>
      match dict_get target targets with
      | None => false
      | Some target_permission =>
          match security_context with
          | Some c => negb (level_value target_permission >? level_value (level c))
          | None => true
          end
      end
  end.

(** [get_allowed_targets(source, security_context)] *)
Definition get_allowed_targets (m : InteractionManager) (source : string)
    (security_context : option SecurityContext) : list string :=
  match dict_get source (registry m) with
  | None => []
  | Some targets =>
      match security_context with
      | None => dict_keys targets
      | Some c =>
          map fst
            (List.filter
               (fun tp => level_value (snd tp) <=? level_value (level c))
               targets)
      end
  end.

(** [get_allowed_sources(target, security_context)] *)
Definition get_allowed_sources (m : InteractionManager) (target : string)
    (security_context : option SecurityContext) : list string :=
  map fst
    (List.filter
       (fun st =>
          match dict_get target (snd st) with
          | Some permission =>
              match security_context with
              | Some c => level_value permission <=? level_value (level c)
              | None => true
              end
          | None => false
          end)
       (registry m)).

(** [reset_stats(source, target)] *)
Definition reset_stats (source target : option string) (m : InteractionManager)
    : InteractionManager :=
  match source, target with
  | None, None => set_stats [] m
  | Some s, None =>
      match dict_get s (_stats m) with
      | Some _ => set_stats (dict_set s [] (_stats m)) m
      | None => m
      end
  | Some s, Some t =>
      match dict_get s (_stats m) with
      | Some per_source =>
          match dict_get t per_source with
          | Some _ =>
              set_stats (dict_set s (dict_set t zero_stats per_source) (_stats m)) m
          | None => m
          end
      | None => m
      end
  | None, Some _ => m
  end.

(** Registrations one after the other, without a breaker:
    [(source, target, permission_level)] each. *)
Definition register_all (edges : list (string * string * PermissionLevel))
    (w : World InteractionManager) : World InteractionManager :=
  fold_left
    (fun w '(source, target, permission_level) =>
       snd (register_interaction None source target permission_level 0 w))
    edges w.

End Mediator.

(* ===================================================================== *)
(** * telemetry_collector.py                                              *)
(* ===================================================================== *)

Module Telemetry.
Import Py.

Inductive AlertSeverity := INFO | WARNING | ERROR | CRITICAL.

(** [AlertSeverity.value] *)
Definition severity_value (s : AlertSeverity) : string :=
  match s with
  | INFO => "info"
  | WARNING => "warning"
  | ERROR => "error"
  | CRITICAL => "critical"
  end.

Inductive AlertType :=
| HIGH_CPU | HIGH_MEMORY | HIGH_LATENCY | ERROR_RATE | CIRCUIT_OPEN
| COMPONENT_ERROR | SYSTEM_DEGRADED | ANOMALY_DETECTED | TIMEOUT_SPIKE
| RESOURCE_EXHAUSTION | SECURITY_VIOLATION.

(** [AlertType.value] *)
Definition type_value (t : AlertType) : string :=
  match t with
  | HIGH_CPU => "high_cpu"
  | HIGH_MEMORY => "high_memory"
  | HIGH_LATENCY => "high_latency"
  | ERROR_RATE => "error_rate"
  | CIRCUIT_OPEN => "circuit_open"
  | COMPONENT_ERROR => "component_error"
  | SYSTEM_DEGRADED => "system_degraded"
  | ANOMALY_DETECTED => "anomaly_detected"
  | TIMEOUT_SPIKE => "timeout_spike"
  | RESOURCE_EXHAUSTION => "resource_exhaustion"
  | SECURITY_VIOLATION => "security_violation"
  end.

(** A number as an f-string prints it: the value, the digits after the
    point and the unit that follows. *)
Record Formatted := mkFormatted {
  shown : float;
  decimals : nat;
  unit_text : string
}.

(** The parts of the text that [_format_alert_message] builds. *)
Record Message := mkMessage {
  level_text : string;
  about : AlertType;
  about_metric : string;
  value_text : Formatted;
  threshold_text : Formatted
}.

(** The alert dict of [_emit_alert] *)
Record Alert := mkAlert {
  a_type : string;
  a_severity : string;
  a_metric : string;
  a_value : float;
  a_threshold : float;
  a_message : Message;
  a_timestamp : Z;
  a_datetime : string;
  a_stats : option (list (string * float))
}.

(** The anomaly model of one metric *)
Record Model := mkModel {
  mean : float;
  stddev : float;
  threshold : float;
  last_update : Z
}.

(** The anomaly dict of [_detect_anomalies] *)
Record Anomaly := mkAnomaly {
  an_metric : string;
  an_value : float;
  an_score : float;
  an_timestamp : Z;
  an_threshold : float;
  an_model_mean : float;
  an_model_stddev : float
}.

(** What the collector stores and what it emits *)
Inductive Item :=
| IAlert (a : Alert)
| IAnomaly (a : Anomaly).

(** The collector, with the store and the log of emitted events it writes
    to.  The active alerts are those that [_emit_alert] records. *)
Record Collector := mkCollector {
  metrics_buffer : list (string * list float);
  last_values : list (string * float);
  alert_thresholds : list (string * list (string * float));
  active_alerts : list (string * Alert);
  anomalies : list Anomaly;
  anomaly_models : list (string * Model);
  store : list (string * Item);
  events : list (string * Item)
}.

(** [_load_config] without configuration: the default thresholds *)
Definition default_thresholds : list (string * list (string * float)) :=
  [("cpu.percent", [("warning", 70%float); ("critical", 90%float)]);
   ("memory.percent", [("warning", 80%float); ("critical", 95%float)]);
   ("latency.interaction", [("warning", 1000%float); ("critical", 5000%float)]);
   ("error.rate", [("warning", 0.05%float); ("critical", 0.2%float)])].

Definition new_collector : Collector :=
  mkCollector [] [] default_thresholds [] [] [] [] [].

(** [set_alert_threshold] *)
Definition set_alert_threshold (metric_pattern level : string) (value : float)
    (c : Collector) : Collector :=
  let levels := match dict_get metric_pattern (alert_thresholds c) with
                | Some l => l
                | None => []
                end in
  mkCollector (metrics_buffer c) (last_values c)
    (dict_set metric_pattern (dict_set level value levels) (alert_thresholds c))
    (active_alerts c) (anomalies c) (anomaly_models c) (store c) (events c).

(** ** Statistics *)

Definition float_of_nat (n : nat) : float :=
  PrimFloat.of_uint63 (Uint63.of_Z (Z.of_nat n)).

Definition fsum (values : list float) : float :=
  fold_left PrimFloat.add values 0%float.

(** [statistics.mean] and [statistics.stdev] (the sample standard
    deviation), computed in binary64 arithmetic. *)
Definition statistics_mean (values : list float) : float :=
  (fsum values / float_of_nat (length values))%float.

Definition statistics_variance (values : list float) : float :=
  let m := statistics_mean values in
  (fsum (map (fun x => (x - m) * (x - m))%float values)
   / float_of_nat (length values - 1))%float.

Definition statistics_stdev (values : list float) : float :=
  PrimFloat.sqrt (statistics_variance values).

(** ** Recording and cleaning *)

Definition _record_metric (name : string) (value : float) (c : Collector)
    : Collector :=
  let buffer := match dict_get name (metrics_buffer c) with
                | Some l => l
                | None => []
                end in
  mkCollector (dict_set name (buffer ++ [value])%list (metrics_buffer c))
    (dict_set name value (last_values c))
    (alert_thresholds c) (active_alerts c) (anomalies c) (anomaly_models c)
    (store c) (events c).

(** [l[-n:]] for a positive [n] *)
Definition last_n {A} (n : nat) (l : list A) : list A :=
  skipn (length l - n) l.

Definition max_buffer_size : nat := 1000.

Definition _clean_old_data (now : Z) (c : Collector) : Collector :=
  mkCollector
    (map (fun '(metric_name, values) =>
            (metric_name,
             if (max_buffer_size <? length values)%nat
             then last_n max_buffer_size values
             else values))
         (metrics_buffer c))
    (last_values c)
    (alert_thresholds c)
    (List.filter (fun '(key, alert) => negb (now - a_timestamp alert >? 86400))
       (active_alerts c))
    (if (100 <? length (anomalies c))%nat then last_n 100 (anomalies c)
     else anomalies c)
    (anomaly_models c) (store c) (events c).

(** ** Alerts *)

Definition _match_metric_pattern (metric_name pattern : string) : bool :=
  if String.eqb pattern metric_name then true
  else if endswith pattern "*" && startswith metric_name (drop_last pattern)
  then true
  else if startswith pattern "*" && endswith metric_name (drop_first pattern)
  then true
  else if contains "*" pattern then
    match split "*" pattern with
    | [before; after] => startswith metric_name before && endswith metric_name after
    | _ => false
    end
  else false.

Definition alert_type_of (metric_name : string) : AlertType :=
  if startswith metric_name "cpu" then HIGH_CPU
  else if startswith metric_name "memory" then HIGH_MEMORY
  else if startswith metric_name "latency" then HIGH_LATENCY
  else if startswith metric_name "error" then ERROR_RATE
  else ANOMALY_DETECTED.

(** [severity.value.upper()] *)
Definition severity_upper (s : AlertSeverity) : string :=
  match s with
  | INFO => "INFO"
  | WARNING => "WARNING"
  | ERROR => "ERROR"
  | CRITICAL => "CRITICAL"
  end.

Definition _format_alert_message (alert_type : AlertType) (metric_name : string)
    (value threshold : float) (severity : AlertSeverity) : Message :=
  let '(v, t) :=
    if startswith metric_name "latency" then
      (mkFormatted value 2 "ms", mkFormatted threshold 2 "ms")
    else if endswith metric_name "percent" then
      (mkFormatted value 1 "%", mkFormatted threshold 1 "%")
    else if startswith metric_name "error.rate" then
      (mkFormatted (value * 100)%float 2 "%",
       mkFormatted (threshold * 100)%float 2 "%")
    else (mkFormatted value 2 "", mkFormatted threshold 2 "") in
  mkMessage (severity_upper severity) alert_type metric_name v t.

Definition alert_key_of (metric_name : string) : string :=
  type_value (alert_type_of metric_name) ++ ":" ++ metric_name.

(** The two checks of [_emit_alert] against the active alert of the same
    key, in the order of the source: [true] when the alert is dropped. *)
Definition suppressed (last_alert : Alert) (value : float)
    (severity : AlertSeverity) (now : Z) : bool :=
  let time_since_last := now - a_timestamp last_alert in
  if (time_since_last <? 300)
     && String.eqb (a_severity last_alert) (severity_value severity)
  then true
  else if String.eqb (a_severity last_alert) (severity_value severity)
          && (time_since_last <? 300)
          && PrimFloat.ltb value (a_value last_alert * 1.5)%float
  then true
  else false.

(** [_emit_alert]; [clock] is the text of [datetime.utcnow().isoformat()].
    [stats] is attached when it is given and not empty. *)
Definition _emit_alert (metric_name : string) (value threshold : float)
    (severity : AlertSeverity) (stats : option (list (string * float)))
    (now : Z) (clock : string) (c : Collector) : Collector :=
  let alert_type := alert_type_of metric_name in
  let alert_key := alert_key_of metric_name in
  let drop :=
    match dict_get alert_key (active_alerts c) with
    | Some last_alert => suppressed last_alert value severity now
    | None => false
    end in
  if drop then c
  else
    let alert_data :=
      mkAlert (type_value alert_type) (severity_value severity) metric_name
        value threshold
        (_format_alert_message alert_type metric_name value threshold severity)
        now clock
        (match stats with
         | Some (_ :: _) => stats
         | _ => None
         end) in
    mkCollector (metrics_buffer c) (last_values c) (alert_thresholds c)
      (dict_set alert_key alert_data (active_alerts c))
      (anomalies c) (anomaly_models c)
      (dict_set ("alerts." ++ str_int now ++ "-" ++ alert_key) (IAlert alert_data)
         (store c))
      (events c ++ [("system:alert", IAlert alert_data)])%list.

(** The body of the loop of [_check_thresholds] for one threshold entry. *)
Definition check_threshold (metric_name : string) (stats : list (string * float))
    (now : Z) (clock : string) (c : Collector)
    (entry : string * list (string * float)) : Collector :=
  let '(threshold_pattern, thresholds) := entry in
  if _match_metric_pattern metric_name threshold_pattern then
    let check_value :=
      match dict_get "mean" stats with
      | Some m => Some m
      | None =>
          match dict_get "p95" stats with
          | Some p =>
              if startswith threshold_pattern "latency." then Some p
              else match dict_get "max" stats with
                   | Some mx =>
                       if endswith threshold_pattern ".max" then Some mx else None
                   | None => None
                   end
          | None =>
              match dict_get "max" stats with
              | Some mx =>
                  if endswith threshold_pattern ".max" then Some mx else None
              | None => None
              end
          end
      end in
    match check_value with
    | None => c
    | Some v =>
        match dict_get "critical" thresholds with
        | Some critical =>
            if PrimFloat.leb critical v then
              _emit_alert metric_name v critical CRITICAL (Some stats) now clock c
            else
              match dict_get "warning" thresholds with
              | Some warning =>
                  if PrimFloat.leb warning v then
                    _emit_alert metric_name v warning WARNING (Some stats)
                      now clock c
                  else c
              | None => c
              end
        | None =>
            match dict_get "warning" thresholds with
            | Some warning =>
                if PrimFloat.leb warning v then
                  _emit_alert metric_name v warning WARNING (Some stats) now clock c
                else c
            | None => c
            end
        end
    end
  else c.

Definition _check_thresholds (metric_name : string)
    (stats : list (string * float)) (now : Z) (clock : string) (c : Collector)
    : Collector :=
  fold_left (check_threshold metric_name stats now clock) (alert_thresholds c) c.

(** ** Anomalies *)

Definition _initialize_anomaly_model (values : list float) (now : Z) : Model :=
  let m := statistics_mean values in
  let sd := if (1 <? length values)%nat then statistics_stdev values
            else (0.1 * m)%float in
  mkModel m sd (3 * sd)%float now.

Definition _update_anomaly_model (model : Model) (new_values : list float)
    (now : Z) : Model :=
  let weight_old := 0.7%float in
  let weight_new := 0.3%float in
  let new_mean := statistics_mean new_values in
  let new_stddev := if (1 <? length new_values)%nat
                    then statistics_stdev new_values
                    else (0.1 * new_mean)%float in
  let updated_mean := (mean model * weight_old + new_mean * weight_new)%float in
  let updated_stddev :=
    (stddev model * weight_old + new_stddev * weight_new)%float in
  mkModel updated_mean updated_stddev (3 * updated_stddev)%float now.

(** [_check_anomaly]: whether the value is an anomaly, and its z-score *)
Definition _check_anomaly (value : float) (model : Model) : bool * float :=
  let z_score :=
    if PrimFloat.eqb (stddev model) 0%float then 0%float
    else (PrimFloat.abs (value - mean model) / stddev model)%float in
  (PrimFloat.ltb 3%float z_score, z_score).

(** The body of the inner loop of [_detect_anomalies] for one recent
    value. *)
Definition check_recent_value (metric_name : string) (model : Model) (now : Z)
    (clock : string) (c : Collector) (value : float) : Collector :=
  let '(is_anomaly, score) := _check_anomaly value model in
  if is_anomaly then
    let anomaly := mkAnomaly metric_name value score now (threshold model)
                     (mean model) (stddev model) in
    let c1 :=
      mkCollector (metrics_buffer c) (last_values c) (alert_thresholds c)
        (active_alerts c) (anomalies c ++ [anomaly])%list (anomaly_models c)
        (dict_set ("anomaly." ++ metric_name ++ "." ++ str_int now)
           (IAnomaly anomaly) (store c))
        (events c ++ [("telemetry:anomaly_detected", IAnomaly anomaly)])%list in
    if PrimFloat.ltb (threshold model * 2)%float score then
      _emit_alert metric_name value (threshold model) ERROR
        (Some [("anomaly_score", score)]) now clock c1
    else
      _emit_alert metric_name value (threshold model) WARNING
        (Some [("anomaly_score", score)]) now clock c1
  else c.

(** The body of the outer loop of [_detect_anomalies] for one metric. *)
Definition detect_in_metric (now : Z) (clock : string) (c : Collector)
    (item : string * list float) : Collector :=
  let '(metric_name, values) := item in
  if (length values <? 30)%nat then c
  else
    let models :=
      match dict_get metric_name (anomaly_models c) with
      | None =>
          dict_set metric_name (_initialize_anomaly_model values now)
            (anomaly_models c)
      | Some model =>
          if now - last_update model >? 600 then
            dict_set metric_name (_update_anomaly_model model values now)
              (anomaly_models c)
          else anomaly_models c
      end in
    let c1 :=
      mkCollector (metrics_buffer c) (last_values c) (alert_thresholds c)
        (active_alerts c) (anomalies c) models (store c) (events c) in
    match dict_get metric_name models with
    | None => c1
    | Some model =>
        fold_left (check_recent_value metric_name model now clock)
          (last_n 10 values) c1
    end.

(** One pass of the anomaly loop *)
Definition _detect_anomalies (now : Z) (clock : string) (c : Collector)
    : Collector :=
  fold_left (detect_in_metric now clock) (metrics_buffer c) c.

End Telemetry.

(* ===================================================================== *)
(** * store.py                                                            *)
(* ===================================================================== *)

(** The store in full, for a store that keeps its data in memory
    ([persist_dir] is [None]): values with a time to live, versioned keys
    with their history, the counters, and the change events handed to the
    event bus.  The thread that cleans up every ten seconds is the
    operation [_cleanup_expired], run whenever the thread runs it. *)
Module KeyValueStore.
Import Py Sys.

(** What a call gives back: a value or an exception. *)
Inductive Result (A : Type) :=
| Ok (a : A)
| Error (e : Exc).
Arguments Ok {A}.
Arguments Error {A}.

Section Store.
Context {V : Type}.
(** Python's [==] on the stored values. *)
Variable value_eqb : V -> V -> bool.

(** The metadata dict of a key; each of its three keys is there or not.
    [versioned] is only ever set to [True]. *)
Record Metadata := mkMetadata {
  expires_at : option Z;
  versioned : bool;
  history : option (list (V * Z))
}.

(** [{}] *)
Definition no_metadata : Metadata := mkMetadata None false None.

(** The events given to the bus: [store:key:created], [store:key:updated],
    [store:key:deleted], [store:key:expired] and, after each of them,
    [store:key:changed]. *)
Inductive StoreEvent :=
| KeyCreated (key : string) (new_value : V)
| KeyUpdated (key : string) (old_value new_value : V)
| KeyDeleted (key : string) (old_value : V)
| KeyExpired (key : string) (old_value : V)
| KeyChanged (key type : string) (old_value new_value : option V).

Record Store := mkStore {
  has_bus : bool;
  _data : list (string * V);
  _metadata : list (string * Metadata);
  _versioned_keys : list string;
  sets : nat;
  gets : nat;
  hits : nat;
  misses : nat;
  deletes : nat;
  expirations : nat;
  emitted : list StoreEvent
}.

(** [Store(event_bus)] *)
Definition new_store (with_bus : bool) : Store :=
  mkStore with_bus [] [] [] 0 0 0 0 0 0 [].

(** [self._metadata.get(key, {})] *)
Definition metadata_of (key : string) (s : Store) : Metadata :=
  match dict_get key (_metadata s) with
  | Some m => m
  | None => no_metadata
  end.

(** ['expires_at' in metadata and metadata['expires_at'] <= time.time()] *)
Definition expired (m : Metadata) (now : Z) : bool :=
  match expires_at m with
  | Some t => t <=? now
  | None => false
  end.

Definition is_expired (key : string) (now : Z) (s : Store) : bool :=
  expired (metadata_of key s) now.

(** [key in self._versioned_keys] *)
Definition is_versioned (key : string) (l : list string) : bool :=
  existsb (String.eqb key) l.

Definition emit (events : list StoreEvent) (s : Store) : list StoreEvent :=
  if has_bus s then (emitted s ++ events)%list else emitted s.

Definition _delete_internal (key : string) (is_expiry : bool) (s : Store)
    : bool * Store :=
  match dict_get key (_data s) with
  | None => (false, s)
  | Some old_value =>
      (true,
       mkStore (has_bus s)
         (dict_del key (_data s))
         (dict_del key (_metadata s))
         (Bus.set_remove key (_versioned_keys s))
         (sets s) (gets s) (hits s) (misses s)
         (if is_expiry then deletes s else S (deletes s))
         (if is_expiry then S (expirations s) else expirations s)
         (emit (if is_expiry
                then [KeyExpired key old_value;
                      KeyChanged key "expired" (Some old_value) None]
                else [KeyDeleted key old_value;
                      KeyChanged key "deleted" (Some old_value) None]) s))
  end.

(** [set(key, value, ttl, versioned=...)] at time [now]; it returns
    [True]. *)
Definition set (key : string) (value : V) (ttl : option Z) (versioned_arg : bool)
    (now : Z) (s : Store) : Store :=
  let old_value := dict_get key (_data s) in
  let value_changed :=
    match old_value with
    | Some old => negb (value_eqb old value)
    | None => true
    end in
  let m1 :=
    mkMetadata (match ttl with Some t => Some (now + t) | None => None end)
      (versioned (metadata_of key s)) (history (metadata_of key s)) in
  let newly_versioned :=
    versioned_arg && negb (is_versioned key (_versioned_keys s)) in
  let versioned_keys :=
    if newly_versioned then Bus.set_add key (_versioned_keys s)
    else _versioned_keys s in
  let m2 :=
    if newly_versioned then mkMetadata (expires_at m1) true (Some []) else m1 in
  let m3 :=
    if is_versioned key versioned_keys && value_changed then
      let h := match history m2 with Some h => h | None => [] end in
      mkMetadata (expires_at m2) (versioned m2)
        (Some (match old_value with
               | Some old => (h ++ [(old, now)])%list
               | None => h
               end))
    else m2 in
  mkStore (has_bus s)
    (dict_set key value (_data s))
    (dict_set key m3 (_metadata s))
    versioned_keys
    (S (sets s)) (gets s) (hits s) (misses s) (deletes s) (expirations s)
    (if value_changed then
       emit (match old_value with
             | Some old =>
                 [KeyUpdated key old value;
                  KeyChanged key "updated" (Some old) (Some value)]
             | None =>
                 [KeyCreated key value;
                  KeyChanged key "created" None (Some value)]
             end) s
     else emitted s).

Definition count_get (s : Store) : Store :=
  mkStore (has_bus s) (_data s) (_metadata s) (_versioned_keys s) (sets s)
    (S (gets s)) (hits s) (misses s) (deletes s) (expirations s) (emitted s).

Definition count_hit (s : Store) : Store :=
  mkStore (has_bus s) (_data s) (_metadata s) (_versioned_keys s) (sets s)
    (gets s) (S (hits s)) (misses s) (deletes s) (expirations s) (emitted s).

Definition count_miss (s : Store) : Store :=
  mkStore (has_bus s) (_data s) (_metadata s) (_versioned_keys s) (sets s)
    (gets s) (hits s) (S (misses s)) (deletes s) (expirations s) (emitted s).

(** [get(key)]: the value, or the default [None]. *)
Definition get (key : string) (now : Z) (s : Store) : option V * Store :=
  let s1 := count_get s in
  match dict_get key (_data s1) with
  | Some v =>
      if is_expired key now s1 then
        (None, count_miss (snd (_delete_internal key true s1)))
      else (Some v, count_hit s1)
  | None => (None, count_miss s1)
  end.

Definition delete (key : string) (s : Store) : bool * Store :=
  _delete_internal key false s.

Definition has (key : string) (now : Z) (s : Store) : bool * Store :=
  match dict_get key (_data s) with
  | None => (false, s)
  | Some _ =>
      if is_expired key now s then (false, snd (_delete_internal key true s))
      else (true, s)
  end.

(** Whether [pattern] is [None] or matches the key. *)
Definition selects (pattern : option string) (key : string) : bool :=
  match pattern with
  | None => true
  | Some p => fnmatch key p
  end.

(** One turn of the loop of [keys]. *)
Definition keys_step (pattern : option string) (now : Z)
    (acc : list string * Store) (key : string) : list string * Store :=
  let '(result, s) := acc in
  if is_expired key now s then (result, snd (_delete_internal key true s))
  else if selects pattern key then ((result ++ [key])%list, s)
  else (result, s).

(** [keys(pattern)]: the loop runs over a copy of the keys. *)
Definition keys (pattern : option string) (now : Z) (s : Store)
    : list string * Store :=
  fold_left (keys_step pattern now) (dict_keys (_data s)) ([], s).

(** The loop of [get_many], which runs over the keys of [_data] itself.
    Deleting an expired key changes the size of the dict, and the next
    step of the iteration, be it the last, raises [RuntimeError]. *)
Fixpoint get_many_loop (pattern : string) (now : Z) (remaining : list string)
    (result : list (string * V)) (s : Store)
    : Result (list (string * V)) * Store :=
  match remaining with
  | [] => (Ok result, count_get s)
  | key :: rest =>
      if fnmatch key pattern then
        if is_expired key now s then
          (Error (RuntimeError "dictionary changed size during iteration"),
           snd (_delete_internal key true s))
        else
          match dict_get key (_data s) with
          | Some v => get_many_loop pattern now rest (dict_set key v result) s
          | None => (Error (KeyError key), s)
          end
      else get_many_loop pattern now rest result s
  end.

Definition get_many (pattern : string) (now : Z) (s : Store)
    : Result (list (string * V)) * Store :=
  get_many_loop pattern now (dict_keys (_data s)) [] s.

(** One turn of the loop of [clear]. *)
Definition clear_step (acc : nat * Store) (key : string) : nat * Store :=
  let '(count, s) := acc in
  let '(deleted, s') := _delete_internal key false s in
  (if deleted then S count else count, s').

Definition clear (pattern : option string) (now : Z) (s : Store) : nat * Store :=
  let '(keys_to_delete, s1) := keys pattern now s in
  fold_left clear_step keys_to_delete (0%nat, s1).

(** [_cleanup_expired]: the expired keys are collected from [_metadata]
    and then deleted one by one. *)
Definition _cleanup_expired (now : Z) (s : Store) : Store :=
  let keys_to_delete :=
    map fst (List.filter (fun km => expired (snd km) now) (_metadata s)) in
  fold_left (fun s key => snd (_delete_internal key true s)) keys_to_delete s.

(** [get_version_history(key)]: entries [(value, timestamp, is_current)],
    the current value first, then the history from the newest on. *)
Definition get_version_history (key : string) (now : Z) (s : Store)
    : list (V * Z * bool) :=
  match dict_get key (_data s) with
  | Some v =>
      if is_versioned key (_versioned_keys s) then
        (v, now, true)
        :: map (fun e => (fst e, snd e, false))
             (rev (match history (metadata_of key s) with
                   | Some h => h
                   | None => []
                   end))
      else []
  | None => []
  end.

(** The operations of the store as data. *)
Inductive StoreOp :=
| SSet (key : string) (value : V) (ttl : option Z) (versioned_arg : bool)
| SGet (key : string)
| SDelete (key : string)
| SHas (key : string)
| SKeys (pattern : option string)
| SGetMany (pattern : string)
| SClear (pattern : option string)
| SCleanup.

Definition run_store_op (s : Store) (op : StoreOp * Z) : Store :=
  let '(op, now) := op in
  match op with
  | SSet key value ttl versioned_arg => set key value ttl versioned_arg now s
  | SGet key => snd (get key now s)
  | SDelete key => snd (delete key s)
  | SHas key => snd (has key now s)
  | SKeys pattern => snd (keys pattern now s)
  | SGetMany pattern => snd (get_many pattern now s)
  | SClear pattern => snd (clear pattern now s)
  | SCleanup => _cleanup_expired now s
  end.

(** A run of operations, each with the clock reading it is made at. *)
Definition run_store_ops (ops : list (StoreOp * Z)) (s : Store) : Store :=
  fold_left run_store_op ops s.

End Store.

Arguments Metadata V : clear implicits.
Arguments StoreEvent V : clear implicits.
Arguments Store V : clear implicits.
Arguments StoreOp V : clear implicits.
Arguments new_store {V}.

End KeyValueStore.

(* ===================================================================== *)
(** * Properties of the circuit breaker                                   *)
(* ===================================================================== *)

Module BreakerFacts.
Import Py Sys Breaker.

(** ** Strings *)

Lemma split_without_sep (sep : ascii) (s : string) :
  contains sep s = false -> split sep s = [s].
Proof.
  induction s as [|c s IH]; simpl; [reflexivity|].
  destruct (Ascii.eqb c sep); [discriminate|].
  intros H. rewrite (IH H). reflexivity.
Qed.

Lemma length_of_append (p s : string) :
  String.length (p ++ s) = (String.length p + String.length s)%nat.
Proof. induction p as [|c p IH]; simpl; [reflexivity | rewrite IH; reflexivity]. Qed.

Lemma prefixed_differs (p s : string) :
  p <> EmptyString -> (p ++ s)%string <> s.
Proof.
  intros Hp H.
  assert (L : String.length (p ++ s) = String.length s) by (rewrite H; reflexivity).
  rewrite length_of_append in L.
  destruct p; [congruence | simpl in L; lia].
Qed.

(** ** What one operation does to the circuit it is about *)

(** The net effect of [_change_state] on the circuit. *)
Definition changed (new_state : CircuitState) (now : Z) (c : Circuit) : Circuit :=
  if state_eqb (state c) new_state then c
  else
    let c1 := set_last_state_change now (set_state new_state c) in
    match new_state with
    | CLOSED => set_success_count 0 (set_failure_count 0 c1)
    | OPEN => set_success_count 0 c1
    | HALF_OPEN => set_success_count 0 (set_half_open_calls 0 c1)
    end.

(** The counters of [_record_failure], before the threshold is looked at. *)
Definition count_failure (now : Z) (c : Circuit) : Circuit :=
  set_success_count 0
    (set_last_failure_time now
       (set_total_failures (total_failures c + 1)
          (set_failure_count (failure_count c + 1) c))).

(** The net effect of [_record_failure] on the circuit. *)
Definition failed (now : Z) (c : Circuit) : Circuit :=
  let c1 := count_failure now c in
  if (state_eqb (state c) CLOSED || state_eqb (state c) HALF_OPEN)
     && (failure_count c1 >=? max_failures c1)
  then let c2 := changed OPEN now c1 in set_open_count (open_count c2 + 1) c2
  else c1.

Definition count_success (now : Z) (c : Circuit) : Circuit :=
  set_failure_count 0
    (set_last_success_time now
       (set_total_successes (total_successes c + 1)
          (set_success_count (success_count c + 1) c))).

(** The net effect of [_record_success] on the circuit. *)
Definition succeeded (now : Z) (c : Circuit) : Circuit :=
  let c1 := count_success now c in
  if state_eqb (state c) HALF_OPEN && (success_count c1 >=? success_threshold c1)
  then changed CLOSED now c1
  else c1.

Definition timed_out (now : Z) (c : Circuit) : Circuit :=
  failed now (set_total_timeouts (total_timeouts c + 1) c).

Section Effects.
Context {U V : Type}.
Variable py311 : bool.
Implicit Types (w : World U) (cb : CircuitBreaker) (c : Circuit).

Lemma heap_persist cb key v w : heap (persist cb key v w) = heap w.
Proof. unfold persist. destruct (has_store cb); reflexivity. Qed.

Lemma heap_emit cb name p w : heap (emit cb name p w) = heap w.
Proof. unfold emit. destruct (has_bus cb); reflexivity. Qed.

Lemma heap_heap_update a f w :
  heap (heap_update a f w) = alter f a (heap w).
Proof. reflexivity. Qed.

Lemma alter_absent (f : Circuit -> Circuit) (l : list Circuit) a :
  l !! a = None -> alter f a l = l.
Proof.
  intros H. apply list_eq. intros i.
  destruct (decide (a = i)) as [->|Hne].
  - rewrite list_lookup_alter_eq, H. reflexivity.
  - apply list_lookup_alter_ne; assumption.
Qed.

Lemma change_state_heap cb circuit_id a new_state now w :
  circuits cb !! circuit_id = Some a ->
  heap (_change_state cb circuit_id new_state now w)
  = alter (changed new_state now) a (heap w).
Proof.
  intros Hreg. unfold _change_state. rewrite Hreg.
  destruct (heap w !! a) as [c|] eqn:Hc.
  2:{ symmetry. apply alter_absent. assumption. }
  destruct (state_eqb (state c) new_state) eqn:Hs.
  - symmetry. apply list_eq. intros i.
    destruct (decide (a = i)) as [->|Hne].
    + rewrite list_lookup_alter_eq, Hc. simpl. unfold changed. rewrite Hs.
      reflexivity.
    + apply list_lookup_alter_ne; assumption.
  - rewrite heap_emit, !heap_persist.
    destruct new_state; cbv beta iota zeta;
      rewrite !heap_heap_update, list_alter_alter_eq;
      apply list_alter_ext; try reflexivity;
      intros x Hx; rewrite Hc in Hx; injection Hx as <-;
      unfold changed; rewrite Hs; reflexivity.
Qed.

Lemma record_failure_heap cb circuit_id a error now w :
  circuits cb !! circuit_id = Some a ->
  heap (_record_failure cb circuit_id error now w)
  = alter (failed now) a (heap w).
Proof.
  intros Hreg. unfold _record_failure. rewrite Hreg.
  destruct (heap w !! a) as [c|] eqn:Hc.
  2:{ symmetry. apply alter_absent. assumption. }
  cbv zeta. rewrite heap_persist.
  rewrite heap_persist, heap_heap_update, list_lookup_alter_eq, Hc. simpl.
  destruct ((state_eqb (state c) CLOSED || state_eqb (state c) HALF_OPEN)
            && (failure_count c + 1 >=? max_failures c)) eqn:Hopen.
  - rewrite heap_heap_update, (change_state_heap _ _ a) by assumption.
    rewrite heap_persist, heap_heap_update, !list_alter_alter_eq.
    apply list_alter_ext; try reflexivity.
    intros x Hx. rewrite Hc in Hx. injection Hx as <-.
    unfold failed. simpl in Hopen |- *. rewrite Hopen. reflexivity.
  - rewrite heap_persist, heap_heap_update.
    apply list_alter_ext; try reflexivity.
    intros x Hx. rewrite Hc in Hx. injection Hx as <-.
    unfold failed. simpl in Hopen |- *. rewrite Hopen. reflexivity.
Qed.

Lemma record_timeout_heap cb circuit_id a now w :
  circuits cb !! circuit_id = Some a ->
  heap (_record_timeout cb circuit_id now w)
  = alter (timed_out now) a (heap w).
Proof.
  intros Hreg. unfold _record_timeout. rewrite Hreg.
  rewrite (record_failure_heap _ _ a) by assumption.
  rewrite heap_heap_update, list_alter_alter_eq. reflexivity.
Qed.

Lemma record_success_heap cb circuit_id a duration now w :
  circuits cb !! circuit_id = Some a ->
  heap (_record_success cb circuit_id duration now w)
  = alter (succeeded now) a (heap w).
Proof.
  intros Hreg. unfold _record_success. rewrite Hreg.
  destruct (heap w !! a) as [c|] eqn:Hc.
  2:{ symmetry. apply alter_absent. assumption. }
  cbv zeta. rewrite heap_persist.
  rewrite heap_emit, heap_persist, heap_heap_update, list_lookup_alter_eq, Hc.
  simpl.
  destruct (state_eqb (state c) HALF_OPEN
            && (success_count c + 1 >=? success_threshold c)) eqn:Hclose.
  - rewrite (change_state_heap _ _ a) by assumption.
    rewrite heap_emit, heap_persist, heap_heap_update, list_alter_alter_eq.
    apply list_alter_ext; try reflexivity.
    intros x Hx. rewrite Hc in Hx. injection Hx as <-.
    unfold succeeded. simpl in Hclose |- *. rewrite Hclose. reflexivity.
  - rewrite heap_emit, heap_persist, heap_heap_update.
    apply list_alter_ext; try reflexivity.
    intros x Hx. rewrite Hc in Hx. injection Hx as <-.
    unfold succeeded. simpl in Hclose |- *. rewrite Hclose. reflexivity.
Qed.

(** *** Registration and configuration *)

Definition configured (mf rt hc st : option Z) (c : Circuit) : Circuit :=
  set_if_given set_success_threshold st
    (set_if_given set_half_open_max_calls hc
       (set_if_given set_reset_timeout rt
          (set_if_given set_max_failures mf c))).

(** The dict [register_circuit] creates. *)
Definition fresh_circuit cb (source target : string) (mf rt hc st : option Z)
    (now : Z) : Circuit :=
  mkCircuit CLOSED 0 0 0 0 now 0 0 0 0 source target
    (py_or mf (default_max_failures cb)) (py_or rt (default_reset_timeout cb))
    (py_or hc (default_half_open_max_calls cb))
    (py_or st (default_success_threshold cb)) 0.

Lemma register_circuit_heap cb source target mf rt hc st now w :
  heap (snd (register_circuit cb source target mf rt hc st now w))
  = match circuits cb !! (source ++ ":" ++ target)%string with
    | Some a => alter (configured mf rt hc st) a (heap w)
    | None => (heap w ++ [fresh_circuit cb source target mf rt hc st now])%list
    end.
Proof.
  unfold register_circuit.
  destruct (circuits cb !! _); simpl; [reflexivity|].
  rewrite heap_persist. reflexivity.
Qed.

Lemma update_configuration_heap cb circuit_id config w :
  heap (snd (update_configuration cb circuit_id config w))
  = match circuits cb !! circuit_id with
    | Some a =>
        alter (configured (cfg_max_failures config) (cfg_reset_timeout config)
                 (cfg_half_open_max_calls config) (cfg_success_threshold config))
          a (heap w)
    | None => heap w
    end.
Proof.
  unfold update_configuration.
  destruct (circuits cb !! circuit_id); simpl; [|reflexivity].
  destruct config as [[?|] [?|] [?|] [?|]]; rewrite ?heap_persist; reflexivity.
Qed.

Lemma heap_fallback_or_raise (fallback : option (Fallback U V)) e w :
  heap (snd (fallback_or_raise fallback e w)) = heap w.
Proof.
  unfold fallback_or_raise. destruct fallback as [fb|]; [|reflexivity].
  destruct (fb (env w)). reflexivity.
Qed.

(** *** Properties of a circuit that every operation keeps *)

Record stable (P : Circuit -> Prop) : Prop := {
  stable_fresh : forall cb source target mf rt hc st now,
      P (fresh_circuit cb source target mf rt hc st now);
  stable_configured : forall mf rt hc st c, P c -> P (configured mf rt hc st c);
  stable_changed : forall s now c, P c -> P (changed s now c);
  stable_failed : forall now c, P c -> P (failed now c);
  stable_timed_out : forall now c, P c -> P (timed_out now c);
  stable_succeeded : forall now c, P c -> P (succeeded now c);
  stable_half_open_reset : forall c, P c -> P (set_half_open_calls 0 c);
  stable_half_open_count :
    forall c, P c -> P (set_half_open_calls (half_open_calls c + 1) c)
}.

Section Stable.
Variable P : Circuit -> Prop.
Hypothesis HP : stable P.

Lemma Forall_altered (f : Circuit -> Circuit) a (l : list Circuit) :
  (forall c, P c -> P (f c)) -> Forall P l -> Forall P (alter f a l).
Proof. intros Hf Hl. apply Forall_alter; [assumption|]. intros x _. apply Hf. Qed.

Lemma register_circuit_keeps cb source target mf rt hc st now w :
  Forall P (heap w) ->
  Forall P (heap (snd (register_circuit cb source target mf rt hc st now w))).
Proof.
  intros H. rewrite register_circuit_heap.
  destruct (circuits cb !! _).
  - apply Forall_altered; [|assumption]. intros c. apply (stable_configured P HP).
  - apply Forall_app. split; [assumption|].
    constructor; [apply (stable_fresh P HP) | constructor].
Qed.

Lemma change_state_keeps cb circuit_id s now w :
  Forall P (heap w) -> Forall P (heap (_change_state cb circuit_id s now w)).
Proof.
  intros H. destruct (circuits cb !! circuit_id) as [a|] eqn:Hreg.
  - rewrite (change_state_heap _ _ a) by assumption.
    apply Forall_altered; [|assumption]. intros c. apply (stable_changed P HP).
  - unfold _change_state. rewrite Hreg. assumption.
Qed.

Lemma record_failure_keeps cb circuit_id error now w :
  Forall P (heap w) ->
  Forall P (heap (_record_failure cb circuit_id error now w)).
Proof.
  intros H. destruct (circuits cb !! circuit_id) as [a|] eqn:Hreg.
  - rewrite (record_failure_heap _ _ a) by assumption.
    apply Forall_altered; [|assumption]. intros c. apply (stable_failed P HP).
  - unfold _record_failure. rewrite Hreg. assumption.
Qed.

Lemma record_timeout_keeps cb circuit_id now w :
  Forall P (heap w) -> Forall P (heap (_record_timeout cb circuit_id now w)).
Proof.
  intros H. destruct (circuits cb !! circuit_id) as [a|] eqn:Hreg.
  - rewrite (record_timeout_heap _ _ a) by assumption.
    apply Forall_altered; [|assumption]. intros c. apply (stable_timed_out P HP).
  - unfold _record_timeout. rewrite Hreg. assumption.
Qed.

Lemma record_success_keeps cb circuit_id duration now w :
  Forall P (heap w) ->
  Forall P (heap (_record_success cb circuit_id duration now w)).
Proof.
  intros H. destruct (circuits cb !! circuit_id) as [a|] eqn:Hreg.
  - rewrite (record_success_heap _ _ a) by assumption.
    apply Forall_altered; [|assumption]. intros c. apply (stable_succeeded P HP).
  - unfold _record_success. rewrite Hreg. assumption.
Qed.

Lemma execute_call_keeps cb circuit_id (fn : Fn U V) fallback duration now w :
  Forall P (heap w) ->
  Forall P (heap (snd (execute_call py311 cb circuit_id fn fallback
                         duration now w))).
Proof.
  intros H. unfold execute_call.
  destruct (fn (env w)) as [[v|e] env1].
  - simpl. apply record_success_keeps. assumption.
  - destruct (is_asyncio_timeout py311 e); rewrite heap_fallback_or_raise.
    + apply record_timeout_keeps. assumption.
    + apply record_failure_keeps. assumption.
Qed.

Lemma execute_keeps cb circuit_id (fn : Fn U V) fallback duration now w :
  Forall P (heap w) ->
  Forall P (heap (snd (execute py311 cb circuit_id fn fallback duration now w))).
Proof.
  intros H. unfold execute.
  set (reg := match circuits cb !! circuit_id with
              | Some _ => (cb, w)
              | None => _
              end).
  assert (Hreg : Forall P (heap (snd reg))).
  { subst reg. destruct (circuits cb !! circuit_id); [assumption|].
    destruct (split ":" circuit_id) as [|s1 [|s2 [|s3 l]]];
      apply register_circuit_keeps; assumption. }
  destruct reg as [cb1 w1]. simpl in Hreg.
  destruct (circuits cb1 !! circuit_id) as [a|]; [|assumption].
  destruct (heap w1 !! a) as [c|]; [|assumption].
  cbv zeta.
  assert (Hhalf : forall w2, Forall P (heap w2) ->
            Forall P (heap (snd
              (match (if state_eqb (state c) HALF_OPEN
                      then
                        match heap (heap_update a
                                 (fun c0 => set_half_open_calls
                                              (half_open_calls c0 + 1) c0) w2) !! a
                        with
                        | Some c0 =>
                            if half_open_calls c0 >? half_open_max_calls c0
                            then inl (fallback_or_raise fallback
                                        (RuntimeError
                                           ("Circuito " ++ circuit_id ++
                                            " en half-open con máximo de llamadas alcanzado"))
                                        (heap_update a
                                           (fun c1 => set_half_open_calls
                                                        (half_open_calls c1 + 1) c1) w2))
                            else inr (heap_update a
                                        (fun c1 => set_half_open_calls
                                                     (half_open_calls c1 + 1) c1) w2)
                        | None => inr (heap_update a
                                         (fun c1 => set_half_open_calls
                                                      (half_open_calls c1 + 1) c1) w2)
                        end
                      else inr w2)
               with
               | inl (r, w3) => (r, cb1, w3)
               | inr w3 =>
                   let '(r, w4) := execute_call py311 cb1 circuit_id fn fallback
                                     duration now w3 in
                   (r, cb1, w4)
               end)))).
  { intros w2 H2.
    assert (Hup : Forall P (heap (heap_update a
                    (fun c1 => set_half_open_calls (half_open_calls c1 + 1) c1) w2))).
    { rewrite heap_heap_update. apply Forall_altered; [|assumption].
      intros c1. apply (stable_half_open_count P HP). }
    assert (Hcall : forall w3, Forall P (heap w3) ->
              Forall P (heap (snd (let '(r, w4) :=
                 execute_call py311 cb1 circuit_id fn fallback duration now w3 in
                 (r, cb1, w4))))).
    { intros w3 H3. pose proof (execute_call_keeps cb1 circuit_id fn fallback
                                  duration now w3 H3) as Hk.
      destruct (execute_call py311 cb1 circuit_id fn fallback duration now w3).
      exact Hk. }
    destruct (state_eqb (state c) HALF_OPEN); [|apply Hcall; assumption].
    destruct (heap _ !! a) as [c0|]; [|apply Hcall; assumption].
    destruct (half_open_calls c0 >? half_open_max_calls c0);
      [|apply Hcall; assumption].
    pose proof (heap_fallback_or_raise fallback
                  (RuntimeError ("Circuito " ++ circuit_id ++
                     " en half-open con máximo de llamadas alcanzado"))
                  (heap_update a
                     (fun c1 => set_half_open_calls (half_open_calls c1 + 1) c1) w2))
      as Hf.
    destruct (fallback_or_raise _ _ _) as [r w3]. simpl in Hf |- *.
    rewrite Hf. assumption. }
  destruct (state_eqb (state c) OPEN); [|apply Hhalf; assumption].
  destruct (now - last_failure_time c >? reset_timeout c).
  - apply Hhalf. rewrite heap_heap_update. apply Forall_altered.
    + intros c1. apply (stable_half_open_reset P HP).
    + apply change_state_keeps. assumption.
  - pose proof (heap_fallback_or_raise fallback
                  (RuntimeError ("Circuito " ++ circuit_id ++ " abierto")) w1) as Hf.
    destruct (fallback_or_raise _ _ _) as [r w2]. simpl in Hf |- *.
    rewrite Hf. assumption.
Qed.

Lemma run_op_keeps (op : Op U V) now cb w :
  Forall P (heap w) -> Forall P (heap (snd (run_op py311 op now (cb, w)))).
Proof.
  intros H. destruct op; simpl.
  - apply register_circuit_keeps. assumption.
  - pose proof (execute_keeps cb circuit_id fn fallback duration now w H) as Hk.
    destruct (execute py311 cb circuit_id fn fallback duration now w) as [[r cb'] w'].
    exact Hk.
  - apply record_success_keeps. assumption.
  - apply record_failure_keeps. assumption.
  - apply record_timeout_keeps. assumption.
  - apply change_state_keeps. assumption.
  - unfold reset. destruct (circuits cb !! circuit_id); [|assumption].
    apply change_state_keeps. assumption.
  - rewrite update_configuration_heap.
    destruct (circuits cb !! circuit_id); [|assumption].
    apply Forall_altered; [|assumption].
    intros c. apply (stable_configured P HP).
Qed.

Lemma run_ops_keeps (ops : list (Op U V * Z)) s :
  Forall P (heap (snd s)) -> Forall P (heap (snd (run_ops py311 ops s))).
Proof.
  revert s. induction ops as [|[op now] ops IH]; intros [cb w] H; [exact H|].
  change (run_ops py311 ((op, now) :: ops) (cb, w))
    with (run_ops py311 ops (run_op py311 op now (cb, w))).
  apply IH. apply run_op_keeps. exact H.
Qed.
End Stable.

End Effects.

(** ** The two consecutive counters exclude each other *)

Definition counters_exclusive (c : Circuit) : Prop :=
  (0 < failure_count c -> success_count c = 0)
  /\ (0 < success_count c -> failure_count c = 0).

Ltac circuit_cases :=
  repeat (first
    [ match goal with
      | |- context [if ?b then _ else _] => destruct b eqn:?
      end
    | match goal with
      | |- context [match ?s with CLOSED => _ | OPEN => _ | HALF_OPEN => _ end] =>
          is_var s; destruct s
      end ];
    cbv beta iota).

Lemma counters_exclusive_stable : stable counters_exclusive.
Proof.
  split; unfold counters_exclusive.
  - intros. simpl. lia.
  - intros [?|] [?|] [?|] [?|] c H; exact H.
  - intros s now c H. unfold changed. circuit_cases; simpl; lia.
  - intros now c _. unfold failed, changed, count_failure.
    circuit_cases; simpl; lia.
  - intros now c _. unfold timed_out, failed, changed, count_failure.
    circuit_cases; simpl; lia.
  - intros now c _. unfold succeeded, changed, count_success.
    circuit_cases; simpl; lia.
  - intros c H. simpl. exact H.
  - intros c H. simpl. exact H.
Qed.

(** C3.  Start from a breaker whose circuits are all of its own making (no
    circuit dict exists yet) and run any operations on it: registrations,
    executions with any awaited call and fallback, recorded successes,
    failures and timeouts, state changes, resets and configuration updates,
    at any clock readings.  Afterwards every circuit has
    [failure_count > 0] only with [success_count = 0], and
    [success_count > 0] only with [failure_count = 0]. *)
Theorem counters_exclusive_after_operations {U V : Type} (py311 : bool)
    (ops : list (Op U V * Z)) (cb : CircuitBreaker) (e : Env U) :
  Forall counters_exclusive (heap (snd (run_ops py311 ops (cb, mkWorld [] e)))).
Proof.
  apply run_ops_keeps.
  - exact counters_exclusive_stable.
  - constructor.
Qed.

(** The same as one step: an operation keeps the exclusion. *)
Lemma counters_exclusive_kept {U V : Type} (py311 : bool) (op : Op U V) (now : Z)
    (cb : CircuitBreaker) (w : World U) :
  Forall counters_exclusive (heap w) ->
  Forall counters_exclusive (heap (snd (run_op py311 op now (cb, w)))).
Proof. apply run_op_keeps. exact counters_exclusive_stable. Qed.

(** ** Opening after [max_failures] failures *)

(** A recorded failure or a recorded timeout of circuit [circuit_id]. *)
Definition records_failure_on {U V : Type} (circuit_id : string) (op : Op U V)
    : Prop :=
  match op with
  | OpRecordFailure i _ => i = circuit_id
  | OpRecordTimeout i => i = circuit_id
  | _ => False
  end.

(** Where circuit [c] stands after [k] failures in a row that began at the
    closed circuit [c0]. *)
Definition after_failures (c0 : Circuit) (k : Z) (c : Circuit) : Prop :=
  failure_count c = failure_count c0 + k
  /\ max_failures c = max_failures c0
  /\ ((state c = CLOSED /\ open_count c = open_count c0
       /\ (k = 0 \/ failure_count c0 + k < max_failures c0))
      \/ (state c = OPEN /\ open_count c = open_count c0 + 1 /\ 1 <= k
          /\ max_failures c0 <= failure_count c0 + k)).

Lemma after_failures_failed c0 k c now :
  0 <= k -> after_failures c0 k c -> after_failures c0 (k + 1) (failed now c).
Proof.
  unfold after_failures, failed, changed, count_failure.
  intros Hk (Hf & Hm & [(Hs & Ho & Hlt) | (Hs & Ho & H1 & Hmax)]);
    simpl; rewrite !Hs; simpl.
  - rewrite Z.geb_leb.
    destruct (Z.leb_spec (max_failures c) (failure_count c + 1)) as [Hge|Hge]; simpl.
    + split; [lia|]. split; [lia|]. right.
      split; [reflexivity|]. split; [lia|]. split; lia.
    + split; [lia|]. split; [lia|]. left.
      split; [assumption|]. split; [assumption|]. right. lia.
  - split; [lia|]. split; [lia|]. right.
    split; [assumption|]. split; [lia|]. split; lia.
Qed.

Lemma after_failures_timed_out c0 k c now :
  0 <= k -> after_failures c0 k c -> after_failures c0 (k + 1) (timed_out now c).
Proof.
  intros Hk H. unfold timed_out. apply after_failures_failed; [assumption|].
  exact H.
Qed.

Section Failures.
Context {U V : Type}.
Variable py311 : bool.

Lemma failures_in_a_row (cb : CircuitBreaker) (circuit_id : string) (a : nat)
    (c0 : Circuit) (ops : list (Op U V * Z)) :
  circuits cb !! circuit_id = Some a ->
  forall (w : World U) (c : Circuit) (k : Z),
    Forall (fun x => records_failure_on circuit_id (fst x)) ops ->
    heap w !! a = Some c ->
    0 <= k ->
    after_failures c0 k c ->
    exists c',
      heap (snd (run_ops py311 ops (cb, w))) !! a = Some c'
      /\ after_failures c0 (k + Z.of_nat (length ops)) c'.
Proof.
  intros Hreg. induction ops as [|[op now] ops IH]; intros w c k Hops Hc Hk Hinv.
  - exists c. split; [exact Hc|]. simpl. rewrite Z.add_0_r. exact Hinv.
  - inversion Hops as [|x l Hop Hrest]; subst.
    change (run_ops py311 ((op, now) :: ops) (cb, w))
      with (run_ops py311 ops (run_op py311 op now (cb, w))).
    replace (k + Z.of_nat (length ((op, now) :: ops)))
      with ((k + 1) + Z.of_nat (length ops)) by (simpl length; lia).
    destruct op; simpl in Hop; try contradiction; subst; simpl run_op.
    + apply (IH _ (failed now c)); try assumption; try lia.
      * rewrite (record_failure_heap _ _ a) by assumption.
        rewrite list_lookup_alter_eq, Hc. reflexivity.
      * apply after_failures_failed; assumption.
    + apply (IH _ (timed_out now c)); try assumption; try lia.
      * rewrite (record_timeout_heap _ _ a) by assumption.
        rewrite list_lookup_alter_eq, Hc. reflexivity.
      * apply after_failures_timed_out; assumption.
Qed.

(** C1.  Take a circuit that is CLOSED, with a failure count that is not
    negative and a threshold [max_failures] of at least one, and record
    exactly [max_failures] failures or timeouts on it in a row, at any
    clock readings and with nothing recorded in between.  Then the
    circuit is OPEN and its [open_count] is one more than before. *)
Theorem closed_circuit_opens_after_max_failures
    (cb : CircuitBreaker) (w : World U) (circuit_id : string) (a : nat)
    (c : Circuit) (ops : list (Op U V * Z)) :
  circuits cb !! circuit_id = Some a ->
  heap w !! a = Some c ->
  state c = CLOSED ->
  0 <= failure_count c ->
  1 <= max_failures c ->
  Forall (fun x => records_failure_on circuit_id (fst x)) ops ->
  Z.of_nat (length ops) = max_failures c ->
  exists c',
    heap (snd (run_ops py311 ops (cb, w))) !! a = Some c'
    /\ state c' = OPEN
    /\ open_count c' = open_count c + 1.
Proof.
  intros Hreg Hc Hs Hf Hm Hops Hlen.
  destruct (failures_in_a_row cb circuit_id a c ops Hreg w c 0 Hops Hc
              ltac:(lia)) as (c' & Hc' & Hinv).
  { unfold after_failures. repeat split; try lia. left. repeat split; auto. }
  exists c'. split; [exact Hc'|].
  destruct Hinv as (_ & _ & [(_ & _ & Hlt) | (Hs' & Ho' & _)]).
  - lia.
  - split; assumption.
Qed.

(** Below the threshold nothing opens: a CLOSED circuit with no failures
    counted is still CLOSED after fewer than [max_failures] failures in a
    row, with its [open_count] as it was. *)
Lemma closed_circuit_stays_closed_below_max_failures
    (cb : CircuitBreaker) (w : World U) (circuit_id : string) (a : nat)
    (c : Circuit) (ops : list (Op U V * Z)) :
  circuits cb !! circuit_id = Some a ->
  heap w !! a = Some c ->
  state c = CLOSED ->
  failure_count c = 0 ->
  Forall (fun x => records_failure_on circuit_id (fst x)) ops ->
  Z.of_nat (length ops) < max_failures c ->
  exists c',
    heap (snd (run_ops py311 ops (cb, w))) !! a = Some c'
    /\ state c' = CLOSED
    /\ failure_count c' = Z.of_nat (length ops)
    /\ open_count c' = open_count c.
Proof.
  intros Hreg Hc Hs Hf Hops Hlen.
  destruct (failures_in_a_row cb circuit_id a c ops Hreg w c 0 Hops Hc
              ltac:(lia)) as (c' & Hc' & Hinv).
  { unfold after_failures. repeat split; try lia. left. repeat split; auto. }
  exists c'. split; [exact Hc'|].
  destruct Hinv as (Hfc & _ & [(Hs' & Ho' & _) | (_ & _ & _ & Hmax)]).
  - repeat split; [assumption | lia | assumption].
  - lia.
Qed.

End Failures.

(** ** A concrete breaker: one circuit "a:b" with the default thresholds *)

Module Example.
Definition env0 : Env unit := mkEnv [] [] tt.
Definition w0 : World unit := mkWorld [] env0.
Definition cb0 : CircuitBreaker := default_breaker true true w0.

(** [register_circuit("a", "b")] at time 0 *)
Definition registered : CircuitBreaker * World unit :=
  register_circuit cb0 "a" "b" None None None None 0 w0.
Definition cb1 : CircuitBreaker := fst registered.
Definition w1 : World unit := snd registered.

(** The awaited call returns 7; another raises. *)
Definition returns7 : Fn unit Z := fun e => (Returned 7, e).
Definition raises : Fn unit Z := fun e => (Raised (OtherError "boom"), e).

(** Three failures at times 10, 11 and 12: a failure, a timeout, a failure. *)
Definition three_failures : list (Op unit Z * Z) :=
  [(OpRecordFailure "a:b" "boom", 10); (OpRecordTimeout "a:b", 11);
   (OpRecordFailure "a:b" "boom", 12)].

Definition opened : CircuitBreaker * World unit :=
  run_ops true three_failures (cb1, w1).
Definition w_open : World unit := snd opened.
End Example.

Lemma closed_circuit_opens_after_max_failures_witness :
  exists c',
    heap (snd (run_ops true Example.three_failures (Example.cb1, Example.w1))) !! 0%nat
    = Some c'
    /\ state c' = OPEN
    /\ open_count c' = 0 + 1.
Proof.
  apply (closed_circuit_opens_after_max_failures true Example.cb1 Example.w1
           "a:b" 0%nat
           (fresh_circuit Example.cb0 "a" "b" None None None None 0)
           Example.three_failures).
  - vm_compute. reflexivity.
  - reflexivity.
  - reflexivity.
  - simpl. lia.
  - simpl. lia.
  - repeat constructor.
  - reflexivity.
Defined.

(** ** Admission of a call by [execute] *)

Section Admission.
Context {U V : Type}.
Variable py311 : bool.

(** The exceptions of the two fast failures. *)
Definition circuit_open (circuit_id : string) : Exc :=
  RuntimeError ("Circuito " ++ circuit_id ++ " abierto").
Definition half_open_exhausted (circuit_id : string) : Exc :=
  RuntimeError ("Circuito " ++ circuit_id ++
                " en half-open con máximo de llamadas alcanzado").

(** A result of the breaker's inner steps, with the breaker put back. *)
Definition with_breaker (cb : CircuitBreaker) (r : Outcome V * World U)
    : Outcome V * CircuitBreaker * World U :=
  (fst r, cb, snd r).

Definition count_half_open_call (c : Circuit) : Circuit :=
  set_half_open_calls (half_open_calls c + 1) c.

Lemma execute_registered cb circuit_id a c (fn : Fn U V) fallback duration now
    (w : World U) :
  circuits cb !! circuit_id = Some a ->
  heap w !! a = Some c ->
  execute py311 cb circuit_id fn fallback duration now w
  = match state c with
    | OPEN =>
        if now - last_failure_time c >? reset_timeout c then
          with_breaker cb
            (execute_call py311 cb circuit_id fn fallback duration now
               (heap_update a (set_half_open_calls 0)
                  (_change_state cb circuit_id HALF_OPEN now w)))
        else
          with_breaker cb (fallback_or_raise fallback (circuit_open circuit_id) w)
    | HALF_OPEN =>
        if half_open_calls c + 1 >? half_open_max_calls c then
          with_breaker cb
            (fallback_or_raise fallback (half_open_exhausted circuit_id)
               (heap_update a count_half_open_call w))
        else
          with_breaker cb
            (execute_call py311 cb circuit_id fn fallback duration now
               (heap_update a count_half_open_call w))
    | CLOSED =>
        with_breaker cb
          (execute_call py311 cb circuit_id fn fallback duration now w)
    end.
Proof.
  intros Hreg Hc. unfold execute. rewrite Hreg, Hreg, Hc. cbv zeta.
  unfold with_breaker, circuit_open, half_open_exhausted.
  destruct (state c) eqn:Hs; simpl state_eqb; cbv iota.
  - destruct (execute_call _ _ _ _ _ _ _ _); reflexivity.
  - destruct (now - last_failure_time c >? reset_timeout c).
    + destruct (execute_call _ _ _ _ _ _ _ _); reflexivity.
    + destruct (fallback_or_raise _ _ _); reflexivity.
  - rewrite heap_heap_update, list_lookup_alter_eq, Hc. simpl.
    fold (count_half_open_call).
    destruct (half_open_calls c + 1 >? half_open_max_calls c).
    + destruct (fallback_or_raise _ _ _); reflexivity.
    + destruct (execute_call _ _ _ _ _ _ _ _); reflexivity.
Qed.

(** C2, as the code has it.  For a registered circuit:
    - OPEN and the reset timeout not elapsed since the last failure: the
      result is the fallback's when there is one and the circuit-open
      error when there is none; the awaited call takes no part in it;
    - already HALF_OPEN: [half_open_calls] is incremented; when it then
      exceeds [half_open_max_calls] the result is the fallback's or the
      error, again without the awaited call; otherwise the call runs;
    - OPEN and the reset timeout elapsed: the circuit becomes HALF_OPEN
      with [half_open_calls] set to 0 and the call runs; this call is
      not counted. *)
Theorem execute_admission cb circuit_id a c (fn : Fn U V) fallback duration now
    (w : World U) :
  circuits cb !! circuit_id = Some a ->
  heap w !! a = Some c ->
  (state c = OPEN -> now - last_failure_time c <= reset_timeout c ->
   execute py311 cb circuit_id fn fallback duration now w
   = with_breaker cb (fallback_or_raise fallback (circuit_open circuit_id) w))
  /\ (state c = HALF_OPEN ->
      let w1 := heap_update a count_half_open_call w in
      heap w1 !! a = Some (count_half_open_call c)
      /\ (half_open_calls c + 1 > half_open_max_calls c ->
          execute py311 cb circuit_id fn fallback duration now w
          = with_breaker cb
              (fallback_or_raise fallback (half_open_exhausted circuit_id) w1))
      /\ (half_open_calls c + 1 <= half_open_max_calls c ->
          execute py311 cb circuit_id fn fallback duration now w
          = with_breaker cb
              (execute_call py311 cb circuit_id fn fallback duration now w1)))
  /\ (state c = OPEN -> now - last_failure_time c > reset_timeout c ->
      let w1 := heap_update a (set_half_open_calls 0)
                  (_change_state cb circuit_id HALF_OPEN now w) in
      (exists c1, heap w1 !! a = Some c1
                  /\ state c1 = HALF_OPEN /\ half_open_calls c1 = 0)
      /\ execute py311 cb circuit_id fn fallback duration now w
         = with_breaker cb
             (execute_call py311 cb circuit_id fn fallback duration now w1)).
Proof.
  intros Hreg Hc.
  pose proof (execute_registered cb circuit_id a c fn fallback duration now w
                Hreg Hc) as E.
  repeat split.
  - intros Hs Hle. rewrite E, Hs.
    destruct (Z.gtb_spec (now - last_failure_time c) (reset_timeout c)); [lia|].
    reflexivity.
  - rewrite heap_heap_update, list_lookup_alter_eq, Hc. reflexivity.
  - intros Hgt. rewrite E, H.
    destruct (Z.gtb_spec (half_open_calls c + 1) (half_open_max_calls c)); [|lia].
    reflexivity.
  - intros Hle. rewrite E, H.
    destruct (Z.gtb_spec (half_open_calls c + 1) (half_open_max_calls c)); [lia|].
    reflexivity.
  - exists (set_half_open_calls 0 (changed HALF_OPEN now c)).
    rewrite heap_heap_update, (change_state_heap _ _ a) by assumption.
    rewrite list_alter_alter_eq, list_lookup_alter_eq, Hc.
    split; [reflexivity|]. unfold changed. rewrite H. simpl. split; reflexivity.
  - rewrite E, H.
    destruct (Z.gtb_spec (now - last_failure_time c) (reset_timeout c)); [|lia].
    reflexivity.
Qed.

(** ** An unregistered id without a colon *)

(** C10.  For a circuit id that holds no [:] and is not registered,
    [execute] registers a circuit under ["default:" ++ circuit_id], finds
    none under [circuit_id] and raises [KeyError]: the result is made of
    the registration alone, so neither the awaited call nor the fallback
    runs, and no circuit that existed is changed. *)
Theorem execute_plain_id_raises_key_error cb circuit_id (fn : Fn U V) fallback
    duration now (w : World U) :
  contains ":" circuit_id = false ->
  circuits cb !! circuit_id = None ->
  let r := register_circuit cb "default" circuit_id None None None None now w in
  execute py311 cb circuit_id fn fallback duration now w
  = (Raised (KeyError circuit_id), fst r, snd r)
  /\ is_Some (circuits (fst r) !! ("default:" ++ circuit_id)%string)
  /\ circuits (fst r) !! circuit_id = None
  /\ (forall a c, heap w !! a = Some c -> heap (snd r) !! a = Some c)
  /\ events (env (snd r)) = events (env w)
  /\ user (env (snd r)) = user (env w).
Proof.
  intros Hplain Hnone r.
  assert (Hne : ("default:" ++ circuit_id)%string <> circuit_id)
    by (apply prefixed_differs; discriminate).
  assert (Hr : circuits (fst r) !! circuit_id = None).
  { subst r. unfold register_circuit.
    change ("default" ++ ":" ++ circuit_id)%string
      with ("default:" ++ circuit_id)%string.
    destruct (circuits cb !! ("default:" ++ circuit_id)%string); simpl.
    - exact Hnone.
    - rewrite lookup_insert_ne by exact Hne. exact Hnone. }
  split; [|split; [|split; [exact Hr|split; [|split]]]].
  - unfold execute. rewrite Hnone, (split_without_sep _ _ Hplain).
    fold r. destruct r as [cb1 w1] eqn:Er. simpl in Hr. rewrite Hr. reflexivity.
  - subst r. unfold register_circuit.
    change ("default" ++ ":" ++ circuit_id)%string
      with ("default:" ++ circuit_id)%string.
    destruct (circuits cb !! ("default:" ++ circuit_id)%string) eqn:E; simpl.
    + rewrite E. eexists; reflexivity.
    + rewrite lookup_insert_eq. eexists; reflexivity.
  - intros a c Ha. subst r. rewrite register_circuit_heap.
    destruct (circuits cb !! ("default" ++ ":" ++ circuit_id)%string) as [b|].
    + destruct (decide (b = a)) as [->|Hb].
      * rewrite list_lookup_alter_eq, Ha. reflexivity.
      * rewrite list_lookup_alter_ne by assumption. exact Ha.
    + apply lookup_app_l_Some. exact Ha.
  - subst r. unfold register_circuit.
    destruct (circuits cb !! ("default" ++ ":" ++ circuit_id)%string);
      simpl; [reflexivity|].
    unfold persist. destruct (has_store cb); reflexivity.
  - subst r. unfold register_circuit.
    destruct (circuits cb !! ("default" ++ ":" ++ circuit_id)%string);
      simpl; [reflexivity|].
    unfold persist. destruct (has_store cb); reflexivity.
Qed.
End Admission.

(** ** What the breaker's own steps leave alone in the environment *)

Section Frame.
Context {U V : Type}.
Variable py311 : bool.

(** From [e] to [e']: the caller's state is the same, the store differs
    only under keys that begin with [circuit.], and events were only
    appended. *)
Definition env_extends (e e' : Env U) : Prop :=
  user e' = user e
  /\ (forall k, startswith k "circuit." = false ->
                store_get k (store e') = store_get k (store e))
  /\ exists evs, events e' = (events e ++ evs)%list.

Lemma env_extends_refl (e : Env U) : env_extends e e.
Proof.
  split; [reflexivity|]. split; [reflexivity|].
  exists []. rewrite app_nil_r. reflexivity.
Qed.

Lemma env_extends_trans (e1 e2 e3 : Env U) :
  env_extends e1 e2 -> env_extends e2 e3 -> env_extends e1 e3.
Proof.
  intros (Hu1 & Hs1 & evs1 & He1) (Hu2 & Hs2 & evs2 & He2).
  split; [congruence|]. split.
  - intros k Hk. rewrite (Hs2 k Hk). apply Hs1. exact Hk.
  - exists (evs1 ++ evs2)%list. rewrite He2, He1, app_assoc. reflexivity.
Qed.

Lemma dict_get_set_other {A} (k k' : string) (v : A) (d : list (string * A)) :
  k <> k' -> dict_get k' (dict_set k v d) = dict_get k' d.
Proof.
  intros Hne. induction d as [|[k0 v0] d IH]; simpl.
  - destruct (String.eqb_spec k k'); [contradiction | reflexivity].
  - destruct (String.eqb_spec k0 k) as [->|Hk]; simpl.
    + destruct (String.eqb_spec k k'); [contradiction | reflexivity].
    + destruct (String.eqb k0 k'); [reflexivity | exact IH].
Qed.

Lemma dict_get_set_same {A} (k : string) (v : A) (d : list (string * A)) :
  dict_get k (dict_set k v d) = Some v.
Proof.
  induction d as [|[k' v'] d IH]; simpl.
  - rewrite String.eqb_refl. reflexivity.
  - destruct (String.eqb k' k) eqn:E; simpl; rewrite E; [reflexivity | exact IH].
Qed.

Lemma persist_extends cb (key : string) v (w : World U) :
  startswith key "circuit." = true ->
  env_extends (env w) (env (persist cb key v w)).
Proof.
  intros Hkey. unfold persist. destruct (has_store cb); [|apply env_extends_refl].
  split; [reflexivity|]. split.
  - intros k Hk. simpl. unfold store_set, store_get.
    apply dict_get_set_other. intros ->. congruence.
  - exists []. simpl. rewrite app_nil_r. reflexivity.
Qed.

Lemma emit_extends cb name p (w : World U) :
  env_extends (env w) (env (emit cb name p w)).
Proof.
  unfold emit. destruct (has_bus cb); [|apply env_extends_refl].
  split; [reflexivity|]. split; [reflexivity|].
  exists [(name, p)]. reflexivity.
Qed.

Lemma circuit_key_prefix (rest : string) :
  startswith ("circuit." ++ rest) "circuit." = true.
Proof. destruct rest; reflexivity. Qed.

Lemma change_state_extends cb circuit_id s now (w : World U) :
  env_extends (env w) (env (_change_state cb circuit_id s now w)).
Proof.
  unfold _change_state.
  destruct (circuits cb !! circuit_id) as [a|]; [|apply env_extends_refl].
  destruct (heap w !! a) as [c|]; [|apply env_extends_refl].
  destruct (state_eqb (state c) s); [apply env_extends_refl|].
  cbv zeta.
  apply (env_extends_trans _ _ _ (env_extends_refl (env w))).
  eapply env_extends_trans; [|apply emit_extends].
  eapply env_extends_trans; [|apply persist_extends; apply circuit_key_prefix].
  eapply env_extends_trans; [|apply persist_extends; apply circuit_key_prefix].
  destruct s; apply env_extends_refl.
Qed.

(** One step back through a world built by the breaker. *)
Ltac extends_step :=
  match goal with
  | |- env_extends ?e ?e => apply env_extends_refl
  | |- env_extends _ (env (persist ?cb ?k ?v ?w)) =>
      apply (env_extends_trans _ (env w));
      [| apply persist_extends; apply circuit_key_prefix]
  | |- env_extends _ (env (emit ?cb ?n ?p ?w)) =>
      apply (env_extends_trans _ (env w)); [| apply emit_extends]
  | |- env_extends _ (env (heap_update ?a ?f ?w)) =>
      change (env (heap_update a f w)) with (env w)
  | |- env_extends _ (env (_change_state ?cb ?i ?s ?n ?w)) =>
      apply (env_extends_trans _ (env w)); [| apply change_state_extends]
  | |- env_extends _ (env (if ?b then _ else _)) => destruct b
  | |- env_extends _ (env (match ?x with Some _ => _ | None => _ end)) =>
      destruct x
  end.

Lemma record_failure_extends cb circuit_id error now (w : World U) :
  env_extends (env w) (env (_record_failure cb circuit_id error now w)).
Proof.
  unfold _record_failure.
  destruct (circuits cb !! circuit_id) as [a|]; [|apply env_extends_refl].
  destruct (heap w !! a) as [c|]; [|apply env_extends_refl].
  cbv zeta. repeat extends_step.
Qed.

Lemma record_timeout_extends cb circuit_id now (w : World U) :
  env_extends (env w) (env (_record_timeout cb circuit_id now w)).
Proof.
  unfold _record_timeout.
  destruct (circuits cb !! circuit_id) as [a|]; [|apply env_extends_refl].
  apply (record_failure_extends cb circuit_id "Timeout" now
           (heap_update a (fun c => set_total_timeouts (total_timeouts c + 1) c) w)).
Qed.

Lemma record_success_extends cb circuit_id duration now (w : World U) :
  env_extends (env w) (env (_record_success cb circuit_id duration now w)).
Proof.
  unfold _record_success.
  destruct (circuits cb !! circuit_id) as [a|]; [|apply env_extends_refl].
  destruct (heap w !! a) as [c|]; [|apply env_extends_refl].
  cbv zeta. repeat extends_step.
Qed.

(** Whether [execute] lets the call through, from the circuit it finds. *)
Definition admitted (c : Circuit) (now : Z) : bool :=
  match state c with
  | CLOSED => true
  | OPEN => now - last_failure_time c >? reset_timeout c
  | HALF_OPEN => negb (half_open_calls c + 1 >? half_open_max_calls c)
  end.

Lemma execute_when_admitted cb circuit_id a c (fn : Fn U V) fallback duration now
    (w : World U) :
  circuits cb !! circuit_id = Some a ->
  heap w !! a = Some c ->
  admitted c now = true ->
  exists w',
    env_extends (env w) (env w')
    /\ execute py311 cb circuit_id fn fallback duration now w
       = with_breaker cb
           (execute_call py311 cb circuit_id fn fallback duration now w').
Proof.
  intros Hreg Hc Hadm.
  rewrite (execute_registered py311 cb circuit_id a c fn fallback duration now w
             Hreg Hc).
  unfold admitted in Hadm.
  destruct (state c).
  - exists w. split; [apply env_extends_refl | reflexivity].
  - rewrite Hadm. eexists. split; [|reflexivity].
    apply (change_state_extends cb circuit_id HALF_OPEN now w).
  - destruct (half_open_calls c + 1 >? half_open_max_calls c); [discriminate|].
    eexists. split; [|reflexivity]. apply env_extends_refl.
Qed.


End Frame.

(** The circuit "a:b" of [Example] after its three failures. *)
Definition example_open_circuit : Circuit :=
  failed 12 (timed_out 11
    (failed 10 (fresh_circuit Example.cb0 "a" "b" None None None None 0))).

Lemma example_open_circuit_lookup :
  heap Example.w_open !! 0%nat = Some example_open_circuit.
Proof. vm_compute. reflexivity. Qed.

Lemma execute_admission_witness :
  execute true Example.cb1 "a:b" Example.returns7 None 0 20 Example.w_open
  = with_breaker Example.cb1
      (fallback_or_raise None (circuit_open "a:b") Example.w_open).
Proof.
  apply (proj1 (execute_admission true Example.cb1 "a:b" 0%nat example_open_circuit
                  Example.returns7 None 0 20 Example.w_open
                  ltac:(vm_compute; reflexivity) example_open_circuit_lookup)).
  - reflexivity.
  - vm_compute. discriminate.
Defined.

(** The call that finds "a:b" OPEN 88 seconds after its last failure. *)
Definition example_probe : Outcome Z * CircuitBreaker * World unit :=
  execute true Example.cb1 "a:b" Example.returns7 None 0 100 Example.w_open.

(** The same with [half_open_max_calls] configured to 0 beforehand. *)
Definition example_probe_no_quota : Outcome Z * CircuitBreaker * World unit :=
  execute true Example.cb1 "a:b" Example.returns7 None 0 100
    (snd (update_configuration Example.cb1 "a:b"
            (mkConfig None None (Some 0) None) Example.w_open)).

(** C2 as stated fails: the call that moves the circuit from OPEN to
    HALF_OPEN is not counted.  Before it the circuit is OPEN with
    [half_open_calls = 0]; the call runs the awaited function (it returns
    7) and leaves the circuit HALF_OPEN with [half_open_calls] still 0.
    Even with [half_open_max_calls = 0], which one counted call would
    exceed, the awaited function runs and its value is returned. *)
Lemma transition_call_is_not_counted :
  (state <$> heap Example.w_open !! 0%nat) = Some OPEN
  /\ (half_open_calls <$> heap Example.w_open !! 0%nat) = Some 0
  /\ fst (fst example_probe) = Returned 7
  /\ (state <$> heap (snd example_probe) !! 0%nat) = Some HALF_OPEN
  /\ (half_open_calls <$> heap (snd example_probe) !! 0%nat) = Some 0
  /\ fst (fst example_probe_no_quota) = Returned 7
  /\ (half_open_max_calls <$> heap (snd example_probe_no_quota) !! 0%nat) = Some 0.
Proof. vm_compute. repeat split. Qed.

Lemma execute_plain_id_raises_key_error_witness :
  execute true Example.cb1 "orders" Example.returns7 None 0 5 Example.w1
  = (Raised (KeyError "orders"),
     fst (register_circuit Example.cb1 "default" "orders" None None None None 5
            Example.w1),
     snd (register_circuit Example.cb1 "default" "orders" None None None None 5
            Example.w1)).
Proof.
  apply (proj1 (execute_plain_id_raises_key_error true Example.cb1 "orders"
                  Example.returns7 None 0 5 Example.w1
                  ltac:(reflexivity) ltac:(vm_compute; reflexivity))).
Defined.

(** ** Reloading circuits from the store *)

(** A pattern without wildcard matches itself only. *)
Lemma fnmatch_literal (pat : string) :
  contains "*" pat = false -> contains "?" pat = false ->
  forall name, fnmatch_pat pat name = String.eqb name pat.
Proof.
  induction pat as [|p pat IH]; intros Hstar Hq name.
  - reflexivity.
  - simpl in Hstar, Hq.
    destruct (Ascii.eqb p "*") eqn:E1; [discriminate|].
    destruct (Ascii.eqb p "?") eqn:E2; [discriminate|].
    simpl. rewrite E1, E2.
    destruct name as [|c name]; [reflexivity|].
    simpl. rewrite (IH Hstar Hq). reflexivity.
Qed.

Lemma fnmatch_star_unfold (pat name : string) :
  fnmatch_pat (String "*" pat) name
  = if fnmatch_pat pat name then true
    else match name with
         | EmptyString => false
         | String _ name' => fnmatch_pat (String "*" pat) name'
         end.
Proof. destruct name; reflexivity. Qed.

(** A star followed by a literal asks for that literal at the end. *)
Lemma fnmatch_star_literal (pat : string) :
  contains "*" pat = false -> contains "?" pat = false ->
  forall name, fnmatch_pat (String "*" pat) name = endswith name pat.
Proof.
  intros Hstar Hq. induction name as [|c name IH].
  - rewrite fnmatch_star_unfold, (fnmatch_literal pat Hstar Hq). simpl.
    destruct (String.eqb EmptyString pat); reflexivity.
  - rewrite fnmatch_star_unfold, (fnmatch_literal pat Hstar Hq), IH.
    reflexivity.
Qed.

(** What the glob of [_load_circuits] asks of a circuit's key. *)
Lemma circuit_key_matches_loader_glob (circuit_id : string) :
  fnmatch ("circuit." ++ circuit_id) "circuit.*.state" = endswith circuit_id ".state".
Proof.
  unfold fnmatch.
  change (fnmatch_pat "circuit.*.state" ("circuit." ++ circuit_id))
    with (fnmatch_pat "*.state" circuit_id).
  apply fnmatch_star_literal; reflexivity.
Qed.

(** C6 on the code.  The circuit "a:b" was registered with a store, failed
    three times and opened, so the store holds it under [circuit.a:b]
    together with its error and state-change records; none of these keys
    matches [circuit.*.state], and a breaker constructed over this store
    loads no circuit. *)
Lemma persisted_circuit_is_not_reloaded :
  store_get "circuit.a:b" (store (env Example.w_open)) = Some (VCircuit 0)
  /\ dict_keys (store (env Example.w_open))
     = ["circuit.a:b"; "circuit.a:b.error.10"; "circuit.a:b.error.11";
        "circuit.a:b.error.12"; "circuit.a:b.state_change.12"]
  /\ store_keys (Some "circuit.*.state") (store (env Example.w_open)) = []
  /\ circuits (default_breaker true true Example.w_open) = ∅.
Proof. vm_compute. repeat split. Qed.

End BreakerFacts.

(* ===================================================================== *)
(** * Properties of the event bus                                         *)
(* ===================================================================== *)

Module BusFacts.
Import Py Bus.

Section DictFacts.
Context {A : Type}.

Lemma dict_get_set_eq (k : string) (v : A) (d : list (string * A)) :
  dict_get k (dict_set k v d) = Some v.
Proof.
  induction d as [|[k' v'] d IH]; simpl.
  - rewrite String.eqb_refl. reflexivity.
  - destruct (String.eqb k' k) eqn:E; simpl; rewrite E; [reflexivity | exact IH].
Qed.

Lemma dict_get_set_ne (k k' : string) (v : A) (d : list (string * A)) :
  k <> k' -> dict_get k' (dict_set k v d) = dict_get k' d.
Proof.
  intros Hne. induction d as [|[k0 v0] d IH]; simpl.
  - destruct (String.eqb_spec k k'); [contradiction | reflexivity].
  - destruct (String.eqb_spec k0 k) as [->|Hk]; simpl.
    + destruct (String.eqb_spec k k'); [contradiction | reflexivity].
    + destruct (String.eqb k0 k'); [reflexivity | exact IH].
Qed.
End DictFacts.

Lemma set_add_in (x : string) (s : list string) : In x (set_add x s).
Proof.
  unfold set_add. destruct (existsb (String.eqb x) s) eqn:E.
  - apply existsb_exists in E. destruct E as (y & Hy & Hxy).
    apply String.eqb_eq in Hxy. subst y. exact Hy.
  - apply in_or_app. right. left. reflexivity.
Qed.

Section Delivery.
Context {P : Type}.

Lemma delivery_id_deliver loop_running (event_name : string) (payload : P)
    (s : Subscription) (d : Delivery P) :
  deliver loop_running event_name payload s = Some d -> delivery_id d = fst s.
Proof.
  destruct s as [sid cb]. unfold deliver.
  destruct (is_coroutine cb); [destruct loop_running|]; intros H;
    try discriminate H; injection H as <-; reflexivity.
Qed.

Lemma in_deliveries loop_running (event_name : string) (payload : P)
    (subscribers : list Subscription) (d : Delivery P) :
  In d (deliveries loop_running event_name payload subscribers)
  <-> exists s, In s subscribers
                /\ deliver loop_running event_name payload s = Some d.
Proof.
  unfold deliveries. rewrite in_flat_map. split.
  - intros (s & Hs & Hd). exists s. split; [exact Hs|].
    destruct (deliver loop_running event_name payload s) as [d'|];
      [|destruct Hd].
    destruct Hd as [->|[]]. reflexivity.
  - intros (s & Hs & Hd). exists s. split; [exact Hs|]. rewrite Hd. left.
    reflexivity.
Qed.

(** An emission invokes none but the subscriptions that
    [_get_subscribers_for_event] returns. *)
Lemma invoked_subscriber (b : EventBus) (event_name : string) (payload : P)
    loop_running (sid : string) :
  invoked sid (emit b event_name payload loop_running) ->
  In sid (map fst (_get_subscribers_for_event b event_name)).
Proof.
  unfold invoked, emit. simpl. intros H.
  apply in_map_iff in H. destruct H as (d & Hid & Hd).
  apply in_deliveries in Hd. destruct Hd as (s & Hs & Hd).
  apply delivery_id_deliver in Hd. apply in_map_iff. exists s.
  split; [congruence | exact Hs].
Qed.

(** Without a running event loop no coroutine function is run. *)
Lemma coroutine_needs_loop (b : EventBus) (event_name : string) (payload : P)
    (d : Delivery P) :
  In d (snd (fst (emit b event_name payload false))) ->
  exists sid callback name,
    d = Called sid callback payload name /\ is_coroutine callback = false.
Proof.
  unfold emit. simpl. intros H. apply in_deliveries in H.
  destruct H as ([sid cb] & _ & Hd). unfold deliver in Hd.
  destruct (is_coroutine cb) eqn:E; [discriminate Hd|].
  injection Hd as <-. exists sid, cb, event_name. split; [reflexivity | exact E].
Qed.

Lemma subscribers_of_on_same (b : EventBus) pattern callback sid :
  subscribers_of (on b pattern callback sid) pattern
  = (subscribers_of b pattern ++ [(sid, callback)])%list.
Proof. unfold subscribers_of at 1, on. simpl. rewrite dict_get_set_eq. reflexivity. Qed.

Lemma subscribers_of_on_other (b : EventBus) pattern other callback sid :
  pattern <> other ->
  subscribers_of (on b pattern callback sid) other = subscribers_of b other.
Proof.
  intros Hne. unfold subscribers_of, on. simpl.
  rewrite dict_get_set_ne by exact Hne. reflexivity.
Qed.

Lemma fresh_id_subscribers_of (b : EventBus) sid pattern :
  fresh_id sid b -> ~ In sid (map fst (subscribers_of b pattern)).
Proof.
  intros Hfresh. unfold subscribers_of.
  destruct (dict_get pattern (_subscribers b)) as [l|] eqn:E.
  - apply (Hfresh pattern l E).
  - simpl. tauto.
Qed.

(** A new wildcard subscription is among the subscribers of every event
    name its pattern matches. *)
Lemma on_wildcard_subscriber (b : EventBus) pattern callback sid event_name :
  contains "*" pattern = true ->
  fnmatch event_name pattern = true ->
  In (sid, callback)
    (_get_subscribers_for_event (on b pattern callback sid) event_name).
Proof.
  intros Hstar Hmatch.
  unfold _get_subscribers_for_event. apply in_or_app. right.
  apply in_flat_map. exists pattern. split.
  - unfold on. simpl. rewrite Hstar. apply set_add_in.
  - rewrite Hmatch. rewrite subscribers_of_on_same.
    apply in_or_app. right. left. reflexivity.
Qed.

(** What the emission does with a subscriber: a synchronous handler is
    called with the payload and the event name, a coroutine function is
    scheduled with the payload when an event loop is running. *)
Lemma subscriber_delivered (b : EventBus) callback sid event_name (payload : P)
    loop_running :
  In (sid, callback) (_get_subscribers_for_event b event_name) ->
  (is_coroutine callback = false ->
   In (Called sid callback payload event_name)
     (snd (fst (emit b event_name payload loop_running))))
  /\ (is_coroutine callback = true -> loop_running = true ->
      In (Scheduled sid callback payload)
        (snd (fst (emit b event_name payload loop_running)))).
Proof.
  intros Hin. unfold emit. simpl. split.
  - intros Hsync. apply in_deliveries. exists (sid, callback).
    split; [exact Hin|]. unfold deliver. rewrite Hsync. reflexivity.
  - intros Hco ->. apply in_deliveries. exists (sid, callback).
    split; [exact Hin|]. unfold deliver. rewrite Hco. reflexivity.
Qed.

(** A new subscription with a fresh id is not invoked for an event name
    that is not its pattern and that its pattern does not match. *)
Lemma on_not_invoked (b : EventBus) pattern callback sid event_name
    (payload : P) loop_running :
  fresh_id sid b ->
  pattern <> event_name ->
  fnmatch event_name pattern = false ->
  ~ invoked sid (emit (on b pattern callback sid) event_name payload loop_running).
Proof.
  intros Hfresh Hne Hmatch Hin. apply invoked_subscriber in Hin.
  unfold _get_subscribers_for_event in Hin. rewrite map_app in Hin.
  apply in_app_or in Hin. destruct Hin as [Hin|Hin].
  - fold (subscribers_of (on b pattern callback sid) event_name) in Hin.
    rewrite subscribers_of_on_other in Hin by exact Hne.
    exact (fresh_id_subscribers_of b sid event_name Hfresh Hin).
  - apply in_map_iff in Hin. destruct Hin as ([sid' cb'] & Hsid & Hin).
    simpl in Hsid. subst sid'.
    apply in_flat_map in Hin. destruct Hin as (p & _ & Hin).
    destruct (String.eqb_spec pattern p) as [<-|Hp].
    + rewrite Hmatch in Hin. exact Hin.
    + destruct (fnmatch event_name p); [|exact Hin].
      rewrite subscribers_of_on_other in Hin by exact Hp.
      apply (fresh_id_subscribers_of b sid p Hfresh).
      apply in_map_iff. exists (sid, cb'). split; [reflexivity | exact Hin].
Qed.

(** C9, as the code has it.  On any bus, take a subscription registered
    with pattern ["sys:*"] under a fresh id.  When ["sys:started"] or
    ["sys:stopped"] is emitted, a handler that is a plain function is
    called with the payload and the event name, and a handler that is a
    coroutine function is scheduled as a task with the payload if an event
    loop is running in the thread that emits; if none is running, the
    coroutine function is not run by any emission.  When ["syslog"] is
    emitted the subscription is not invoked, whatever its handler is. *)
Theorem sys_wildcard_subscription (b : EventBus) (callback : Callback)
    (sid : string) (payload : P) (loop_running : bool) :
  fresh_id sid b ->
  let b' := on b "sys:*" callback sid in
  (is_coroutine callback = false ->
   In (Called sid callback payload "sys:started")
     (snd (fst (emit b' "sys:started" payload loop_running)))
   /\ In (Called sid callback payload "sys:stopped")
        (snd (fst (emit b' "sys:stopped" payload loop_running))))
  /\ (is_coroutine callback = true -> loop_running = true ->
      In (Scheduled sid callback payload)
        (snd (fst (emit b' "sys:started" payload loop_running)))
      /\ In (Scheduled sid callback payload)
           (snd (fst (emit b' "sys:stopped" payload loop_running))))
  /\ (is_coroutine callback = true -> loop_running = false ->
      forall event_name,
        ~ invoked sid (emit b' event_name payload loop_running))
  /\ ~ invoked sid (emit b' "syslog" payload loop_running).
Proof.
  intros Hfresh b'. subst b'.
  pose proof (on_wildcard_subscriber b "sys:*" callback sid "sys:started"
                eq_refl eq_refl) as Hstarted.
  pose proof (on_wildcard_subscriber b "sys:*" callback sid "sys:stopped"
                eq_refl eq_refl) as Hstopped.
  split; [|split; [|split]].
  - intros Hsync. split.
    + apply (subscriber_delivered _ _ _ _ payload loop_running Hstarted), Hsync.
    + apply (subscriber_delivered _ _ _ _ payload loop_running Hstopped), Hsync.
  - intros Hco Hloop. split.
    + apply (subscriber_delivered _ _ _ _ payload loop_running Hstarted);
        assumption.
    + apply (subscriber_delivered _ _ _ _ payload loop_running Hstopped);
        assumption.
  - intros Hco -> event_name Hin.
    unfold invoked in Hin. apply in_map_iff in Hin.
    destruct Hin as (d & Hid & Hd).
    pose proof Hd as Hd'. apply coroutine_needs_loop in Hd'.
    destruct Hd' as (sid' & cb' & name & -> & Hsync).
    simpl in Hid. subst sid'.
    unfold emit in Hd. simpl in Hd. apply in_deliveries in Hd.
    destruct Hd as ([i c] & Hs & Hd). unfold deliver in Hd.
    destruct (is_coroutine c) eqn:Ec; [discriminate Hd|].
    injection Hd as -> -> _.
    (* the subscriber (sid, cb') is the one just registered *)
    unfold _get_subscribers_for_event in Hs. apply in_app_or in Hs.
    assert (Hown : forall q, In (sid, cb') (subscribers_of (on b "sys:*" callback sid) q)
                             -> cb' = callback).
    { intros q Hq. destruct (String.eqb_spec "sys:*" q) as [<-|Hne].
      - rewrite subscribers_of_on_same in Hq. apply in_app_or in Hq.
        destruct Hq as [Hq|[Hq|[]]].
        + exfalso. apply (fresh_id_subscribers_of b sid "sys:*" Hfresh).
          apply in_map_iff. exists (sid, cb'). split; [reflexivity | exact Hq].
        + congruence.
      - rewrite subscribers_of_on_other in Hq by exact Hne.
        exfalso. apply (fresh_id_subscribers_of b sid q Hfresh).
        apply in_map_iff. exists (sid, cb'). split; [reflexivity | exact Hq]. }
    assert (E : cb' = callback).
    { destruct Hs as [Hs|Hs].
      - apply (Hown event_name). exact Hs.
      - apply in_flat_map in Hs. destruct Hs as (q & _ & Hs).
        destruct (fnmatch event_name q); [|destruct Hs].
        apply (Hown q). exact Hs. }
    congruence.
  - apply on_not_invoked; [exact Hfresh | discriminate | reflexivity].
Qed.

End Delivery.

(** A bus with one subscription to the plain name ["syslog"]. *)
Definition example_bus : EventBus :=
  on new_bus "syslog" (mkCallback "log_handler" false false) "id-1".

Lemma example_bus_fresh : fresh_id "id-2" example_bus.
Proof.
  intros pattern l H.
  change (_subscribers example_bus)
    with [("syslog", [("id-1", mkCallback "log_handler" false false)])] in H.
  unfold dict_get in H.
  destruct (String.eqb "syslog" pattern); [|discriminate H].
  injection H as <-. intros [E|[]]. discriminate E.
Qed.

Lemma sys_wildcard_subscription_witness :
  (In (Called "id-2" (mkCallback "sys_handler" false false) tt "sys:started")
     (snd (fst (emit (on example_bus "sys:*"
                        (mkCallback "sys_handler" false false) "id-2")
                  "sys:started" tt false)))
   /\ In (Called "id-2" (mkCallback "sys_handler" false false) tt "sys:stopped")
        (snd (fst (emit (on example_bus "sys:*"
                           (mkCallback "sys_handler" false false) "id-2")
                     "sys:stopped" tt false))))
  /\ In (Scheduled "id-2" (mkCallback "sys_task" true false) tt)
       (snd (fst (emit (on example_bus "sys:*"
                          (mkCallback "sys_task" true false) "id-2")
                    "sys:started" tt true))).
Proof.
  split.
  - apply (proj1 (sys_wildcard_subscription example_bus
                    (mkCallback "sys_handler" false false) "id-2" tt false
                    example_bus_fresh)).
    reflexivity.
  - apply (proj1 (proj2 (sys_wildcard_subscription example_bus
                           (mkCallback "sys_task" true false) "id-2" tt true
                           example_bus_fresh))); reflexivity.
Defined.

(** C9 as stated fails for a handler that is a coroutine function when
    [emit] is called where no event loop is running, as in the cleanup
    thread of the store: [asyncio.create_task] raises, the error is
    logged, nothing is delivered and [emit] returns 0. *)
Lemma coroutine_handler_without_loop_is_not_invoked :
  emit (on new_bus "sys:*" (mkCallback "sys_task" true false) "id-1")
    "sys:started" tt false
  = (0%nat, [],
     mkBus [("sys:*", [("id-1", mkCallback "sys_task" true false)])] ["sys:*"]
       1 1 0).
Proof. vm_compute. reflexivity. Qed.

(** The deliveries of the three emissions, computed. *)
Example sys_wildcard_deliveries :
  let b := on example_bus "sys:*" (mkCallback "sys_handler" false false) "id-2" in
  map delivery_id (snd (fst (emit b "sys:started" tt false))) = ["id-2"]
  /\ map delivery_id (snd (fst (emit b "sys:stopped" tt false))) = ["id-2"]
  /\ map delivery_id (snd (fst (emit b "syslog" tt false))) = ["id-1"].
Proof. vm_compute. repeat split. Qed.

End BusFacts.

(* ===================================================================== *)
(** * Properties of the interaction manager                               *)
(* ===================================================================== *)

Module MediatorFacts.
Import Py Sys Breaker Mediator BreakerFacts.


(** The trace of the call is marked as a success. *)
Definition recorded_as_success (e : Env') (trace_key : string) : Prop :=
  exists t, store_get trace_key (store e) = Some (VTrace t)
            /\ status t = "success" /\ error_type t = None.

(** The edge is registered and the caller's level, when one is given, is
    not below the level the edge requires. *)
Definition permitted (m : InteractionManager) (source target : string)
    (security_context : option SecurityContext) : Prop :=
  exists required,
    dict_get target (get_or source (registry m) []) = Some required
    /\ forall c, security_context = Some c ->
                 level_value required <= level_value (level c).

Lemma store_update_stats source target t (e : Env') :
  store (_update_stats source target t e) = store e.
Proof. reflexivity. Qed.

Lemma events_update_stats source target t (e : Env') :
  events (_update_stats source target t e) = events e.
Proof. reflexivity. Qed.

Lemma store_record_latency source target d (e : Env') :
  store (_record_latency source target d e) = store e.
Proof. unfold _record_latency. destruct (telemetry_enabled (user e)); reflexivity. Qed.




Lemma trace_key_not_circuit source target clock :
  startswith (trace_key_of source target clock) "circuit." = false.
Proof. reflexivity. Qed.

Section CallFacts.
Context {R : Type}.
Variable py311 : bool.

Implicit Types (w : World InteractionManager) (cb : option CircuitBreaker).

(** *** Refusals before the call is made *)



(** *** The call itself *)

(** The environment when the call is made: the pending trace is stored and
    the request counted. *)
Definition env_before_call (source target payload : string)
    (sc : option SecurityContext) (clock : string) (e : Env') : Env' :=
  _update_stats source target Requests
    (env_store_set (trace_key_of source target clock)
       (VTrace (pending_trace source target payload sc clock)) e).

Definition timeout_of (source target : string) (e : Env') : Z :=
  get_or (source ++ ":" ++ target) (_timeouts (user e))
    (get_or (source ++ ":*") (_timeouts (user e)) 10).

(** The awaited function that [call] hands to the breaker. *)
Definition target_call (source target payload : string)
    (sc : option SecurityContext) (clock : string) (handle : Handle R) (e : Env')
    : Fn InteractionManager (option R) :=
  _do_call py311 source target payload (trace_key_of source target clock)
    (pending_trace source target payload sc clock)
    (timeout_of source target (env_before_call source target payload sc clock e))
    clock handle.

(** The [except] clause of [call]. *)
Definition after_except (source target payload : string)
    (sc : option SecurityContext) (clock : string) (r : Outcome (option R))
    (e : Env') : Env' :=
  match r with
  | Returned _ => e
  | Raised x =>
      if is_asyncio_timeout py311 x then
        _handle_error (trace_key_of source target clock)
          (pending_trace source target payload sc clock) (exc_str x)
          "TIMEOUT_ERROR" clock (_update_stats source target Timeouts e)
      else if is_permission_error x then
        _handle_error (trace_key_of source target clock)
          (pending_trace source target payload sc clock) (exc_str x)
          "PERMISSION_ERROR" clock e
      else
        _handle_error (trace_key_of source target clock)
          (pending_trace source target payload sc clock) (exc_str x)
          "EXECUTION_ERROR" clock (_update_stats source target Errors e)
  end.

Lemma call_with_breaker (b : CircuitBreaker) source target payload sc clock
    (handle : Handle R) duration duration_ms now w :
  permitted (user (env w)) source target sc ->
  let e2 := env_before_call source target payload sc clock (env w) in
  let x := execute py311 b (source ++ ":" ++ target)
             (target_call source target payload sc clock handle (env w))
             (Some (_fallback_handler source target)) duration now
             (mkWorld (heap w) e2) in
  call py311 (Some b) source target payload sc clock handle duration duration_ms
    now w
  = (fst (fst x), Some (snd (fst x)),
     mkWorld (heap (snd x))
       (_record_latency source target duration_ms
          (after_except source target payload sc clock (fst (fst x))
             (env (snd x))))).
Proof.
  intros (required & Hedge & Hlevel) e2 x. subst x e2.
  unfold call, target_call, timeout_of, env_before_call, after_except. cbv zeta.
  change (registry (user (_update_stats source target Requests
            (env_store_set (trace_key_of source target clock)
               (VTrace (pending_trace source target payload sc clock)) (env w)))))
    with (registry (user (env w))).
  rewrite Hedge.
  assert (Hok : match sc with
                | Some c => level_value required >? level_value (level c)
                | None => false
                end = false).
  { destruct sc as [c|]; [|reflexivity].
    specialize (Hlevel c eq_refl).
    destruct (Z.gtb_spec (level_value required) (level_value (level c)));
      [lia | reflexivity]. }
  destruct sc as [c|].
  - rewrite Hok.
    destruct (execute _ _ _ _ _ _ _ _) as [[r b'] w']. simpl.
    destruct r; reflexivity.
  - destruct (execute _ _ _ _ _ _ _ _) as [[r b'] w']. simpl.
    destruct r; reflexivity.
Qed.

Lemma call_without_breaker source target payload sc clock (handle : Handle R)
    duration duration_ms now w :
  permitted (user (env w)) source target sc ->
  let e2 := env_before_call source target payload sc clock (env w) in
  let y := target_call source target payload sc clock handle (env w) e2 in
  call py311 None source target payload sc clock handle duration duration_ms now w
  = (fst y, None,
     mkWorld (heap w)
       (_record_latency source target duration_ms
          (after_except source target payload sc clock (fst y) (snd y)))).
Proof.
  intros (required & Hedge & Hlevel) e2 y. subst y e2.
  unfold call, target_call, timeout_of, env_before_call, after_except. cbv zeta.
  change (registry (user (_update_stats source target Requests
            (env_store_set (trace_key_of source target clock)
               (VTrace (pending_trace source target payload sc clock)) (env w)))))
    with (registry (user (env w))).
  rewrite Hedge.
  assert (Hok : match sc with
                | Some c => level_value required >? level_value (level c)
                | None => false
                end = false).
  { destruct sc as [c|]; [|reflexivity].
    specialize (Hlevel c eq_refl).
    destruct (Z.gtb_spec (level_value required) (level_value (level c)));
      [lia | reflexivity]. }
  destruct sc as [c|].
  - rewrite Hok.
    destruct (_do_call _ _ _ _ _ _ _ _ _ _) as [r e']. simpl.
    destruct r; reflexivity.
  - destruct (_do_call _ _ _ _ _ _ _ _ _ _) as [r e']. simpl.
    destruct r; reflexivity.
Qed.


(** *** A target that runs out of time *)




(** *** A call that goes through *)

Lemma do_call_returns source target payload trace_key metadata timeout clock
    (handle : Handle R) v (e : Env') :
  (forall e0, fst (handle e0) = Returned v) ->
  error_type metadata = None ->
  fst (_do_call py311 source target payload trace_key metadata timeout clock
         handle e) = Returned (Some v)
  /\ recorded_as_success
       (snd (_do_call py311 source target payload trace_key metadata timeout
               clock handle e)) trace_key.
Proof.
  intros Hv Hm. unfold _do_call.
  pose proof (Hv (env_emit ("module:call:" ++ target)
                    (PModuleCall source payload) e)) as H.
  destruct (handle _) as [r e2]. cbn [fst] in H. subst r.
  split; [reflexivity|].
  eexists. split.
  - cbn [snd]. destruct (telemetry_enabled _); cbn; unfold store_set, store_get;
      apply dict_get_set_same.
  - split; [reflexivity | exact Hm].
Qed.

(** A permitted call whose awaited emission returns gives back what it
    returned and marks its trace as a success; with a breaker, when the
    circuit of the pair lets the call through. *)
Lemma permitted_call_returns cb source target payload sc clock
    (handle : Handle R) v duration duration_ms now w :
  permitted (user (env w)) source target sc ->
  (forall e0, fst (handle e0) = Returned v) ->
  (forall b, cb = Some b ->
     exists a c, circuits b !! (source ++ ":" ++ target)%string = Some a
                 /\ heap w !! a = Some c /\ admitted c now = true) ->
  fst (fst (call py311 cb source target payload sc clock handle duration
              duration_ms now w)) = Returned (Some v)
  /\ recorded_as_success
       (env (snd (call py311 cb source target payload sc clock handle duration
                    duration_ms now w)))
       (trace_key_of source target clock).
Proof.
  intros Hallowed Hv Hcb.
  destruct cb as [b|].
  - destruct (Hcb b eq_refl) as (a & c & Hreg & Hc & Hadm).
    rewrite (call_with_breaker b source target payload sc clock handle
               duration duration_ms now w Hallowed).
    cbv zeta. cbn [fst snd].
    destruct (execute_when_admitted py311 b (source ++ ":" ++ target) a c
                (target_call source target payload sc clock handle (env w))
                (Some (_fallback_handler source target)) duration now
                (mkWorld (heap w)
                   (env_before_call source target payload sc clock (env w)))
                Hreg Hc Hadm) as (w' & Hext & Hexec).
    rewrite Hexec. unfold with_breaker, execute_call. cbn [fst snd].
    destruct (do_call_returns source target payload
                (trace_key_of source target clock)
                (pending_trace source target payload sc clock)
                (timeout_of source target
                   (env_before_call source target payload sc clock (env w)))
                clock handle v (env w') Hv eq_refl) as (Hr & t & Ht & Hst & Het).
    unfold target_call.
    destruct (_do_call _ _ _ _ _ _ _ _ _ _) as [r e5]. cbn [fst snd] in Hr, Ht.
    subst r. cbn [fst snd]. split; [reflexivity|].
    unfold after_except. exists t. cbn [env].
    rewrite store_record_latency.
    destruct (record_success_extends b (source ++ ":" ++ target) duration now
                (mkWorld (heap w') e5)) as (_ & Hstore & _).
    rewrite Hstore by apply trace_key_not_circuit. cbn [env].
    split; [exact Ht | split; assumption].
  - rewrite (call_without_breaker source target payload sc clock handle
               duration duration_ms now w Hallowed).
    cbv zeta. cbn [fst snd].
    destruct (do_call_returns source target payload
                (trace_key_of source target clock)
                (pending_trace source target payload sc clock)
                (timeout_of source target
                   (env_before_call source target payload sc clock (env w)))
                clock handle v
                (env_before_call source target payload sc clock (env w))
                Hv eq_refl) as (Hr & t & Ht & Hst & Het).
    unfold target_call.
    destruct (_do_call _ _ _ _ _ _ _ _ _ _) as [r e5]. cbn [fst snd] in Hr, Ht.
    subst r. cbn [fst snd]. split; [reflexivity|].
    unfold after_except. exists t. cbn [env].
    rewrite store_record_latency. split; [exact Ht | split; assumption].
Qed.

(** *** A call the breaker rejects *)


End CallFacts.

(** ** The event bus of the repository behind the call *)

Section Emission.
Context {V : Type}.
Variable py311 : bool.

Implicit Types (w : World InteractionManager) (cb : option CircuitBreaker).




(** The awaited emission either returns or runs out of time: no other
    exception comes out of it. *)
Lemma awaited_emission_cases {P} (bus : Bus.EventBus) target (payload : P)
    (await : nat -> Bus.Completion V) timeout :
  (exists results, awaited_emission bus target payload await timeout
                   = Returned results)
  \/ awaited_emission bus target payload await timeout = Raised AsyncTimeoutError.
Proof.
  unfold awaited_emission. destruct (timeout <=? 0); [right; reflexivity|].
  destruct (fst (fst (Bus.emit_async _ _ _ _))) as [results|].
  - left. exists results. reflexivity.
  - right. reflexivity.
Qed.




End Emission.

(** ** A concrete manager: the edge ui -> tv behind a breaker *)

Module Example.
Definition w0 : World InteractionManager := mkWorld [] (mkEnv [] [] new_manager).
Definition cb0 : CircuitBreaker := default_breaker true true w0.

(** [register_interaction("ui", "tv")] at time 0 *)
Definition registered : option CircuitBreaker * World InteractionManager :=
  register_interaction (Some cb0) "ui" "tv" NORMAL 0 w0.
Definition cb1 : CircuitBreaker :=
  match fst registered with
  | Some b => b
  | None => cb0
  end.
Definition w1 : World InteractionManager := snd registered.

(** Three recorded failures of the circuit at times 10, 11 and 12 *)
Definition w_open : World InteractionManager :=
  _record_failure cb1 "ui:tv" "boom" 12
    (_record_failure cb1 "ui:tv" "boom" 11
       (_record_failure cb1 "ui:tv" "boom" 10 w1)).

(** Handlers of the target: one answers, one runs out of time. *)
Definition answers : Handle string := fun e => (Returned "pong", e).
Definition too_slow : Handle string := fun e => (Raised AsyncTimeoutError, e).

(** The event bus with two handlers of ["module:handle:tv"]: a plain
    function that raises and a coroutine function. *)
Definition tv_bus : Bus.EventBus :=
  Bus.on
    (Bus.on Bus.new_bus "module:handle:tv" (Bus.mkCallback "tv_check" false true)
       "id-1")
    "module:handle:tv" (Bus.mkCallback "tv_task" true false) "id-2".

(** The awaited emission on that bus, with the default timeout of 10
    seconds: the task fails, or is unfinished when the time is over. *)
Definition failing : Handle (list (option string)) :=
  fun e => (awaited_emission tv_bus "tv" "ping" (fun _ => Bus.Failed) 10, e).
Definition hanging : Handle (list (option string)) :=
  fun e => (awaited_emission tv_bus "tv" "ping" (fun _ => Bus.Unfinished) 10, e).



(** A call at time 5, circuit CLOSED, whose target runs out of time *)
Definition call_timing_out
    : Outcome (option (list (option string))) * option CircuitBreaker
      * World InteractionManager :=
  call true (Some cb1) "ui" "tv" "ping" None "t1" hanging 0 5 5 w1.

(** The status and error type of the trace stored under a key *)
Definition trace_status (key : string) (w : World InteractionManager)
    : option (string * option string) :=
  match store_get key (store (env w)) with
  | Some (VTrace t) => Some (status t, error_type t)
  | _ => None
  end.

Definition error_events (w : World InteractionManager) : list Event :=
  List.filter (fun ev => String.eqb (fst ev) "module:interaction_error")
    (events (env w)).
End Example.


(** The same happens to a timeout of the target call once the breaker's
    fallback absorbs it: [_do_call] leaves timeouts to the [except] clause
    of [call], which the absorbed exception never reaches. *)
Lemma absorbed_timeout_leaves_trace_pending :
  fst (fst Example.call_timing_out) = Returned None
  /\ Example.trace_status "interaction.ui.tv.t1" (snd Example.call_timing_out)
     = Some ("pending", None)
  /\ Example.error_events (snd Example.call_timing_out) = []
  /\ (total_timeouts <$> heap (snd Example.call_timing_out) !! 0%nat) = Some 1.
Proof. vm_compute. repeat split. Qed.




(** The two handlers of the example both raise, and the call is a
    success all the same: [emit_async] leaves a [None] for each. *)
Example raising_handlers_are_recorded_as_success :
  let res := call true None "ui" "tv" "ping" None "t1" Example.failing 0 5 5
               Example.w1 in
  fst (fst res) = Returned (Some [None; None])
  /\ Example.trace_status "interaction.ui.tv.t1" (snd res)
     = Some ("success", None)
  /\ Example.error_events (snd res) = [].
Proof. vm_compute. repeat split. Qed.

End MediatorFacts.

(* ===================================================================== *)
(** * Properties of the telemetry collector                               *)
(* ===================================================================== *)

Module TelemetryFacts.
Import Py Telemetry.

(** ** Metric buffers *)

Lemma dict_get_dict_set_same {A} (k : string) (v : A) (d : list (string * A)) :
  dict_get k (dict_set k v d) = Some v.
Proof.
  induction d as [|[k' v'] d IH]; simpl.
  - rewrite String.eqb_refl. reflexivity.
  - destruct (String.eqb k' k) eqn:E; simpl; rewrite E; [reflexivity | exact IH].
Qed.

Lemma dict_get_map_values {A} (f : string -> A -> A) (k : string)
    (d : list (string * A)) :
  dict_get k (map (fun '(k', v) => (k', f k' v)) d)
  = match dict_get k d with
    | Some v => Some (f k v)
    | None => None
    end.
Proof.
  induction d as [|[k' v'] d IH]; simpl; [reflexivity|].
  destruct (String.eqb_spec k' k) as [->|Hne]; [reflexivity | exact IH].
Qed.

Lemma length_last_n {A} (n : nat) (l : list A) :
  (n <= length l)%nat -> length (last_n n l) = n.
Proof. intros H. unfold last_n. rewrite length_skipn. lia. Qed.

(** What maintenance leaves of one buffer *)
Definition truncated (values : list float) : list float :=
  if (max_buffer_size <? length values)%nat then last_n max_buffer_size values
  else values.

Lemma truncated_length (values : list float) :
  (length (truncated values) <= max_buffer_size)%nat.
Proof.
  unfold truncated.
  destruct (Nat.ltb_spec max_buffer_size (length values)) as [Hlt|Hge].
  - rewrite length_last_n; lia.
  - exact Hge.
Qed.

(** The newest values are the ones kept: the old buffer is what was
    dropped followed by what is left. *)
Lemma truncated_keeps_newest (values : list float) :
  exists dropped, values = (dropped ++ truncated values)%list.
Proof.
  unfold truncated. destruct (max_buffer_size <? length values)%nat.
  - exists (firstn (length values - max_buffer_size) values).
    unfold last_n. symmetry. apply firstn_skipn.
  - exists []. reflexivity.
Qed.

(** C8, as the code has it.  A maintenance pass leaves every buffer with at
    most 1000 values, the newest ones; recording a sample appends it to
    the buffer of its metric, whatever the length of that buffer. *)
Theorem buffers_capped_by_maintenance (c : Collector) (now : Z) :
  (forall name values,
      dict_get name (metrics_buffer (_clean_old_data now c)) = Some values ->
      (length values <= 1000)%nat)
  /\ (forall name values,
        dict_get name (metrics_buffer c) = Some values ->
        dict_get name (metrics_buffer (_clean_old_data now c))
        = Some (truncated values)
        /\ exists dropped, values = (dropped ++ truncated values)%list)
  /\ (forall name value,
        dict_get name (metrics_buffer (_record_metric name value c))
        = Some (match dict_get name (metrics_buffer c) with
                | Some values => values ++ [value]
                | None => [value]
                end)%list).
Proof.
  assert (Hclean : forall name,
             dict_get name (metrics_buffer (_clean_old_data now c))
             = match dict_get name (metrics_buffer c) with
               | Some values => Some (truncated values)
               | None => None
               end).
  { intros name. unfold _clean_old_data. simpl.
    apply (dict_get_map_values (fun _ values => truncated values)). }
  split; [|split].
  - intros name values H. rewrite Hclean in H.
    destruct (dict_get name (metrics_buffer c)) as [old|]; [|discriminate H].
    injection H as <-. apply truncated_length.
  - intros name values H. rewrite Hclean, H. split; [reflexivity|].
    apply truncated_keeps_newest.
  - intros name value. unfold _record_metric. simpl.
    rewrite dict_get_dict_set_same.
    destruct (dict_get name (metrics_buffer c)); reflexivity.
Qed.

(** A run of samples of one metric, recorded one after the other *)
Definition record_all (name : string) (values : list float) (c : Collector)
    : Collector :=
  fold_left (fun c v => _record_metric name v c) values c.

(** C8 as stated fails: after 1001 samples of one metric, recorded with no
    maintenance pass in between, its buffer holds 1001 values. *)
Lemma buffer_exceeds_cap_between_maintenance :
  (length <$> dict_get "cpu.percent"
                (metrics_buffer
                   (record_all "cpu.percent" (repeat 50%float 1001) new_collector)))
  = Some 1001%nat.
Proof. vm_compute. reflexivity. Qed.

Lemma buffers_capped_by_maintenance_witness :
  (length <$> dict_get "cpu.percent"
                (metrics_buffer
                   (_clean_old_data 0
                      (record_all "cpu.percent" (repeat 50%float 1001)
                         new_collector))))
  = Some 1000%nat.
Proof.
  rewrite (proj1 (proj1 (proj2 (buffers_capped_by_maintenance
                                  (record_all "cpu.percent" (repeat 50%float 1001)
                                     new_collector) 0))
                          "cpu.percent" (repeat 50%float 1001)
                          ltac:(vm_compute; reflexivity))).
  vm_compute. reflexivity.
Defined.

(** ** Alerts *)

(** An alert of the severity of the active alert of its key, less than 300
    seconds after it, is dropped whatever its value: the first check of
    [_emit_alert] returns before the check on the value is reached. *)
Lemma same_severity_is_suppressed (c : Collector) metric_name value threshold
    severity stats now clock last_alert :
  dict_get (alert_key_of metric_name) (active_alerts c) = Some last_alert ->
  now - a_timestamp last_alert < 300 ->
  a_severity last_alert = severity_value severity ->
  _emit_alert metric_name value threshold severity stats now clock c = c.
Proof.
  intros Hactive Htime Hsev. unfold _emit_alert. cbv zeta.
  rewrite Hactive. unfold suppressed. cbv zeta.
  destruct (Z.ltb_spec (now - a_timestamp last_alert) 300); [|lia].
  rewrite Hsev, String.eqb_refl. reflexivity.
Qed.

(** An alert of another severity is emitted. *)
Lemma other_severity_is_emitted (c : Collector) metric_name value threshold
    severity stats now clock last_alert :
  dict_get (alert_key_of metric_name) (active_alerts c) = Some last_alert ->
  a_severity last_alert <> severity_value severity ->
  events (_emit_alert metric_name value threshold severity stats now clock c)
  = (events c
     ++ [("system:alert",
          IAlert (mkAlert (type_value (alert_type_of metric_name))
                    (severity_value severity) metric_name value threshold
                    (_format_alert_message (alert_type_of metric_name)
                       metric_name value threshold severity)
                    now clock
                    (match stats with
                     | Some (_ :: _) => stats
                     | _ => None
                     end)))])%list.
Proof.
  intros Hactive Hsev. unfold _emit_alert. cbv zeta.
  rewrite Hactive. unfold suppressed. cbv zeta.
  destruct (String.eqb_spec (a_severity last_alert) (severity_value severity));
    [contradiction|].
  rewrite andb_false_r. reflexivity.
Qed.

(** The collector of the example: the default thresholds, and the
    aggregated statistics of [cpu.percent] with mean 95.0. *)
Definition cpu_stats : list (string * float) :=
  [("count", 4%float); ("min", 94%float); ("max", 96%float); ("sum", 380%float);
   ("mean", 95%float)].

(** The threshold check at time 1000, and a second one 10 seconds later *)
Definition after_first_check : Collector :=
  _check_thresholds "cpu.percent" cpu_stats 1000 "t1" new_collector.

Definition after_second_check : Collector :=
  _check_thresholds "cpu.percent" cpu_stats 1010 "t2" after_first_check.

(** The second half of C5 holds: the first check emits one alert, which is
    CRITICAL and carries the value 95.0 and the threshold 90; the second
    check, 10 seconds later, emits nothing more. *)
Lemma threshold_check_emits_one_critical_alert :
  map (fun ev => match snd ev with
                 | IAlert a => (fst ev, a_severity a, a_metric a, a_value a,
                                a_threshold a)
                 | IAnomaly _ => (fst ev, "", "", 0%float, 0%float)
                 end) (events after_first_check)
  = [("system:alert", "critical", "cpu.percent", 95%float, 90%float)]
  /\ after_second_check = after_first_check.
Proof. vm_compute. split; reflexivity. Qed.

(** A CRITICAL alert for the same metric 10 seconds after the first, with
    the value 150, which is more than 50% above 95 *)
Definition worse_alert : Collector :=
  _emit_alert "cpu.percent" 150%float 90%float CRITICAL None 1010 "t2"
    after_first_check.

(** C5 on the code.  The active alert has the value 95.0; 10 seconds later
    an alert of the same severity comes with the value 150, which is at
    least 1.5 times 95; it is dropped all the same: nothing is emitted and
    the active alert keeps the value 95.0. *)
Lemma worse_alert_is_suppressed :
  (a_value <$> dict_get "high_cpu:cpu.percent" (active_alerts after_first_check))
  = Some 95%float
  /\ PrimFloat.leb (95 * 1.5)%float 150%float = true
  /\ worse_alert = after_first_check
  /\ length (events worse_alert) = 1%nat.
Proof. vm_compute. repeat split. Qed.

(** ** Anomalies *)

(** 29 samples of value 10 followed by one of value 1000 *)
Definition samples : list float := (repeat 10%float 29 ++ [1000%float])%list.

(** The model of these samples has mean 43 and the standard deviation
    [sqrt 32670]. *)
Lemma model_of_samples (now : Z) :
  _initialize_anomaly_model samples now
  = mkModel 43%float (PrimFloat.sqrt 32670%float)
      (3 * PrimFloat.sqrt 32670%float)%float now.
Proof. vm_compute. reflexivity. Qed.

(** [_emit_alert] touches neither the anomalies nor the models nor the
    buffers. *)
Lemma emit_alert_keeps_anomalies metric_name value threshold severity stats now
    clock (c : Collector) :
  anomalies (_emit_alert metric_name value threshold severity stats now clock c)
  = anomalies c
  /\ anomaly_models
       (_emit_alert metric_name value threshold severity stats now clock c)
     = anomaly_models c
  /\ metrics_buffer
       (_emit_alert metric_name value threshold severity stats now clock c)
     = metrics_buffer c.
Proof.
  unfold _emit_alert. cbv zeta.
  destruct (match dict_get (alert_key_of metric_name) (active_alerts c) with
            | Some last_alert => suppressed last_alert value severity now
            | None => false
            end); repeat split; reflexivity.
Qed.

Lemma check_recent_value_normal metric_name model now clock (c : Collector) value
    score :
  _check_anomaly value model = (false, score) ->
  check_recent_value metric_name model now clock c value = c.
Proof. intros H. unfold check_recent_value. rewrite H. reflexivity. Qed.

Lemma check_recent_value_anomalous metric_name model now clock (c : Collector)
    value score :
  _check_anomaly value model = (true, score) ->
  anomalies (check_recent_value metric_name model now clock c value)
  = (anomalies c
     ++ [mkAnomaly metric_name value score now (threshold model) (mean model)
           (stddev model)])%list
  /\ anomaly_models (check_recent_value metric_name model now clock c value)
     = anomaly_models c.
Proof.
  intros H. unfold check_recent_value. rewrite H. cbv zeta.
  destruct (PrimFloat.ltb (threshold model * 2) score);
    match goal with
    | |- context [_emit_alert ?m ?v ?t ?s ?st ?n ?cl ?c0] =>
        destruct (emit_alert_keeps_anomalies m v t s st n cl c0) as (Ha & Hm & _);
        rewrite Ha, Hm
    end; split; reflexivity.
Qed.

(** The model of the samples and the anomaly that the pass records for
    the sample of value 1000, as binary64 numbers: the mean is 43, the
    standard deviation is the square root of 32670, and the z-score is
    957 over that root. *)
Definition model_at (now : Z) : Model :=
  mkModel 43%float (PrimFloat.sqrt 32670%float)
    (3 * PrimFloat.sqrt 32670%float)%float now.

Definition outlier_score : float :=
  (PrimFloat.abs (1000 - 43) / PrimFloat.sqrt 32670%float)%float.

(** The z-score of a sample of value 10. *)
Definition normal_score : float :=
  (PrimFloat.abs (10 - 43) / PrimFloat.sqrt 32670%float)%float.

(** The one is between 3 and 6, so that the anomaly is not a severe one
    (twice the threshold is far above it); the other is below 1. *)
Lemma scores_of_samples :
  PrimFloat.ltb 3%float outlier_score = true
  /\ PrimFloat.ltb outlier_score 6%float = true
  /\ PrimFloat.ltb normal_score 1%float = true.
Proof. vm_compute. repeat split. Qed.

Definition outlier_of (name : string) (now : Z) : Anomaly :=
  mkAnomaly name 1000%float outlier_score now
    (3 * PrimFloat.sqrt 32670%float)%float 43%float (PrimFloat.sqrt 32670%float).

Lemma check_anomaly_at_10 (now : Z) :
  _check_anomaly 10%float (model_at now) = (false, normal_score).
Proof. vm_compute. reflexivity. Qed.

Lemma check_anomaly_at_1000 (now : Z) :
  _check_anomaly 1000%float (model_at now) = (true, outlier_score).
Proof. vm_compute. reflexivity. Qed.

(** The anomalies of one metric. *)
Definition anomalies_of (name : string) (c : Collector) : list Anomaly :=
  List.filter (fun a => String.eqb (an_metric a) name) (anomalies c).

(** The pass on the metric itself: the model is built from the samples,
    and of the last ten samples the one of value 1000 is recorded. *)
Lemma detect_in_samples (c : Collector) (name : string) (now : Z)
    (clock : string) :
  dict_get name (anomaly_models c) = None ->
  let c' := detect_in_metric now clock c (name, samples) in
  dict_get name (anomaly_models c') = Some (model_at now)
  /\ anomalies c' = (anomalies c ++ [outlier_of name now])%list.
Proof.
  intros Hmodel c'. subst c'. unfold detect_in_metric.
  change (length samples <? 30)%nat with false. cbv iota zeta.
  rewrite Hmodel, dict_get_dict_set_same, model_of_samples.
  fold (model_at now).
  change (last_n 10 samples) with (repeat 10%float 9 ++ [1000%float])%list.
  set (c1 := mkCollector (metrics_buffer c) (last_values c) (alert_thresholds c)
               (active_alerts c) (anomalies c)
               (dict_set name (model_at now) (anomaly_models c)) (store c)
               (events c)).
  rewrite fold_left_app.
  assert (Hnormal : fold_left (check_recent_value name (model_at now) now clock)
                      (repeat 10%float 9) c1 = c1).
  { simpl.
    rewrite !(check_recent_value_normal _ _ _ _ _ _ _ (check_anomaly_at_10 now)).
    reflexivity. }
  rewrite Hnormal. simpl fold_left.
  destruct (check_recent_value_anomalous name (model_at now) now clock c1
              1000%float outlier_score (check_anomaly_at_1000 now)) as (Ha & Hm).
  rewrite Ha, Hm. split.
  - subst c1. simpl. apply dict_get_dict_set_same.
  - reflexivity.
Qed.

(** A metric with fewer than 30 samples is passed over. *)
Lemma detect_passes_over (now : Z) (clock : string)
    (items : list (string * list float)) (c : Collector) :
  Forall (fun item => (length (snd item) < 30)%nat) items ->
  fold_left (detect_in_metric now clock) items c = c.
Proof.
  revert c. induction items as [|[m values] items IH]; intros c H;
    [reflexivity|].
  inversion H as [|x l Hx Hl]; subst. simpl in Hx.
  cbn [fold_left]. unfold detect_in_metric at 2.
  destruct (Nat.ltb_spec (length values) 30); [|lia].
  apply IH. exact Hl.
Qed.

Lemma dict_get_dict_set_other {A} (k k' : string) (v : A) (d : list (string * A)) :
  k <> k' -> dict_get k' (dict_set k v d) = dict_get k' d.
Proof.
  intros Hne. induction d as [|[k0 v0] d IH]; simpl.
  - destruct (String.eqb_spec k k'); [contradiction | reflexivity].
  - destruct (String.eqb_spec k0 k) as [->|Hk]; simpl.
    + destruct (String.eqb_spec k k'); [contradiction | reflexivity].
    + destruct (String.eqb k0 k'); [reflexivity | exact IH].
Qed.

(** The pass on another metric leaves the model and the anomalies of
    this one as they are. *)
Lemma check_recent_value_other (name m : string) model now clock (c : Collector)
    value :
  m <> name ->
  anomaly_models (check_recent_value m model now clock c value) = anomaly_models c
  /\ anomalies_of name (check_recent_value m model now clock c value)
     = anomalies_of name c.
Proof.
  intros Hne. destruct (_check_anomaly value model) as [[|] score] eqn:E.
  - destruct (check_recent_value_anomalous m model now clock c value score E)
      as (Ha & Hm).
    split; [exact Hm|].
    unfold anomalies_of. rewrite Ha, List.filter_app. simpl.
    destruct (String.eqb_spec m name); [contradiction|]. apply app_nil_r.
  - rewrite (check_recent_value_normal m model now clock c value score E).
    split; reflexivity.
Qed.

Lemma detect_in_other (name : string) now clock (c : Collector)
    (item : string * list float) :
  fst item <> name ->
  dict_get name (anomaly_models (detect_in_metric now clock c item))
  = dict_get name (anomaly_models c)
  /\ anomalies_of name (detect_in_metric now clock c item) = anomalies_of name c.
Proof.
  destruct item as [m values]. cbn [fst]. intros Hne. unfold detect_in_metric.
  destruct (length values <? 30)%nat; [split; reflexivity|].
  cbv zeta.
  set (models := match dict_get m (anomaly_models c) with
                 | Some model =>
                     if now - last_update model >? 600
                     then dict_set m (_update_anomaly_model model values now)
                            (anomaly_models c)
                     else anomaly_models c
                 | None =>
                     dict_set m (_initialize_anomaly_model values now)
                       (anomaly_models c)
                 end).
  assert (Hmodels : dict_get name models = dict_get name (anomaly_models c)).
  { subst models. destruct (dict_get m (anomaly_models c)) as [model|].
    - destruct (now - last_update model >? 600); [|reflexivity].
      apply dict_get_dict_set_other. exact Hne.
    - apply dict_get_dict_set_other. exact Hne. }
  set (c1 := mkCollector (metrics_buffer c) (last_values c) (alert_thresholds c)
               (active_alerts c) (anomalies c) models (store c) (events c)).
  destruct (dict_get m models) as [model|]; [|split; [exact Hmodels | reflexivity]].
  assert (Hfold : forall l c2,
             anomaly_models (fold_left (check_recent_value m model now clock) l c2)
             = anomaly_models c2
             /\ anomalies_of name
                  (fold_left (check_recent_value m model now clock) l c2)
                = anomalies_of name c2).
  { induction l as [|v l IH]; intros c2; [split; reflexivity|].
    cbn [fold_left].
    destruct (IH (check_recent_value m model now clock c2 v)) as (H1 & H2).
    destruct (check_recent_value_other name m model now clock c2 v Hne)
      as (H3 & H4).
    split; [rewrite H1; exact H3 | rewrite H2; exact H4]. }
  destruct (Hfold (last_n 10 values) c1) as (H1 & H2).
  split; [rewrite H1; exact Hmodels | rewrite H2; reflexivity].
Qed.

Lemma detect_in_others (name : string) now clock
    (items : list (string * list float)) (c : Collector) :
  ~ In name (dict_keys items) ->
  dict_get name (anomaly_models (fold_left (detect_in_metric now clock) items c))
  = dict_get name (anomaly_models c)
  /\ anomalies_of name (fold_left (detect_in_metric now clock) items c)
     = anomalies_of name c.
Proof.
  revert c. induction items as [|item items IH]; intros c Hout;
    [split; reflexivity|].
  cbn [fold_left].
  destruct (IH (detect_in_metric now clock c item)) as (H1 & H2).
  { intros H. apply Hout. right. exact H. }
  destruct (detect_in_other name now clock c item) as (H3 & H4).
  { intros H. apply Hout. left. exact H. }
  split; [rewrite H1; exact H3 | rewrite H2; exact H4].
Qed.

(** C7.  The buffer of a metric holds 29 samples of value 10 followed by
    one of value 1000, and the metric has no model yet.  The metrics
    before it in the buffers have fewer than 30 samples each, and are
    passed over; those after it are any.  One pass of [_detect_anomalies]
    builds the model from these 30 samples: mean 43, standard deviation
    the square root of 32670 and threshold three times that.  It adds
    exactly one anomaly of the metric: the sample of value 1000, whose
    z-score, 957 over the standard deviation, is above 3.  No sample of
    value 10 is flagged. *)
Theorem outlier_is_the_only_anomaly (c : Collector) (name : string) (now : Z)
    (clock : string) (before after : list (string * list float)) :
  metrics_buffer c = (before ++ (name, samples) :: after)%list ->
  Forall (fun item => (length (snd item) < 30)%nat) before ->
  ~ In name (dict_keys after) ->
  dict_get name (anomaly_models c) = None ->
  let c' := _detect_anomalies now clock c in
  dict_get name (anomaly_models c')
  = Some (mkModel 43%float (PrimFloat.sqrt 32670%float)
            (3 * PrimFloat.sqrt 32670%float)%float now)
  /\ anomalies_of name c'
     = (anomalies_of name c
        ++ [mkAnomaly name 1000%float
              (PrimFloat.abs (1000 - 43) / PrimFloat.sqrt 32670%float)%float now
              (3 * PrimFloat.sqrt 32670%float)%float 43%float
              (PrimFloat.sqrt 32670%float)])%list
  /\ PrimFloat.ltb 3%float
       (PrimFloat.abs (1000 - 43) / PrimFloat.sqrt 32670%float)%float = true.
Proof.
  intros Hbuffer Hbefore Hafter Hmodel c'. subst c'.
  unfold _detect_anomalies. rewrite Hbuffer, fold_left_app.
  rewrite (detect_passes_over now clock before c Hbefore).
  cbn [fold_left].
  destruct (detect_in_others name now clock after
              (detect_in_metric now clock c (name, samples)) Hafter) as (H1 & H2).
  destruct (detect_in_samples c name now clock Hmodel) as (H3 & H4).
  rewrite H1, H2. split; [exact H3|]. split.
  - unfold anomalies_of at 1. rewrite H4, List.filter_app. simpl.
    rewrite String.eqb_refl. reflexivity.
  - vm_compute. reflexivity.
Qed.

(** The collector after the 30 samples of ["svc.duration"] were recorded *)
Definition svc_collector : Collector :=
  record_all "svc.duration" samples new_collector.

(** A collector with two samples of ["cpu.percent"], then the 30 samples
    of ["svc.duration"], then 30 samples of ["memory.percent"]. *)
Definition busy_collector : Collector :=
  record_all "memory.percent" (repeat 40%float 30)
    (record_all "svc.duration" samples
       (record_all "cpu.percent" [50%float; 60%float] new_collector)).

Lemma outlier_is_the_only_anomaly_witness :
  dict_get "svc.duration"
    (anomaly_models (_detect_anomalies 40 "t1" busy_collector))
  = Some (mkModel 43%float (PrimFloat.sqrt 32670%float)
            (3 * PrimFloat.sqrt 32670%float)%float 40)
  /\ anomalies_of "svc.duration" (_detect_anomalies 40 "t1" busy_collector)
     = (anomalies_of "svc.duration" busy_collector
        ++ [mkAnomaly "svc.duration" 1000%float
              (PrimFloat.abs (1000 - 43) / PrimFloat.sqrt 32670%float)%float 40
              (3 * PrimFloat.sqrt 32670%float)%float 43%float
              (PrimFloat.sqrt 32670%float)])%list
  /\ PrimFloat.ltb 3%float
       (PrimFloat.abs (1000 - 43) / PrimFloat.sqrt 32670%float)%float = true.
Proof.
  apply (outlier_is_the_only_anomaly busy_collector "svc.duration" 40 "t1"
           [("cpu.percent", [50%float; 60%float])]
           [("memory.percent", repeat 40%float 30)]).
  - vm_compute. reflexivity.
  - repeat constructor; simpl; lia.
  - simpl. intros [H|[]]. discriminate H.
  - reflexivity.
Defined.

(** The pass on the example, computed: one anomaly, and through the alert
    path one WARNING alert for the metric. *)
Example detect_anomalies_on_example :
  map (fun a => (an_metric a, an_value a))
    (anomalies (_detect_anomalies 40 "t1" svc_collector))
  = [("svc.duration", 1000%float)]
  /\ map (fun kv => (fst kv, a_severity (snd kv)))
       (active_alerts (_detect_anomalies 40 "t1" svc_collector))
     = [("anomaly_detected:svc.duration", "warning")].
Proof. vm_compute. split; reflexivity. Qed.

End TelemetryFacts.

(* ===================================================================== *)
(** * Dicts and sets as lists                                             *)
(* ===================================================================== *)

Module DictLaws.
Import Py Bus BusFacts.

Section Dicts.
Context {A : Type}.
Implicit Types (d : list (string * A)) (k : string).

Lemma dict_get_in_keys k d :
  In k (dict_keys d) <-> exists v, dict_get k d = Some v.
Proof.
  induction d as [|[k0 v0] d IH]; simpl.
  - split; [tauto | intros [v H]; discriminate].
  - destruct (String.eqb_spec k0 k) as [->|Hne].
    + split; [intros _; eexists; reflexivity | intros _; left; reflexivity].
    + rewrite <- IH. split; [intros [H|H]; [contradiction | exact H] | tauto].
Qed.

Lemma dict_get_none k d : ~ In k (dict_keys d) -> dict_get k d = None.
Proof.
  intros H. destruct (dict_get k d) as [v|] eqn:E; [|reflexivity].
  exfalso. apply H. apply dict_get_in_keys. exists v. exact E.
Qed.

Lemma dict_get_in k v d : dict_get k d = Some v -> In (k, v) d.
Proof.
  induction d as [|[k0 v0] d IH]; simpl; [discriminate|].
  destruct (String.eqb_spec k0 k) as [->|Hne].
  - intros H. injection H as ->. left. reflexivity.
  - intros H. right. apply IH. exact H.
Qed.

Lemma in_dict_get k v d : List.NoDup (dict_keys d) -> In (k, v) d -> dict_get k d = Some v.
Proof.
  induction d as [|[k0 v0] d IH]; simpl; [tauto|].
  intros Hnd [H|H].
  - injection H as -> ->. rewrite String.eqb_refl. reflexivity.
  - inversion Hnd as [|x l Hx Hl]; subst.
    destruct (String.eqb_spec k0 k) as [->|Hne].
    + exfalso. apply Hx. apply (in_map fst) in H. exact H.
    + apply IH; assumption.
Qed.

Lemma dict_keys_set k v d :
  dict_keys (dict_set k v d)
  = if existsb (String.eqb k) (dict_keys d) then dict_keys d
    else (dict_keys d ++ [k])%list.
Proof.
  unfold dict_keys.
  induction d as [|[k0 v0] d IH]; simpl; [reflexivity|].
  rewrite (String.eqb_sym k k0).
  destruct (String.eqb_spec k0 k) as [->|Hne]; simpl; [reflexivity|].
  rewrite IH.
  destruct (existsb (String.eqb k) (map fst d)); reflexivity.
Qed.

Lemma existsb_eqb_in k (l : list string) :
  existsb (String.eqb k) l = true <-> In k l.
Proof.
  rewrite existsb_exists. split.
  - intros (x & Hx & E). apply String.eqb_eq in E. subst. exact Hx.
  - intros H. exists k. split; [exact H | apply String.eqb_refl].
Qed.

Lemma existsb_eqb_not_in k (l : list string) :
  existsb (String.eqb k) l = false <-> ~ In k l.
Proof.
  rewrite <- existsb_eqb_in. destruct (existsb (String.eqb k) l); split;
    congruence.
Qed.

Lemma in_dict_keys_set k k' v d :
  In k' (dict_keys (dict_set k v d)) <-> k' = k \/ In k' (dict_keys d).
Proof.
  rewrite dict_keys_set.
  destruct (existsb (String.eqb k) (dict_keys d)) eqn:E.
  - apply existsb_eqb_in in E. split; [tauto|]. intros [->|H]; assumption.
  - rewrite in_app_iff. simpl. split; intros [H|H]; auto.
    destruct H as [<-|[]]. left. reflexivity.
Qed.

Lemma NoDup_dict_keys_set k v d :
  List.NoDup (dict_keys d) -> List.NoDup (dict_keys (dict_set k v d)).
Proof.
  intros H. rewrite dict_keys_set.
  destruct (existsb (String.eqb k) (dict_keys d)) eqn:E; [exact H|].
  apply existsb_eqb_not_in in E.
  apply List.NoDup_app; [exact H | |].
  - constructor; [simpl; tauto | constructor].
  - intros x Hx [<-|[]]. contradiction.
Qed.

Lemma dict_set_same k v d : dict_get k d = Some v -> dict_set k v d = d.
Proof.
  induction d as [|[k0 v0] d IH]; simpl; [discriminate|].
  destruct (String.eqb_spec k0 k) as [->|Hne].
  - intros H. injection H as ->. reflexivity.
  - intros H. rewrite (IH H). reflexivity.
Qed.

Lemma dict_set_set k v v' d : dict_set k v (dict_set k v' d) = dict_set k v d.
Proof.
  induction d as [|[k0 v0] d IH]; simpl.
  - rewrite String.eqb_refl. reflexivity.
  - destruct (String.eqb_spec k0 k) as [->|Hne]; simpl.
    + rewrite String.eqb_refl. reflexivity.
    + destruct (String.eqb_spec k0 k); [contradiction|]. rewrite IH. reflexivity.
Qed.

Lemma dict_del_set_new k v d :
  ~ In k (dict_keys d) -> dict_del k (dict_set k v d) = d.
Proof.
  induction d as [|[k0 v0] d IH]; simpl.
  - intros _. rewrite String.eqb_refl. reflexivity.
  - intros H. destruct (String.eqb_spec k0 k) as [->|Hne]; [tauto|].
    simpl. destruct (String.eqb_spec k0 k); [contradiction|].
    rewrite IH by tauto. reflexivity.
Qed.

Lemma in_dict_keys_del k k' d :
  List.NoDup (dict_keys d) ->
  (In k' (dict_keys (dict_del k d)) <-> k' <> k /\ In k' (dict_keys d)).
Proof.
  induction d as [|[k0 v0] d IH]; simpl; [tauto|].
  intros Hnd. inversion Hnd as [|x l Hx Hl]; subst.
  destruct (String.eqb_spec k0 k) as [->|Hne]; simpl.
  - split.
    + intros H. split; [|right; exact H]. intros ->. contradiction.
    + intros [Hk [H|H]]; [congruence | exact H].
  - rewrite (IH Hl). split.
    + intros [<-|[H1 H2]]; [split; [congruence | left; reflexivity] | tauto].
    + intros [H1 [H2|H2]]; [left; exact H2 | right; tauto].
Qed.

Lemma NoDup_dict_keys_del k d :
  List.NoDup (dict_keys d) -> List.NoDup (dict_keys (dict_del k d)).
Proof.
  induction d as [|[k0 v0] d IH]; simpl; [tauto|].
  intros Hnd. inversion Hnd as [|x l Hx Hl]; subst.
  destruct (String.eqb k0 k); [exact Hl|].
  simpl. constructor; [|apply IH; exact Hl].
  intros H. apply (in_dict_keys_del k k0 d Hl) in H. tauto.
Qed.

Lemma dict_get_del_other k k' d :
  k <> k' -> dict_get k' (dict_del k d) = dict_get k' d.
Proof.
  intros Hne. induction d as [|[k0 v0] d IH]; simpl; [reflexivity|].
  destruct (String.eqb_spec k0 k) as [->|Hk]; simpl.
  - destruct (String.eqb_spec k k'); [contradiction | reflexivity].
  - destruct (String.eqb k0 k'); [reflexivity | exact IH].
Qed.

Lemma dict_get_del_same k d :
  List.NoDup (dict_keys d) -> dict_get k (dict_del k d) = None.
Proof.
  intros Hnd. apply dict_get_none. intros H.
  apply (in_dict_keys_del k k d Hnd) in H. tauto.
Qed.

Lemma dict_del_absent k d : ~ In k (dict_keys d) -> dict_del k d = d.
Proof.
  induction d as [|[k0 v0] d IH]; simpl; [reflexivity|].
  intros H. destruct (String.eqb_spec k0 k) as [->|Hne]; [tauto|].
  rewrite IH by tauto. reflexivity.
Qed.

Lemma dict_del_filter k d :
  List.NoDup (dict_keys d) ->
  dict_del k d = List.filter (fun kv => negb (String.eqb (fst kv) k)) d.
Proof.
  induction d as [|[k0 v0] d IH]; simpl; [reflexivity|].
  intros Hnd. inversion Hnd as [|x l Hx Hl]; subst.
  destruct (String.eqb_spec k0 k) as [->|Hne]; simpl.
  - rewrite <- (dict_del_absent k d Hx) at 1. apply IH. exact Hl.
  - rewrite (IH Hl). reflexivity.
Qed.

Lemma dict_set_new k v d :
  ~ In k (dict_keys d) -> dict_set k v d = (d ++ [(k, v)])%list.
Proof.
  induction d as [|[k0 v0] d IH]; simpl; [reflexivity|].
  intros H. destruct (String.eqb_spec k0 k) as [->|Hne]; [tauto|].
  rewrite IH by tauto. reflexivity.
Qed.

Lemma in_dict_keys_filter (f : string * A -> bool) k d :
  In k (dict_keys (List.filter f d)) -> In k (dict_keys d).
Proof.
  unfold dict_keys. rewrite !in_map_iff. intros ([k' v] & E & H).
  apply List.filter_In in H. exists (k', v). tauto.
Qed.

Lemma NoDup_dict_keys_filter (f : string * A -> bool) d :
  List.NoDup (dict_keys d) -> List.NoDup (dict_keys (List.filter f d)).
Proof.
  induction d as [|[k0 v0] d IH]; simpl; [tauto|].
  intros Hnd. inversion Hnd as [|x l Hx Hl]; subst.
  destruct (f (k0, v0)); [|apply IH; exact Hl].
  simpl. constructor; [|apply IH; exact Hl].
  intros H. apply Hx. apply (in_dict_keys_filter f). exact H.
Qed.
End Dicts.

Lemma filter_filter {A} (f g : A -> bool) (l : list A) :
  List.filter f (List.filter g l) = List.filter (fun x => g x && f x) l.
Proof.
  induction l as [|x l IH]; simpl; [reflexivity|].
  destruct (g x); simpl; [destruct (f x)|]; rewrite IH; reflexivity.
Qed.

Lemma filter_all {A} (f : A -> bool) (l : list A) :
  (forall x, In x l -> f x = true) -> List.filter f l = l.
Proof.
  induction l as [|x l IH]; simpl; [reflexivity|].
  intros H. rewrite (H x) by (left; reflexivity).
  rewrite IH; [reflexivity|]. intros y Hy. apply H. right. exact Hy.
Qed.

Lemma filter_none {A} (f : A -> bool) (l : list A) :
  (forall x, f x = false) -> List.filter f l = [].
Proof.
  intros H. induction l as [|x l IH]; simpl; [reflexivity|].
  rewrite H. exact IH.
Qed.

(** Deleting from a dict the keys of [l] that [E] selects. *)
Lemma fold_dict_del {A} (E : string -> bool) (l : list string)
    (d : list (string * A)) :
  List.NoDup (dict_keys d) ->
  fold_left (fun d k => if E k then dict_del k d else d) l d
  = List.filter (fun kv => negb (E (fst kv) && existsb (String.eqb (fst kv)) l)) d.
Proof.
  revert d. induction l as [|k l IH]; intros d Hnd.
  - simpl. symmetry. apply filter_all.
    intros kv _. rewrite andb_false_r. reflexivity.
  - cbn [fold_left].
    assert (Hstep : (if E k then dict_del k d else d)
                    = List.filter (fun kv => negb (E (fst kv) && String.eqb (fst kv) k)) d).
    { destruct (E k) eqn:Ek.
      - rewrite (dict_del_filter k d Hnd). apply List.filter_ext_in.
        intros kv _. destruct (String.eqb_spec (fst kv) k) as [->|Hne].
        + rewrite Ek. reflexivity.
        + rewrite andb_false_r. reflexivity.
      - symmetry. apply filter_all.
        intros kv _. destruct (String.eqb_spec (fst kv) k) as [->|Hne].
        + rewrite Ek. reflexivity.
        + rewrite andb_false_r. reflexivity. }
    rewrite Hstep, IH by (apply NoDup_dict_keys_filter; exact Hnd).
    rewrite filter_filter. apply List.filter_ext. intros kv. cbn [existsb].
    destruct (E (fst kv)); simpl; [|reflexivity].
    destruct (String.eqb (fst kv) k); reflexivity.
Qed.

Lemma in_set_add (x y : string) (s : list string) :
  In y (set_add x s) <-> y = x \/ In y s.
Proof.
  unfold set_add. destruct (existsb (String.eqb x) s) eqn:E.
  - apply existsb_eqb_in in E. split; [tauto|]. intros [->|H]; assumption.
  - rewrite in_app_iff. simpl. split; intros [H|H]; auto.
    destruct H as [<-|[]]. left. reflexivity.
Qed.

Lemma NoDup_set_add (x : string) (s : list string) :
  List.NoDup s -> List.NoDup (set_add x s).
Proof.
  intros H. unfold set_add. destruct (existsb (String.eqb x) s) eqn:E; [exact H|].
  apply existsb_eqb_not_in in E.
  apply List.NoDup_app; [exact H | |].
  - constructor; [simpl; tauto | constructor].
  - intros y Hy [<-|[]]. contradiction.
Qed.

Lemma in_set_remove (x y : string) (s : list string) :
  In y (set_remove x s) <-> y <> x /\ In y s.
Proof.
  unfold set_remove. rewrite List.filter_In.
  destruct (String.eqb_spec x y) as [->|Hne]; simpl.
  - split; [intros [_ H]; discriminate | intros [H _]; congruence].
  - split; [intros [H _]; split; [congruence | exact H] | intros [_ H]; tauto].
Qed.

Lemma set_remove_absent (x : string) (s : list string) :
  ~ In x s -> set_remove x s = s.
Proof.
  induction s as [|y s IH]; simpl; [reflexivity|].
  intros H. destruct (String.eqb_spec x y) as [->|Hne]; [tauto|].
  simpl. rewrite IH by tauto. reflexivity.
Qed.

Lemma set_remove_added (x : string) (s : list string) :
  ~ In x s -> set_remove x (set_add x s) = s.
Proof.
  intros H. unfold set_add.
  destruct (existsb (String.eqb x) s) eqn:E.
  - apply existsb_eqb_in in E. contradiction.
  - unfold set_remove. rewrite List.filter_app. simpl. rewrite String.eqb_refl. simpl.
    rewrite app_nil_r. apply set_remove_absent. exact H.
Qed.

End DictLaws.

(* ===================================================================== *)
(** * More about the circuit breaker: recovery, rejection, bookkeeping    *)
(* ===================================================================== *)

Module BreakerLaws.
Import Py Sys Breaker BreakerFacts.

(** ** Closing after [success_threshold] successes *)

(** A recorded success of circuit [circuit_id]. *)
Definition records_success_on {U V : Type} (circuit_id : string) (op : Op U V)
    : Prop :=
  match op with
  | OpRecordSuccess i _ => i = circuit_id
  | _ => False
  end.

(** Where circuit [c] stands after [k] successes in a row that began at
    the half-open circuit [c0]. *)
Definition after_successes (c0 : Circuit) (k : Z) (c : Circuit) : Prop :=
  success_threshold c = success_threshold c0
  /\ total_successes c = total_successes c0 + k
  /\ (1 <= k -> failure_count c = 0)
  /\ ((state c = HALF_OPEN /\ success_count c = success_count c0 + k
       /\ (k = 0 \/ success_count c0 + k < success_threshold c0))
      \/ (state c = CLOSED /\ 1 <= k
          /\ success_threshold c0 <= success_count c0 + k)).

Lemma after_successes_succeeded c0 k c now :
  0 <= k -> after_successes c0 k c -> after_successes c0 (k + 1) (succeeded now c).
Proof.
  unfold after_successes, succeeded, changed, count_success.
  intros Hk (Ht & Hn & Hf & [(Hs & Hc & Hlt) | (Hs & H1 & Hge)]);
    simpl; rewrite !Hs; simpl.
  - rewrite Z.geb_leb.
    destruct (Z.leb_spec (success_threshold c) (success_count c + 1)) as [Hle|Hgt];
      simpl.
    + split; [assumption|]. split; [lia|]. split; [reflexivity|]. right.
      split; [reflexivity|]. split; lia.
    + split; [assumption|]. split; [lia|]. split; [reflexivity|]. left.
      split; [assumption|]. split; [lia|]. right. lia.
  - split; [assumption|]. split; [lia|]. split; [reflexivity|]. right.
    split; [assumption|]. split; lia.
Qed.

Section Recovery.
Context {U V : Type}.
Variable py311 : bool.

Lemma successes_in_a_row (cb : CircuitBreaker) (circuit_id : string) (a : nat)
    (c0 : Circuit) (ops : list (Op U V * Z)) :
  circuits cb !! circuit_id = Some a ->
  forall (w : World U) (c : Circuit) (k : Z),
    Forall (fun x => records_success_on circuit_id (fst x)) ops ->
    heap w !! a = Some c ->
    0 <= k ->
    after_successes c0 k c ->
    exists c',
      heap (snd (run_ops py311 ops (cb, w))) !! a = Some c'
      /\ after_successes c0 (k + Z.of_nat (length ops)) c'.
Proof.
  intros Hreg. induction ops as [|[op now] ops IH]; intros w c k Hops Hc Hk Hinv.
  - exists c. split; [exact Hc|]. simpl. rewrite Z.add_0_r. exact Hinv.
  - inversion Hops as [|x l Hop Hrest]; subst.
    change (run_ops py311 ((op, now) :: ops) (cb, w))
      with (run_ops py311 ops (run_op py311 op now (cb, w))).
    replace (k + Z.of_nat (length ((op, now) :: ops)))
      with ((k + 1) + Z.of_nat (length ops)) by (simpl length; lia).
    destruct op; simpl in Hop; try contradiction; subst; simpl run_op.
    apply (IH _ (succeeded now c)); try assumption; try lia.
    + rewrite (record_success_heap _ _ a) by assumption.
      rewrite list_lookup_alter_eq, Hc. reflexivity.
    + apply after_successes_succeeded; assumption.
Qed.

(** Take a circuit that is HALF_OPEN, with a success count that is not
    negative and a [success_threshold] of at least one, and record exactly
    [success_threshold] successes on it in a row.  Then the circuit is
    CLOSED, its failure count is 0 and its [total_successes] has grown by
    the number of successes. *)
Theorem half_open_circuit_closes_after_success_threshold
    (cb : CircuitBreaker) (w : World U) (circuit_id : string) (a : nat)
    (c : Circuit) (ops : list (Op U V * Z)) :
  circuits cb !! circuit_id = Some a ->
  heap w !! a = Some c ->
  state c = HALF_OPEN ->
  0 <= success_count c ->
  1 <= success_threshold c ->
  Forall (fun x => records_success_on circuit_id (fst x)) ops ->
  Z.of_nat (length ops) = success_threshold c ->
  exists c',
    heap (snd (run_ops py311 ops (cb, w))) !! a = Some c'
    /\ state c' = CLOSED
    /\ failure_count c' = 0
    /\ total_successes c' = total_successes c + success_threshold c.
Proof.
  intros Hreg Hc Hs Hn Ht Hops Hlen.
  destruct (successes_in_a_row cb circuit_id a c ops Hreg w c 0 Hops Hc
              ltac:(lia)) as (c' & Hc' & Hinv).
  { unfold after_successes. split; [reflexivity|]. split; [lia|].
    split; [lia|]. left. split; [assumption|]. split; [lia|]. left. reflexivity. }
  exists c'. split; [exact Hc'|].
  destruct Hinv as (_ & Htot & Hfc & [(_ & _ & Hlt) | (Hs' & _ & _)]).
  - lia.
  - split; [assumption|]. split; [apply Hfc; lia | lia].
Qed.

End Recovery.

(** The circuit "a:b" of the example after the call of
    [example_probe], which found it OPEN at time 100 and succeeded. *)
Definition example_half_open_circuit : Circuit :=
  succeeded 100
    (set_half_open_calls 0 (changed HALF_OPEN 100 example_open_circuit)).

Lemma example_half_open_circuit_lookup :
  heap (snd example_probe) !! 0%nat = Some example_half_open_circuit.
Proof. vm_compute. reflexivity. Qed.

Definition two_successes : list (Op unit Z * Z) :=
  [(OpRecordSuccess "a:b" 1, 101); (OpRecordSuccess "a:b" 1, 102)].

Lemma half_open_circuit_closes_after_success_threshold_witness :
  exists c',
    heap (snd (run_ops true two_successes (Example.cb1, snd example_probe))) !! 0%nat
    = Some c'
    /\ state c' = CLOSED
    /\ failure_count c' = 0
    /\ total_successes c' = 1 + 2.
Proof.
  apply (half_open_circuit_closes_after_success_threshold true Example.cb1
           (snd example_probe) "a:b" 0%nat example_half_open_circuit
           two_successes).
  - vm_compute. reflexivity.
  - exact example_half_open_circuit_lookup.
  - reflexivity.
  - vm_compute. discriminate.
  - vm_compute. discriminate.
  - repeat constructor.
  - reflexivity.
Defined.

(** ** A half-open circuit whose quota is used up *)

(** An [execute] on circuit [circuit_id]. *)
Definition executes_on {U V : Type} (circuit_id : string) (op : Op U V) : Prop :=
  match op with
  | OpExecute i _ _ _ => i = circuit_id
  | _ => False
  end.

(** The circuit after [k] more half-open calls were counted. *)
Definition probed (k : Z) (c : Circuit) : Circuit :=
  set_half_open_calls (half_open_calls c + k) c.

Lemma probed_0 (c : Circuit) : probed 0 c = c.
Proof. unfold probed. rewrite Z.add_0_r. destruct c; reflexivity. Qed.

Lemma count_half_open_call_probed (k : Z) (c : Circuit) :
  count_half_open_call (probed k c) = probed (k + 1) c.
Proof.
  unfold count_half_open_call, probed, set_half_open_calls. simpl.
  f_equal. lia.
Qed.

Section Exhausted.
Context {U V : Type}.
Variable py311 : bool.

Lemma execute_exhausted cb circuit_id a c (fn : Fn U V) fallback duration now
    (w : World U) :
  circuits cb !! circuit_id = Some a ->
  heap w !! a = Some c ->
  state c = HALF_OPEN ->
  half_open_max_calls c <= half_open_calls c ->
  execute py311 cb circuit_id fn fallback duration now w
  = with_breaker cb
      (fallback_or_raise fallback (half_open_exhausted circuit_id)
         (heap_update a count_half_open_call w)).
Proof.
  intros Hreg Hc Hs Hq.
  rewrite (execute_registered py311 cb circuit_id a c fn fallback duration now w
             Hreg Hc), Hs.
  destruct (Z.gtb_spec (half_open_calls c + 1) (half_open_max_calls c)); [|lia].
  reflexivity.
Qed.

Lemma exhausted_run cb circuit_id a c (ops : list (Op U V * Z)) :
  circuits cb !! circuit_id = Some a ->
  state c = HALF_OPEN ->
  half_open_max_calls c <= half_open_calls c ->
  Forall (fun x => executes_on circuit_id (fst x)) ops ->
  forall (w : World U) (k : Z),
    0 <= k ->
    heap w !! a = Some (probed k c) ->
    fst (run_ops py311 ops (cb, w)) = cb
    /\ heap (snd (run_ops py311 ops (cb, w))) !! a
       = Some (probed (k + Z.of_nat (length ops)) c).
Proof.
  intros Hreg Hs Hq Hops. induction Hops as [|[op now] ops Hop _ IH];
    intros w k Hk Hc.
  - simpl. rewrite Z.add_0_r. split; [reflexivity | exact Hc].
  - change (run_ops py311 ((op, now) :: ops) (cb, w))
      with (run_ops py311 ops (run_op py311 op now (cb, w))).
    replace (k + Z.of_nat (length ((op, now) :: ops)))
      with ((k + 1) + Z.of_nat (length ops)) by (simpl length; lia).
    destruct op; simpl in Hop; try contradiction; subst.
    simpl run_op.
    rewrite (execute_exhausted cb circuit_id a (probed k c) fn fallback duration
               now w Hreg Hc Hs) by (simpl; lia).
    unfold with_breaker. simpl.
    apply IH; [lia|].
    rewrite heap_fallback_or_raise, heap_heap_update, list_lookup_alter_eq, Hc.
    simpl. rewrite count_half_open_call_probed. reflexivity.
Qed.

(** A circuit that is HALF_OPEN with [half_open_calls] at or above
    [half_open_max_calls] stays so under [execute]: after any number of
    calls of [execute] on it, at any clock readings, the breaker is the
    same, the circuit differs only in [half_open_calls], which counts the
    calls, so nothing was recorded and no state changed; and the next call
    again gives the fallback's result or the half-open error without the
    awaited function. *)
Theorem exhausted_half_open_circuit_rejects_every_call
    (cb : CircuitBreaker) (w : World U) (circuit_id : string) (a : nat)
    (c : Circuit) (ops : list (Op U V * Z)) :
  circuits cb !! circuit_id = Some a ->
  heap w !! a = Some c ->
  state c = HALF_OPEN ->
  half_open_max_calls c <= half_open_calls c ->
  Forall (fun x => executes_on circuit_id (fst x)) ops ->
  fst (run_ops py311 ops (cb, w)) = cb
  /\ heap (snd (run_ops py311 ops (cb, w))) !! a
     = Some (set_half_open_calls
               (half_open_calls c + Z.of_nat (length ops)) c)
  /\ forall (fn : Fn U V) fallback duration now,
       execute py311 cb circuit_id fn fallback duration now
         (snd (run_ops py311 ops (cb, w)))
       = with_breaker cb
           (fallback_or_raise fallback (half_open_exhausted circuit_id)
              (heap_update a count_half_open_call
                 (snd (run_ops py311 ops (cb, w))))).
Proof.
  intros Hreg Hc Hs Hq Hops.
  destruct (exhausted_run cb circuit_id a c ops Hreg Hs Hq Hops w 0 ltac:(lia))
    as (Hcb & Hheap).
  { rewrite probed_0. exact Hc. }
  rewrite Z.add_0_l in Hheap.
  split; [exact Hcb|]. split; [exact Hheap|].
  intros fn fallback duration now.
  apply (execute_exhausted cb circuit_id a
           (probed (Z.of_nat (length ops)) c) fn fallback duration now _ Hreg Hheap Hs).
  simpl. lia.
Qed.

End Exhausted.

(** The breaker of [BreakerFacts.Example] with its default thresholds:
    after the three failures that opened "a:b", a call at time 50 finds
    the reset timeout elapsed, runs and succeeds; the next call, at time
    51, runs and fails. *)
Definition probes : list (Op unit Z * Z) :=
  [(OpExecute "a:b" Example.returns7 None 0, 50);
   (OpExecute "a:b" Example.raises None 0, 51)].

Definition w_stuck : World unit :=
  snd (run_ops true probes (Example.cb1, Example.w_open)).

Definition stuck_circuit : Circuit :=
  failed 51
    (count_half_open_call
       (succeeded 50
          (set_half_open_calls 0 (changed HALF_OPEN 50 example_open_circuit)))).

Lemma stuck_circuit_lookup : heap w_stuck !! 0%nat = Some stuck_circuit.
Proof. vm_compute. reflexivity. Qed.

(** Two later calls that would succeed, hours apart. *)
Definition later_calls : list (Op unit Z * Z) :=
  [(OpExecute "a:b" Example.returns7 None 0, 5000);
   (OpExecute "a:b" Example.returns7 None 0, 90000)].

Lemma exhausted_half_open_circuit_rejects_every_call_witness :
  heap (snd (run_ops true later_calls (Example.cb1, w_stuck))) !! 0%nat
  = Some (set_half_open_calls (1 + 2) stuck_circuit)
  /\ fst (fst (execute true Example.cb1 "a:b" Example.returns7 None 0 100000
                 (snd (run_ops true later_calls (Example.cb1, w_stuck)))))
     = Raised (half_open_exhausted "a:b").
Proof.
  destruct (exhausted_half_open_circuit_rejects_every_call true Example.cb1
              w_stuck "a:b" 0%nat stuck_circuit later_calls)
    as (_ & Hheap & Hnext).
  - vm_compute. reflexivity.
  - exact stuck_circuit_lookup.
  - reflexivity.
  - vm_compute. discriminate.
  - repeat constructor.
  - split; [exact Hheap|]. rewrite Hnext. reflexivity.
Defined.

(** With the default thresholds the circuit of the example is in that
    state: HALF_OPEN, one half-open call counted of one allowed, one
    failure counted of the three that would open it again. *)
Example default_circuit_gets_stuck :
  state stuck_circuit = HALF_OPEN
  /\ half_open_calls stuck_circuit = 1
  /\ half_open_max_calls stuck_circuit = 1
  /\ failure_count stuck_circuit = 1
  /\ max_failures stuck_circuit = 3.
Proof. vm_compute. repeat split. Qed.

(** ** The totals *)

(** The running totals are consistent with each other and with the two
    consecutive counters. *)
Definition totals_consistent (c : Circuit) : Prop :=
  0 <= total_timeouts c <= total_failures c
  /\ 0 <= open_count c <= total_failures c
  /\ 0 <= failure_count c <= total_failures c
  /\ 0 <= success_count c <= total_successes c.

Lemma totals_consistent_stable : stable totals_consistent.
Proof.
  split; unfold totals_consistent.
  - intros. simpl. lia.
  - intros [?|] [?|] [?|] [?|] c H; exact H.
  - intros s now c H. unfold changed. circuit_cases; simpl; lia.
  - intros now c H. unfold failed, changed, count_failure.
    circuit_cases; simpl; lia.
  - intros now c H. unfold timed_out, failed, changed, count_failure.
    circuit_cases; simpl; lia.
  - intros now c H. unfold succeeded, changed, count_success.
    circuit_cases; simpl; lia.
  - intros c H. simpl. exact H.
  - intros c H. simpl. exact H.
Qed.

(** Start from a breaker with no circuit yet and run any operations on
    it.  Afterwards, in every circuit, no total is negative, the timeouts
    are among the failures ([total_timeouts <= total_failures]), the
    circuit opened at most once per failure
    ([open_count <= total_failures]), and each consecutive counter is at
    most its total. *)
Theorem totals_consistent_after_operations {U V : Type} (py311 : bool)
    (ops : list (Op U V * Z)) (cb : CircuitBreaker) (e : Env U) :
  Forall totals_consistent (heap (snd (run_ops py311 ops (cb, mkWorld [] e)))).
Proof.
  apply run_ops_keeps.
  - exact totals_consistent_stable.
  - constructor.
Qed.

(** ** Manual reset *)

Section Reset.
Context {U : Type}.

Lemma change_state_same cb circuit_id a c now (w : World U) :
  circuits cb !! circuit_id = Some a ->
  heap w !! a = Some c ->
  _change_state cb circuit_id (state c) now w = w.
Proof.
  intros Hreg Hc. unfold _change_state. rewrite Hreg, Hc.
  destruct (state c); reflexivity.
Qed.

Lemma change_state_events cb circuit_id a c s now (w : World U) :
  circuits cb !! circuit_id = Some a ->
  heap w !! a = Some c ->
  state c <> s ->
  has_bus cb = true ->
  events (env (_change_state cb circuit_id s now w))
  = (events (env w)
     ++ [("circuit:state_change",
          PStateChange circuit_id (state_value (state c)) (state_value s) now
            (source c) (target c))])%list.
Proof.
  intros Hreg Hc Hne Hbus. unfold _change_state. rewrite Hreg, Hc.
  destruct (state_eqb (state c) s) eqn:E.
  { destruct (state c), s; try discriminate; congruence. }
  cbv zeta. unfold emit, persist. rewrite Hbus.
  destruct (has_store cb); destruct s; reflexivity.
Qed.

(** [reset] of a registered circuit returns [True].  A circuit that is
    OPEN or HALF_OPEN becomes CLOSED with both consecutive counters at 0
    and the time of the change noted, everything else as it was, and with
    an event bus one [circuit:state_change] event is emitted.  A circuit
    that is CLOSED already is left as it is, its failure count included:
    the world is the same. *)
Theorem reset_closes_or_leaves cb circuit_id a c now (w : World U) :
  circuits cb !! circuit_id = Some a ->
  heap w !! a = Some c ->
  fst (reset cb circuit_id now w) = true
  /\ (state c = CLOSED -> snd (reset cb circuit_id now w) = w)
  /\ (state c <> CLOSED ->
      heap (snd (reset cb circuit_id now w)) !! a
      = Some (set_success_count 0
                (set_failure_count 0
                   (set_last_state_change now (set_state CLOSED c))))
      /\ (has_bus cb = true ->
          events (env (snd (reset cb circuit_id now w)))
          = (events (env w)
             ++ [("circuit:state_change",
                  PStateChange circuit_id (state_value (state c)) "closed" now
                    (source c) (target c))])%list)).
Proof.
  intros Hreg Hc. unfold reset. rewrite Hreg. simpl.
  split; [reflexivity|]. split.
  - intros Hs. rewrite <- Hs. apply (change_state_same cb circuit_id a c); assumption.
  - intros Hs. split.
    + rewrite (change_state_heap _ _ a) by assumption.
      rewrite list_lookup_alter_eq, Hc. simpl. unfold changed.
      destruct (state c); [contradiction | reflexivity | reflexivity].
    + intros Hbus.
      apply (change_state_events cb circuit_id a c CLOSED now w); assumption.
Qed.

End Reset.

Lemma reset_closes_or_leaves_witness :
  (state <$> heap (snd (reset Example.cb1 "a:b" 60 Example.w_open)) !! 0%nat)
  = Some CLOSED
  /\ length (events (env (snd (reset Example.cb1 "a:b" 60 Example.w_open))))
     = S (length (events (env Example.w_open))).
Proof.
  destruct (reset_closes_or_leaves Example.cb1 "a:b" 0%nat example_open_circuit 60
              Example.w_open ltac:(vm_compute; reflexivity)
              example_open_circuit_lookup) as (_ & _ & Hopen).
  destruct Hopen as (Hheap & Hev); [vm_compute; discriminate|].
  split.
  - rewrite Hheap. reflexivity.
  - rewrite Hev by reflexivity. rewrite length_app. simpl. lia.
Defined.

(** ** What [execute] gives back *)

Section Results.
Context {U V : Type}.
Variable py311 : bool.

Lemma fallback_or_raise_some (fb : Fallback U V) e (w : World U) :
  exists v, fst (fallback_or_raise (Some fb) e w) = Returned v.
Proof.
  unfold fallback_or_raise. destruct (fb (env w)) as [v env']. exists v. reflexivity.
Qed.

Lemma execute_call_some cb circuit_id (fn : Fn U V) (fb : Fallback U V) duration
    now (w : World U) :
  exists v,
    fst (execute_call py311 cb circuit_id fn (Some fb) duration now w) = Returned v.
Proof.
  unfold execute_call. destruct (fn (env w)) as [[v|e] env1].
  - exists v. reflexivity.
  - destruct (is_asyncio_timeout py311 e); apply fallback_or_raise_some.
Qed.

(** With a fallback that returns, [execute] on a registered circuit
    never raises: whatever the state of the circuit, and whether the
    awaited function returns or raises an exception (one of class
    [Exception]), the caller gets a value, that of the function or that of
    the fallback. *)
Theorem execute_with_fallback_never_raises cb circuit_id a c (fn : Fn U V)
    (fb : Fallback U V) duration now (w : World U) :
  circuits cb !! circuit_id = Some a ->
  heap w !! a = Some c ->
  exists v,
    fst (fst (execute py311 cb circuit_id fn (Some fb) duration now w))
    = Returned v.
Proof.
  intros Hreg Hc.
  rewrite (execute_registered py311 cb circuit_id a c fn (Some fb) duration now w
             Hreg Hc).
  unfold with_breaker.
  destruct (state c); cbn [fst].
  - apply execute_call_some.
  - destruct (now - last_failure_time c >? reset_timeout c); cbn [fst];
      [apply execute_call_some | apply fallback_or_raise_some].
  - destruct (half_open_calls c + 1 >? half_open_max_calls c); cbn [fst];
      [apply fallback_or_raise_some | apply execute_call_some].
Qed.

Lemma total_failures_failed now c :
  total_failures (failed now c) = total_failures c + 1.
Proof. unfold failed, changed, count_failure. circuit_cases; reflexivity. Qed.

Lemma total_timeouts_failed now c :
  total_timeouts (failed now c) = total_timeouts c.
Proof. unfold failed, changed, count_failure. circuit_cases; reflexivity. Qed.

Lemma execute_call_raising cb circuit_id a c (fn : Fn U V) x duration now
    (w : World U) :
  circuits cb !! circuit_id = Some a ->
  heap w !! a = Some c ->
  (forall e, fst (fn e) = Raised x) ->
  fst (execute_call py311 cb circuit_id fn None duration now w) = Raised x
  /\ exists c',
       heap (snd (execute_call py311 cb circuit_id fn None duration now w)) !! a
       = Some c'
       /\ total_failures c' = total_failures c + 1
       /\ total_timeouts c'
          = total_timeouts c + (if is_asyncio_timeout py311 x then 1 else 0).
Proof.
  intros Hreg Hc Hfn. unfold execute_call.
  pose proof (Hfn (env w)) as Hx.
  destruct (fn (env w)) as [r env1]. simpl in Hx. subst r.
  destruct (is_asyncio_timeout py311 x); simpl.
  - split; [reflexivity|]. eexists. split.
    + rewrite (record_timeout_heap _ _ a) by assumption.
      simpl. rewrite list_lookup_alter_eq, Hc. reflexivity.
    + unfold timed_out. rewrite total_failures_failed, total_timeouts_failed.
      split; reflexivity.
  - split; [reflexivity|]. eexists. split.
    + rewrite (record_failure_heap _ _ a) by assumption.
      simpl. rewrite list_lookup_alter_eq, Hc. reflexivity.
    + rewrite total_failures_failed, total_timeouts_failed. split; [reflexivity | lia].
Qed.

(** Without a fallback, a call that [execute] lets through and whose
    awaited function raises gives the caller that same exception, and the
    circuit has one more failure in [total_failures]; [total_timeouts]
    grows by one exactly when the exception is [asyncio.TimeoutError]. *)
Theorem execute_without_fallback_reraises cb circuit_id a c (fn : Fn U V) x
    duration now (w : World U) :
  circuits cb !! circuit_id = Some a ->
  heap w !! a = Some c ->
  admitted c now = true ->
  (forall e, fst (fn e) = Raised x) ->
  fst (fst (execute py311 cb circuit_id fn None duration now w)) = Raised x
  /\ exists c',
       heap (snd (execute py311 cb circuit_id fn None duration now w)) !! a
       = Some c'
       /\ total_failures c' = total_failures c + 1
       /\ total_timeouts c'
          = total_timeouts c + (if is_asyncio_timeout py311 x then 1 else 0).
Proof.
  intros Hreg Hc Hadm Hfn.
  rewrite (execute_registered py311 cb circuit_id a c fn None duration now w
             Hreg Hc).
  unfold admitted in Hadm. unfold with_breaker.
  destruct (state c) eqn:Hs; cbn [fst snd].
  - apply (execute_call_raising cb circuit_id a c); assumption.
  - rewrite Hadm. cbn [fst snd].
    destruct (execute_call_raising cb circuit_id a
                (set_half_open_calls 0 (changed HALF_OPEN now c)) fn x duration now
                (heap_update a (set_half_open_calls 0)
                   (_change_state cb circuit_id HALF_OPEN now w)) Hreg)
      as (Hr & c' & Hc' & Hf & Ht).
    { rewrite heap_heap_update, (change_state_heap _ _ a) by assumption.
      rewrite list_alter_alter_eq, list_lookup_alter_eq, Hc. reflexivity. }
    { exact Hfn. }
    split; [exact Hr|]. exists c'. split; [exact Hc'|].
    unfold changed in Hf, Ht. rewrite Hs in Hf, Ht. simpl in Hf, Ht.
    split; assumption.
  - destruct (half_open_calls c + 1 >? half_open_max_calls c); [discriminate|].
    cbn [fst snd].
    destruct (execute_call_raising cb circuit_id a (count_half_open_call c) fn x
                duration now (heap_update a count_half_open_call w) Hreg)
      as (Hr & c' & Hc' & Hf & Ht).
    { rewrite heap_heap_update, list_lookup_alter_eq, Hc. reflexivity. }
    { exact Hfn. }
    split; [exact Hr|]. exists c'. split; [exact Hc'|]. split; assumption.
Qed.

End Results.

Lemma execute_with_fallback_never_raises_witness :
  exists v,
    fst (fst (execute true Example.cb1 "a:b" Example.raises
                (Some (fun e => (0, e))) 0 20 Example.w_open))
    = Returned v.
Proof.
  apply (execute_with_fallback_never_raises true Example.cb1 "a:b" 0%nat
           example_open_circuit Example.raises (fun e => (0, e)) 0 20
           Example.w_open).
  - vm_compute. reflexivity.
  - exact example_open_circuit_lookup.
Defined.

Lemma execute_without_fallback_reraises_witness :
  fst (fst (execute true Example.cb1 "a:b" Example.raises None 0 5 Example.w1))
  = Raised (OtherError "boom").
Proof.
  apply (execute_without_fallback_reraises true Example.cb1 "a:b" 0%nat
           (fresh_circuit Example.cb0 "a" "b" None None None None 0)
           Example.raises (OtherError "boom") 0 5 Example.w1).
  - vm_compute. reflexivity.
  - reflexivity.
  - reflexivity.
  - intros e. reflexivity.
Defined.

End BreakerLaws.

(* ===================================================================== *)
(** * More about the event bus: its invariant, unsubscribing, matching    *)
(* ===================================================================== *)

Module BusLaws.
Import Py Bus BusFacts DictLaws.

(** ** The invariant of the bus *)

(** What holds of the two containers of a bus: the keys of [_subscribers]
    are distinct, no key has an empty list, [_patterns] has no repeats,
    and the patterns are exactly the keys that contain a star. *)
Record well_formed (b : EventBus) : Prop := {
  wf_keys : List.NoDup (dict_keys (_subscribers b));
  wf_nonempty : forall p l, dict_get p (_subscribers b) = Some l -> l <> [];
  wf_patterns_nodup : List.NoDup (_patterns b);
  wf_patterns : forall p,
      In p (_patterns b)
      <-> In p (dict_keys (_subscribers b)) /\ contains "*" p = true
}.

Lemma well_formed_new : well_formed new_bus.
Proof.
  split; simpl.
  - constructor.
  - intros p l H. discriminate.
  - constructor.
  - intros p. tauto.
Qed.

Lemma well_formed_clear b : well_formed (clear b).
Proof.
  split; simpl.
  - constructor.
  - intros p l H. discriminate.
  - constructor.
  - intros p. tauto.
Qed.

Lemma well_formed_on b pattern callback sid :
  well_formed b -> well_formed (on b pattern callback sid).
Proof.
  intros [Hk Hn Hp Hi]. split; simpl.
  - apply NoDup_dict_keys_set. exact Hk.
  - intros p l. destruct (String.eqb_spec pattern p) as [->|Hne].
    + rewrite dict_get_set_eq. intros H. injection H as <-.
      destruct (subscribers_of b p); discriminate.
    + rewrite dict_get_set_ne by exact Hne. apply Hn.
  - destruct (contains "*" pattern); [apply NoDup_set_add|]; exact Hp.
  - intros p. rewrite in_dict_keys_set.
    destruct (contains "*" pattern) eqn:Hstar.
    + rewrite in_set_add, Hi. split.
      * intros [->|[H1 H2]]; [split; [left; reflexivity | exact Hstar] | tauto].
      * intros [[->|H1] H2]; [left; reflexivity | right; tauto].
    + rewrite Hi. split; [tauto|].
      intros [[->|H1] H2]; [congruence | tauto].
Qed.

Lemma remove_subscription_nonempty sid (l remaining : list Subscription) :
  remove_subscription sid l = Some remaining -> l <> [].
Proof. destruct l; [discriminate | discriminate]. Qed.

Lemma find_subscription_in sid (d : list (string * list Subscription)) p remaining :
  find_subscription sid d = Some (p, remaining) ->
  exists l, In (p, l) d /\ remove_subscription sid l = Some remaining.
Proof.
  induction d as [|[p0 l0] d IH]; simpl; [discriminate|].
  destruct (remove_subscription sid l0) as [r|] eqn:E.
  - intros H. injection H as <- <-. exists l0. split; [left; reflexivity | exact E].
  - intros H. destruct (IH H) as (l & Hin & Hr). exists l. split; [right|]; assumption.
Qed.

Lemma well_formed_off b sid : well_formed b -> well_formed (snd (off b sid)).
Proof.
  intros Hwf. pose proof Hwf as [Hk Hn Hp Hi]. unfold off.
  destruct (find_subscription sid (_subscribers b)) as [[p remaining]|] eqn:E;
    [|exact Hwf].
  destruct (find_subscription_in _ _ _ _ E) as (l & Hin & Hr).
  assert (Hkey : In p (dict_keys (_subscribers b))).
  { apply (in_map fst) in Hin. exact Hin. }
  destruct remaining as [|s remaining]; split; simpl.
  - apply NoDup_dict_keys_del. exact Hk.
  - intros q l'. destruct (String.eqb_spec p q) as [->|Hne].
    + rewrite dict_get_del_same by exact Hk. discriminate.
    + rewrite dict_get_del_other by exact Hne. apply Hn.
  - unfold set_remove. apply List.NoDup_filter. exact Hp.
  - intros q. rewrite in_set_remove, in_dict_keys_del by exact Hk. rewrite Hi. tauto.
  - apply NoDup_dict_keys_set. exact Hk.
  - intros q l'. destruct (String.eqb_spec p q) as [->|Hne].
    + rewrite dict_get_set_eq. intros H. injection H as <-. discriminate.
    + rewrite dict_get_set_ne by exact Hne. apply Hn.
  - exact Hp.
  - intros q. rewrite in_dict_keys_set, Hi. split; [tauto|].
    intros [[->|H1] H2]; tauto.
Qed.

Lemma well_formed_emit {P} b event_name (payload : P) loop_running :
  well_formed b -> well_formed (snd (emit b event_name payload loop_running)).
Proof. intros [Hk Hn Hp Hi]. split; assumption. Qed.

Lemma well_formed_run (ops : list BusOp) b :
  well_formed b -> well_formed (run_bus_ops ops b).
Proof.
  revert b. induction ops as [|op ops IH]; intros b H; [exact H|].
  simpl. apply IH. destruct op; simpl.
  - apply well_formed_on. exact H.
  - apply well_formed_off. exact H.
  - apply (well_formed_emit b event_name tt loop_running). exact H.
  - apply well_formed_clear.
Qed.

(** On a bus that was made by [EventBus()] and then used, through any
    subscriptions, cancellations, emissions and clearings: every pattern
    of [_patterns] is a key of [_subscribers], so that the lookup
    [self._subscribers[pattern]] of [_get_subscribers_for_event] finds it;
    the list under a key is never empty; and every key that contains a
    star is among the patterns. *)
Theorem patterns_are_subscribed_keys (ops : list BusOp) :
  let b := run_bus_ops ops new_bus in
  (forall p, In p (_patterns b) ->
     exists l, dict_get p (_subscribers b) = Some l /\ l <> [])
  /\ (forall p l, dict_get p (_subscribers b) = Some l -> l <> [])
  /\ (forall p l, dict_get p (_subscribers b) = Some l ->
        contains "*" p = true -> In p (_patterns b)).
Proof.
  intros b. destruct (well_formed_run ops new_bus well_formed_new)
    as [Hk Hn Hp Hi]. fold b in Hk, Hn, Hp, Hi.
  split; [|split].
  - intros p H. apply Hi in H. destruct H as [H _].
    apply dict_get_in_keys in H. destruct H as [l H].
    exists l. split; [exact H | exact (Hn p l H)].
  - exact Hn.
  - intros p l H Hstar. apply Hi. split; [|exact Hstar].
    apply dict_get_in_keys. exists l. exact H.
Qed.

(** ** Cancelling a subscription *)

Lemma remove_subscription_absent sid (l : list Subscription) :
  ~ In sid (map fst l) -> remove_subscription sid l = None.
Proof.
  induction l as [|[i cb] l IH]; simpl; [reflexivity|].
  intros H. destruct (String.eqb_spec i sid) as [->|Hne]; [tauto|].
  rewrite IH by tauto. reflexivity.
Qed.

Lemma remove_subscription_last sid cb (l : list Subscription) :
  ~ In sid (map fst l) ->
  remove_subscription sid (l ++ [(sid, cb)]) = Some l.
Proof.
  induction l as [|[i c] l IH]; simpl.
  - intros _. rewrite String.eqb_refl. reflexivity.
  - intros H. destruct (String.eqb_spec i sid) as [->|Hne]; [tauto|].
    rewrite IH by tauto. reflexivity.
Qed.

Lemma find_subscription_absent sid (d : list (string * list Subscription)) :
  (forall p l, In (p, l) d -> ~ In sid (map fst l)) ->
  find_subscription sid d = None.
Proof.
  induction d as [|[p0 l0] d IH]; simpl; [reflexivity|].
  intros H. rewrite (remove_subscription_absent sid l0) by (apply (H p0); left; reflexivity).
  apply IH. intros p l Hin. apply (H p). right. exact Hin.
Qed.

(** [off] with an id that no subscription of the bus has returns [False]
    and leaves the bus as it is. *)
Theorem off_unknown_subscription (b : EventBus) (sid : string) :
  List.NoDup (dict_keys (_subscribers b)) ->
  fresh_id sid b ->
  off b sid = (false, b).
Proof.
  intros Hk Hfresh. unfold off.
  rewrite find_subscription_absent; [reflexivity|].
  intros p l Hin. apply (Hfresh p). apply in_dict_get; assumption.
Qed.

Lemma find_subscription_set sid cb p (d : list (string * list Subscription)) :
  List.NoDup (dict_keys d) ->
  (forall q l, dict_get q d = Some l -> ~ In sid (map fst l)) ->
  find_subscription sid
    (dict_set p (match dict_get p d with Some l => l | None => [] end
                 ++ [(sid, cb)])%list d)
  = Some (p, match dict_get p d with Some l => l | None => [] end).
Proof.
  induction d as [|[p0 l0] d IH]; simpl.
  - intros _ _. rewrite String.eqb_refl. reflexivity.
  - intros Hnd Hfresh. inversion Hnd as [|x y Hx Hy]; subst.
    assert (H0 : ~ In sid (map fst l0)).
    { apply (Hfresh p0). rewrite String.eqb_refl. reflexivity. }
    destruct (String.eqb_spec p0 p) as [->|Hne]; simpl.
    + rewrite remove_subscription_last by exact H0. reflexivity.
    + rewrite remove_subscription_absent by exact H0.
      apply IH; [exact Hy|].
      intros q l Hq. apply (Hfresh q).
      destruct (String.eqb_spec p0 q) as [->|Hq0]; [|exact Hq].
      exfalso. apply Hx. apply dict_get_in_keys. exists l. exact Hq.
Qed.

(** A subscription made under a new id and cancelled right away leaves a
    used bus exactly as it was: [off] returns [True], and the
    subscriptions, the patterns and the statistics are those from before
    [on]. *)
Theorem on_then_off_restores (ops : list BusOp) (pattern : string)
    (callback : Callback) (sid : string) :
  let b := run_bus_ops ops new_bus in
  fresh_id sid b ->
  off (on b pattern callback sid) sid = (true, b).
Proof.
  intros b Hfresh.
  destruct (well_formed_run ops new_bus well_formed_new) as [Hk Hn Hp Hi].
  fold b in Hk, Hn, Hp, Hi.
  unfold off, on at 1. simpl _subscribers. unfold subscribers_of.
  rewrite (find_subscription_set sid callback pattern (_subscribers b) Hk Hfresh).
  destruct (dict_get pattern (_subscribers b)) as [l|] eqn:E.
  - pose proof (Hn pattern l E) as Hne.
    destruct l as [|s l]; [congruence|].
    rewrite dict_set_set, (dict_set_same _ _ _ E).
    unfold on. simpl.
    assert (Hpat : (if contains "*" pattern then set_add pattern (_patterns b)
                    else _patterns b) = _patterns b).
    { destruct (contains "*" pattern) eqn:Hstar; [|reflexivity].
      unfold set_add.
      assert (Hin : In pattern (_patterns b)).
      { apply Hi. split; [|exact Hstar].
        apply dict_get_in_keys. eexists. exact E. }
      apply existsb_eqb_in in Hin. rewrite Hin. reflexivity. }
    rewrite Hpat. destruct b; reflexivity.
  - assert (Hkey : ~ In pattern (dict_keys (_subscribers b))).
    { intros H. apply dict_get_in_keys in H. destruct H as [v H]. congruence. }
    simpl app. rewrite dict_del_set_new by exact Hkey.
    unfold on. simpl.
    assert (Hpat : set_remove pattern
                     (if contains "*" pattern then set_add pattern (_patterns b)
                      else _patterns b) = _patterns b).
    { assert (Hout : ~ In pattern (_patterns b)).
      { intros H. apply Hi in H. tauto. }
      destruct (contains "*" pattern);
        [apply set_remove_added | apply set_remove_absent]; exact Hout. }
    rewrite Hpat. destruct b; reflexivity.
Qed.

(** ** Which events reach a subscription *)

Lemma fnmatch_refl (p : string) : fnmatch p p = true.
Proof.
  unfold fnmatch. induction p as [|c p IH]; [reflexivity|].
  destruct (Ascii.eqb_spec c "*") as [->|Hc].
  - rewrite BreakerFacts.fnmatch_star_unfold.
    destruct (fnmatch_pat p (String "*" p)); [reflexivity|].
    rewrite BreakerFacts.fnmatch_star_unfold, IH. reflexivity.
  - simpl. destruct (Ascii.eqb_spec c "*"); [contradiction|].
    destruct (Ascii.eqb c "?"); [exact IH|].
    rewrite Ascii.eqb_refl. exact IH.
Qed.

Section Matching.
Context {P : Type}.

Lemma fresh_not_subscribed (b : EventBus) sid q :
  fresh_id sid b -> ~ In sid (map fst (subscribers_of b q)).
Proof. apply fresh_id_subscribers_of. Qed.

(** The subscribers of an event that have this id. *)
Definition with_id (sid : string) (l : list Subscription) : list Subscription :=
  List.filter (fun s => String.eqb sid (fst s)) l.

Lemma with_id_absent sid (l : list Subscription) :
  ~ In sid (map fst l) -> with_id sid l = [].
Proof.
  induction l as [|[i c] l IH]; simpl; [reflexivity|].
  intros H. destruct (String.eqb_spec sid i) as [->|Hne]; [tauto|].
  apply IH. tauto.
Qed.

Lemma with_id_app sid (l1 l2 : list Subscription) :
  with_id sid (l1 ++ l2) = (with_id sid l1 ++ with_id sid l2)%list.
Proof. apply List.filter_app. Qed.

Lemma with_id_new (b : EventBus) pattern callback sid :
  fresh_id sid b ->
  with_id sid (subscribers_of (on b pattern callback sid) pattern)
  = [(sid, callback)].
Proof.
  intros Hfresh. rewrite subscribers_of_on_same, with_id_app.
  rewrite (with_id_absent sid (subscribers_of b pattern))
    by (apply fresh_not_subscribed; exact Hfresh).
  simpl. rewrite String.eqb_refl. reflexivity.
Qed.

Lemma with_id_other (b : EventBus) pattern callback sid q :
  fresh_id sid b -> pattern <> q ->
  with_id sid (subscribers_of (on b pattern callback sid) q) = [].
Proof.
  intros Hfresh Hne. rewrite subscribers_of_on_other by exact Hne.
  apply with_id_absent, fresh_not_subscribed, Hfresh.
Qed.

(** Among the subscribers that the patterns [pats] give for an event,
    those with the new id: one if the new pattern is among [pats] and
    matches the event, none otherwise. *)
Lemma with_id_in_patterns (b : EventBus) pattern callback sid event_name
    (pats : list string) :
  fresh_id sid b ->
  List.NoDup pats ->
  with_id sid
    (flat_map (fun q => if fnmatch event_name q
                        then subscribers_of (on b pattern callback sid) q
                        else []) pats)
  = if existsb (String.eqb pattern) pats && fnmatch event_name pattern
    then [(sid, callback)] else [].
Proof.
  intros Hfresh.
  induction pats as [|q pats IH]; [reflexivity|].
  intros Hnd. inversion Hnd as [|x y Hx Hy]; subst.
  cbn [flat_map existsb]. rewrite with_id_app, (IH Hy).
  destruct (String.eqb_spec pattern q) as [<-|Hne].
  - rewrite (proj2 (existsb_eqb_not_in _ _) Hx). cbn [orb andb].
    destruct (fnmatch event_name pattern).
    + rewrite (with_id_new b pattern callback sid Hfresh). reflexivity.
    + reflexivity.
  - cbn [orb].
    destruct (fnmatch event_name q).
    + rewrite (with_id_other b pattern callback sid q Hfresh Hne). reflexivity.
    + reflexivity.
Qed.

(** The deliveries to one id are the deliveries of the subscribers with
    that id. *)
Lemma deliveries_with_id loop_running event_name (payload : P) sid
    (l : list Subscription) :
  List.filter (fun d => String.eqb sid (delivery_id d))
    (deliveries loop_running event_name payload l)
  = deliveries loop_running event_name payload (with_id sid l).
Proof.
  unfold deliveries, with_id.
  induction l as [|[i c] l IH]; [reflexivity|].
  cbn [flat_map List.filter fst]. rewrite List.filter_app, IH.
  destruct (String.eqb sid i) eqn:E.
  - cbn [flat_map]. f_equal.
    unfold deliver. destruct (is_coroutine c); [destruct loop_running|];
      simpl; rewrite ?E; reflexivity.
  - unfold deliver. destruct (is_coroutine c); [destruct loop_running|];
      simpl; rewrite ?E; reflexivity.
Qed.

(** The deliveries of an emission that go to one subscription id. *)
Definition deliveries_to (sid : string) (r : nat * list (Delivery P) * EventBus)
    : list (Delivery P) :=
  List.filter (fun d => String.eqb sid (delivery_id d)) (snd (fst r)).

(** What [emit] does with the handler of one subscriber. *)
Definition delivery_of (loop_running : bool) (sid : string) (callback : Callback)
    (payload : P) (event_name : string) : list (Delivery P) :=
  if is_coroutine callback then
    if loop_running then [Scheduled sid callback payload] else []
  else [Called sid callback payload event_name].

(** A subscription whose pattern holds no star receives the emission of
    the event of that very name and of no other: without a star the
    pattern is never matched as a glob, whatever else it holds (a question
    mark, say).  The emission of that name calls a plain function once
    with the payload and the name, and schedules a coroutine function once
    with the payload if an event loop is running, and not at all if none
    is. *)
Theorem plain_subscription_invoked_by_its_name_only (ops : list BusOp)
    (pattern : string) (callback : Callback) (sid event_name : string)
    (payload : P) (loop_running : bool) :
  let b := run_bus_ops ops new_bus in
  fresh_id sid b ->
  contains "*" pattern = false ->
  deliveries_to sid (emit (on b pattern callback sid) event_name payload
                       loop_running)
  = if String.eqb pattern event_name
    then delivery_of loop_running sid callback payload event_name
    else [].
Proof.
  intros b Hfresh Hstar.
  destruct (well_formed_run ops new_bus well_formed_new) as [Hk Hn Hp Hi].
  fold b in Hk, Hn, Hp, Hi.
  unfold deliveries_to, emit. cbn [fst snd].
  rewrite deliveries_with_id. unfold _get_subscribers_for_event.
  rewrite with_id_app.
  fold (subscribers_of (on b pattern callback sid) event_name).
  assert (Hpats : _patterns (on b pattern callback sid) = _patterns b).
  { unfold on. simpl. rewrite Hstar. reflexivity. }
  rewrite Hpats, (with_id_in_patterns b pattern callback sid event_name _ Hfresh Hp).
  assert (Hout : existsb (String.eqb pattern) (_patterns b) = false).
  { apply existsb_eqb_not_in. intros H. apply Hi in H. destruct H as [_ H].
    congruence. }
  rewrite Hout. cbn [andb]. rewrite app_nil_r.
  destruct (String.eqb_spec pattern event_name) as [<-|Hne].
  - rewrite (with_id_new b pattern callback sid Hfresh).
    unfold deliveries, deliver, delivery_of. cbn [flat_map].
    destruct (is_coroutine callback); [destruct loop_running|]; reflexivity.
  - rewrite (with_id_other b pattern callback sid event_name Hfresh Hne).
    reflexivity.
Qed.

(** Emitting an event whose name is itself a pattern with a star (and
    without brackets) reaches a subscription to that pattern twice: once
    as the subscriber of that name and once more because the pattern
    matches its own text.  A plain function is called twice with the
    payload and the name; a coroutine function is scheduled twice if an
    event loop is running, and not at all if none is. *)
Theorem wildcard_name_is_delivered_twice (ops : list BusOp) (pattern : string)
    (callback : Callback) (sid : string) (payload : P) (loop_running : bool) :
  let b := run_bus_ops ops new_bus in
  fresh_id sid b ->
  contains "*" pattern = true ->
  contains "[" pattern = false ->
  deliveries_to sid (emit (on b pattern callback sid) pattern payload loop_running)
  = (delivery_of loop_running sid callback payload pattern
     ++ delivery_of loop_running sid callback payload pattern)%list.
Proof.
  intros b Hfresh Hstar _.
  pose proof (well_formed_on b pattern callback sid
                (well_formed_run ops new_bus well_formed_new)) as [Hk Hn Hp Hi].
  unfold deliveries_to, emit. cbn [fst snd].
  rewrite deliveries_with_id. unfold _get_subscribers_for_event.
  rewrite with_id_app.
  fold (subscribers_of (on b pattern callback sid) pattern).
  rewrite (with_id_new b pattern callback sid Hfresh).
  rewrite (with_id_in_patterns b pattern callback sid pattern _ Hfresh Hp).
  assert (Hin : In pattern (_patterns (on b pattern callback sid))).
  { apply Hi. split; [|exact Hstar].
    unfold on. simpl. apply in_dict_keys_set. left. reflexivity. }
  rewrite (proj2 (existsb_eqb_in _ _) Hin), fnmatch_refl. cbn [andb app].
  unfold deliveries, deliver, delivery_of. cbn [flat_map].
  destruct (is_coroutine callback); [destruct loop_running|]; reflexivity.
Qed.

End Matching.

(** ** Counting subscriptions *)

Lemma list_sum_set (p : string) (l l' : list Subscription)
    (d : list (string * list Subscription)) :
  dict_get p d = Some l ->
  (list_sum (map (fun kv => length (snd kv)) (dict_set p l' d)) + length l
   = list_sum (map (fun kv => length (snd kv)) d) + length l')%nat.
Proof.
  induction d as [|[p0 l0] d IH]; simpl; [discriminate|].
  destruct (String.eqb_spec p0 p) as [->|Hne].
  - intros H. injection H as ->. simpl. lia.
  - intros H. specialize (IH H). simpl. lia.
Qed.

Lemma list_sum_set_new (p : string) (l' : list Subscription)
    (d : list (string * list Subscription)) :
  dict_get p d = None ->
  list_sum (map (fun kv => length (snd kv)) (dict_set p l' d))
  = (list_sum (map (fun kv => length (snd kv)) d) + length l')%nat.
Proof.
  induction d as [|[p0 l0] d IH]; simpl; [intros _; lia|].
  destruct (String.eqb_spec p0 p) as [->|Hne]; [discriminate|].
  intros H. specialize (IH H). simpl. lia.
Qed.

Lemma list_sum_del (p : string) (l : list Subscription)
    (d : list (string * list Subscription)) :
  dict_get p d = Some l ->
  (list_sum (map (fun kv => length (snd kv)) (dict_del p d)) + length l
   = list_sum (map (fun kv => length (snd kv)) d))%nat.
Proof.
  induction d as [|[p0 l0] d IH]; simpl; [discriminate|].
  destruct (String.eqb_spec p0 p) as [->|Hne].
  - intros H. injection H as ->. lia.
  - intros H. specialize (IH H). simpl. lia.
Qed.

Lemma remove_subscription_length sid (l remaining : list Subscription) :
  remove_subscription sid l = Some remaining -> length l = S (length remaining).
Proof.
  revert remaining. induction l as [|[i c] l IH]; simpl; [discriminate|].
  intros remaining. destruct (String.eqb i sid).
  - intros H. injection H as ->. reflexivity.
  - destruct (remove_subscription sid l) as [r|]; [|discriminate].
    intros H. injection H as <-. simpl. rewrite (IH r eq_refl). reflexivity.
Qed.

(** On a used bus, [on] adds one to the total of
    [get_subscribers_count()] and one to the count of its pattern, and an
    [off] that returns [True] takes one from the total. *)
Theorem subscription_counts (ops : list BusOp) (pattern : string)
    (callback : Callback) (sid : string) :
  let b := run_bus_ops ops new_bus in
  get_subscribers_count (on b pattern callback sid) None
  = S (get_subscribers_count b None)
  /\ get_subscribers_count (on b pattern callback sid) (Some pattern)
     = S (get_subscribers_count b (Some pattern))
  /\ (fst (off b sid) = true ->
      S (get_subscribers_count (snd (off b sid)) None)
      = get_subscribers_count b None).
Proof.
  intros b.
  destruct (well_formed_run ops new_bus well_formed_new) as [Hk Hn Hp Hi].
  fold b in Hk, Hn, Hp, Hi.
  split; [|split].
  - unfold get_subscribers_count, on. simpl. unfold subscribers_of.
    destruct (dict_get pattern (_subscribers b)) as [l|] eqn:E.
    + pose proof (list_sum_set pattern l (l ++ [(sid, callback)])
                    (_subscribers b) E) as H.
      rewrite length_app in H. simpl in H. lia.
    + rewrite (list_sum_set_new pattern _ (_subscribers b) E). simpl. lia.
  - unfold get_subscribers_count, on. simpl. rewrite dict_get_set_eq.
    unfold subscribers_of.
    destruct (dict_get pattern (_subscribers b)); rewrite length_app; simpl; lia.
  - unfold off.
    destruct (find_subscription sid (_subscribers b)) as [[p remaining]|] eqn:E;
      [|discriminate].
    intros _. destruct (find_subscription_in _ _ _ _ E) as (l & Hin & Hr).
    apply (in_dict_get _ _ _ Hk) in Hin.
    apply remove_subscription_length in Hr.
    unfold get_subscribers_count.
    destruct remaining as [|s remaining]; simpl.
    + pose proof (list_sum_del p l (_subscribers b) Hin) as H. simpl in Hr. lia.
    + pose proof (list_sum_set p l (s :: remaining) (_subscribers b) Hin) as H.
      simpl in H, Hr. lia.
Qed.

(** ** A bus in use *)

(** Three subscriptions, one of them cancelled, and an emission. *)
Definition example_ops : list BusOp :=
  [BOn "sys:*" (mkCallback "sys_handler" false false) "id-1";
   BOn "user:created" (mkCallback "user_handler" true false) "id-2";
   BOn "sys:*" (mkCallback "audit" false true) "id-3";
   BOff "id-1";
   BEmit "sys:started" false].

Definition used_bus : EventBus := run_bus_ops example_ops new_bus.

Lemma used_bus_fresh : fresh_id "id-9" used_bus.
Proof.
  intros pattern l H.
  change (_subscribers used_bus)
    with [("sys:*", [("id-3", mkCallback "audit" false true)]);
          ("user:created", [("id-2", mkCallback "user_handler" true false)])] in H.
  unfold dict_get in H.
  destruct (String.eqb "sys:*" pattern).
  { injection H as <-. intros [E|[]]. discriminate E. }
  destruct (String.eqb "user:created" pattern); [|discriminate H].
  injection H as <-. intros [E|[]]. discriminate E.
Qed.

Lemma off_unknown_subscription_witness : off used_bus "id-9" = (false, used_bus).
Proof.
  apply (off_unknown_subscription used_bus "id-9").
  - vm_compute. repeat constructor; simpl; intuition discriminate.
  - exact used_bus_fresh.
Defined.

Lemma on_then_off_restores_witness :
  off (on used_bus "user:*" (mkCallback "h" false false) "id-9") "id-9"
  = (true, used_bus).
Proof.
  apply (on_then_off_restores example_ops "user:*" (mkCallback "h" false false)
           "id-9").
  exact used_bus_fresh.
Defined.

Lemma plain_subscription_invoked_by_its_name_only_witness :
  deliveries_to "id-9"
    (emit (on used_bus "user:?" (mkCallback "h" false false) "id-9") "user:a" tt
       false)
  = []
  /\ deliveries_to "id-9"
       (emit (on used_bus "user:?" (mkCallback "h" false false) "id-9") "user:?"
          tt false)
     = [Called "id-9" (mkCallback "h" false false) tt "user:?"].
Proof.
  split.
  - exact (plain_subscription_invoked_by_its_name_only example_ops "user:?"
             (mkCallback "h" false false) "id-9" "user:a" tt false
             used_bus_fresh eq_refl).
  - exact (plain_subscription_invoked_by_its_name_only example_ops "user:?"
             (mkCallback "h" false false) "id-9" "user:?" tt false
             used_bus_fresh eq_refl).
Defined.

Lemma wildcard_name_is_delivered_twice_witness :
  deliveries_to "id-9"
    (emit (on used_bus "sys:*" (mkCallback "h" false false) "id-9") "sys:*" tt
       false)
  = [Called "id-9" (mkCallback "h" false false) tt "sys:*";
     Called "id-9" (mkCallback "h" false false) tt "sys:*"].
Proof.
  exact (wildcard_name_is_delivered_twice example_ops "sys:*"
           (mkCallback "h" false false) "id-9" tt false used_bus_fresh
           eq_refl eq_refl).
Defined.

Lemma subscription_counts_witness :
  S (get_subscribers_count (snd (off used_bus "id-3")) None)
  = get_subscribers_count used_bus None.
Proof.
  apply (proj2 (proj2 (subscription_counts example_ops "sys:*"
                         (mkCallback "h" false false) "id-3"))).
  reflexivity.
Defined.

(** The question mark of a pattern without star matches nothing: the
    subscription to ["user:?"] is not invoked for ["user:a"].  A coroutine
    function subscribed to ["sys:*"] is scheduled twice by the emission of
    ["sys:*"] in a running loop, and not run without one. *)
Example question_mark_alone_is_no_wildcard :
  map delivery_id
    (snd (fst (emit (on used_bus "user:?" (mkCallback "h" false false) "id-9")
                 "user:a" tt false))) = []
  /\ map delivery_id
       (snd (fst (emit (on used_bus "user:?" (mkCallback "h" false false) "id-9")
                    "user:?" tt false))) = ["id-9"]
  /\ map delivery_id
       (snd (fst (emit (on new_bus "sys:*" (mkCallback "t" true false) "id-1")
                    "sys:*" tt true))) = ["id-1"; "id-1"]
  /\ map delivery_id
       (snd (fst (emit (on new_bus "sys:*" (mkCallback "t" true false) "id-1")
                    "sys:*" tt false))) = [].
Proof. vm_compute. repeat split. Qed.

End BusLaws.

(* ===================================================================== *)
(** * Properties of the store                                             *)
(* ===================================================================== *)

Module KeyValueStoreLaws.
Import Py Sys KeyValueStore BusFacts DictLaws.

(** A pattern argument that is absent, or on which [Py.fnmatch] is
    Python's [fnmatch.fnmatch]. *)
Definition plain_pattern (pattern : option string) : Prop :=
  match pattern with
  | Some p => plain_glob p = true
  | None => True
  end.

Section Laws.
Context {V : Type}.
Variable value_eqb : V -> V -> bool.
Implicit Types (s : Store V) (key : string) (now : Z).

(** ** What [set] and [_delete_internal] do to the containers *)

Lemma data_set key value ttl versioned_arg now s :
  _data (set value_eqb key value ttl versioned_arg now s)
  = dict_set key value (_data s).
Proof. reflexivity. Qed.

Lemma expires_at_set key value ttl versioned_arg now s :
  expires_at (metadata_of key (set value_eqb key value ttl versioned_arg now s))
  = match ttl with Some t => Some (now + t) | None => None end.
Proof.
  unfold metadata_of, set. cbn [_metadata]. rewrite dict_get_set_eq.
  destruct (versioned_arg && negb (is_versioned key (_versioned_keys s)));
    destruct (is_versioned key _ && _); reflexivity.
Qed.

Lemma metadata_of_set_other key key' value ttl versioned_arg now s :
  key <> key' ->
  metadata_of key' (set value_eqb key value ttl versioned_arg now s)
  = metadata_of key' s.
Proof.
  intros Hne. unfold metadata_of, set. cbn [_metadata].
  rewrite dict_get_set_ne by exact Hne. reflexivity.
Qed.

Lemma delete_internal_present key is_expiry s v :
  dict_get key (_data s) = Some v ->
  fst (_delete_internal key is_expiry s) = true
  /\ _data (snd (_delete_internal key is_expiry s)) = dict_del key (_data s)
  /\ _metadata (snd (_delete_internal key is_expiry s))
     = dict_del key (_metadata s).
Proof. intros H. unfold _delete_internal. rewrite H. repeat split. Qed.

Lemma delete_internal_absent key is_expiry s :
  dict_get key (_data s) = None -> _delete_internal key is_expiry s = (false, s).
Proof. intros H. unfold _delete_internal. rewrite H. reflexivity. Qed.

Lemma data_delete_internal key is_expiry s :
  _data (snd (_delete_internal key is_expiry s)) = dict_del key (_data s)
  \/ (dict_get key (_data s) = None
      /\ snd (_delete_internal key is_expiry s) = s).
Proof.
  unfold _delete_internal. destruct (dict_get key (_data s)) eqn:E.
  - left. reflexivity.
  - right. split; reflexivity.
Qed.

Lemma metadata_of_delete_other key key' is_expiry s :
  key <> key' ->
  metadata_of key' (snd (_delete_internal key is_expiry s)) = metadata_of key' s.
Proof.
  intros Hne. unfold metadata_of, _delete_internal.
  destruct (dict_get key (_data s)); [|reflexivity].
  cbn [snd _metadata]. rewrite dict_get_del_other by exact Hne. reflexivity.
Qed.

Lemma dict_get_delete_other key key' is_expiry s :
  key <> key' ->
  dict_get key' (_data (snd (_delete_internal key is_expiry s)))
  = dict_get key' (_data s).
Proof.
  intros Hne. unfold _delete_internal.
  destruct (dict_get key (_data s)); [|reflexivity].
  cbn [snd _data]. apply dict_get_del_other. exact Hne.
Qed.

(** ** Round trip *)

(** A value that was set is what [get] returns for as long as it lives:
    for ever when no [ttl] was given (an earlier time to live of the key
    is dropped), and strictly before [now + ttl] otherwise; the call
    counts as a hit.  From [now + ttl] on, [get] returns the default,
    and the call counts as a miss and as an expiration. *)
Theorem get_after_set key value ttl versioned_arg now now' s :
  (match ttl with Some t => now' < now + t | None => True end ->
   fst (get key now' (set value_eqb key value ttl versioned_arg now s))
   = Some value
   /\ hits (snd (get key now' (set value_eqb key value ttl versioned_arg now s)))
      = S (hits s))
  /\ (match ttl with Some t => now + t <= now' | None => False end ->
      fst (get key now' (set value_eqb key value ttl versioned_arg now s)) = None
      /\ misses (snd (get key now'
                        (set value_eqb key value ttl versioned_arg now s)))
         = S (misses s)
      /\ expirations (snd (get key now'
                             (set value_eqb key value ttl versioned_arg now s)))
         = S (expirations s)).
Proof.
  assert (Hget : dict_get key
                   (_data (count_get (set value_eqb key value ttl versioned_arg
                                        now s))) = Some value).
  { cbn [count_get _data]. rewrite data_set. apply dict_get_set_eq. }
  assert (Hexp : is_expired key now'
                   (count_get (set value_eqb key value ttl versioned_arg now s))
                 = match ttl with Some t => now + t <=? now' | None => false end).
  { unfold is_expired, expired.
    change (metadata_of key (count_get ?x)) with (metadata_of key x).
    rewrite expires_at_set. destruct ttl; reflexivity. }
  unfold get. rewrite Hget, Hexp. split.
  - intros Hlive. destruct ttl as [t|].
    + destruct (Z.leb_spec (now + t) now'); [lia|]. split; reflexivity.
    + split; reflexivity.
  - intros Hdead. destruct ttl as [t|]; [|contradiction].
    destruct (Z.leb_spec (now + t) now'); [|lia].
    unfold _delete_internal. rewrite Hget. repeat split.
Qed.

(** ** The keys of the data stay distinct *)

Definition distinct_keys s : Prop := List.NoDup (dict_keys (_data s)).

Lemma distinct_keys_set key value ttl versioned_arg now s :
  distinct_keys s ->
  distinct_keys (set value_eqb key value ttl versioned_arg now s).
Proof. unfold distinct_keys. rewrite data_set. apply NoDup_dict_keys_set. Qed.

Lemma distinct_keys_delete_internal key is_expiry s :
  distinct_keys s -> distinct_keys (snd (_delete_internal key is_expiry s)).
Proof.
  unfold distinct_keys. intros H.
  destruct (data_delete_internal key is_expiry s) as [E|[_ E]]; rewrite E.
  - apply NoDup_dict_keys_del. exact H.
  - exact H.
Qed.

Lemma distinct_keys_keys pattern now s :
  distinct_keys s -> distinct_keys (snd (keys pattern now s)).
Proof.
  unfold keys. generalize (@nil string) as acc.
  generalize (dict_keys (_data s)) as l. intros l. revert s.
  induction l as [|k l IH]; intros s acc H; [exact H|].
  cbn [fold_left]. unfold keys_step at 2.
  destruct (is_expired k now s).
  - apply IH. apply distinct_keys_delete_internal. exact H.
  - destruct (selects pattern k); apply IH; exact H.
Qed.

Lemma distinct_keys_get_many_loop pattern now l result s :
  distinct_keys s -> distinct_keys (snd (get_many_loop pattern now l result s)).
Proof.
  revert result. induction l as [|k l IH]; intros result H; [exact H|].
  cbn [get_many_loop]. destruct (fnmatch k pattern); [|apply IH; exact H].
  destruct (is_expired k now s).
  - apply distinct_keys_delete_internal. exact H.
  - destruct (dict_get k (_data s)); [apply IH|]; exact H.
Qed.

Lemma distinct_keys_clear_loop l count s :
  distinct_keys s -> distinct_keys (snd (fold_left clear_step l (count, s))).
Proof.
  revert count s. induction l as [|k l IH]; intros count s H; [exact H|].
  cbn [fold_left]. unfold clear_step at 2.
  pose proof (distinct_keys_delete_internal k false s H) as Hd.
  destruct (_delete_internal k false s) as [deleted s']. apply IH. exact Hd.
Qed.

Lemma distinct_keys_cleanup_loop l s :
  distinct_keys s ->
  distinct_keys (fold_left (fun s key => snd (_delete_internal key true s)) l s).
Proof.
  revert s. induction l as [|k l IH]; intros s H; [exact H|].
  cbn [fold_left]. apply IH. apply distinct_keys_delete_internal. exact H.
Qed.

Lemma distinct_keys_run_op s op :
  distinct_keys s -> distinct_keys (run_store_op value_eqb s op).
Proof.
  intros H. destruct op as [[key value ttl va|key|key|key|pattern|pattern|pattern|] now];
    cbn [run_store_op].
  - apply distinct_keys_set. exact H.
  - unfold get. destruct (dict_get key (_data (count_get s))); [|exact H].
    destruct (is_expired key now (count_get s)); [|exact H].
    apply (distinct_keys_delete_internal key true (count_get s)). exact H.
  - apply distinct_keys_delete_internal. exact H.
  - unfold has. destruct (dict_get key (_data s)); [|exact H].
    destruct (is_expired key now s); [|exact H].
    apply distinct_keys_delete_internal. exact H.
  - apply distinct_keys_keys. exact H.
  - apply distinct_keys_get_many_loop. exact H.
  - unfold clear.
    pose proof (distinct_keys_keys pattern now s H) as Hk.
    destruct (keys pattern now s) as [l s1].
    apply distinct_keys_clear_loop. exact Hk.
  - apply distinct_keys_cleanup_loop. exact H.
Qed.

Lemma distinct_keys_run ops s :
  distinct_keys s -> distinct_keys (run_store_ops value_eqb ops s).
Proof.
  revert s. induction ops as [|op ops IH]; intros s H; [exact H|].
  apply IH. apply distinct_keys_run_op. exact H.
Qed.

Lemma distinct_keys_used ops bus :
  distinct_keys (run_store_ops value_eqb ops (new_store bus)).
Proof. apply distinct_keys_run. constructor. Qed.

(** ** Deleting *)

(** On a store that was made by [Store()] and then used in any way:
    [delete] returns [True] exactly when the key is in the data, whether
    expired or not; afterwards [get] returns the default, [has] returns
    [False] and a second [delete] returns [False]. *)
Theorem delete_removes_the_key (ops : list (StoreOp V * Z)) (bus : bool) key now :
  let s := run_store_ops value_eqb ops (new_store bus) in
  (fst (delete key s) = true <-> In key (dict_keys (_data s)))
  /\ fst (get key now (snd (delete key s))) = None
  /\ fst (has key now (snd (delete key s))) = false
  /\ fst (delete key (snd (delete key s))) = false.
Proof.
  intros s. pose proof (distinct_keys_used ops bus) as Hd. fold s in Hd.
  assert (Hgone : dict_get key (_data (snd (delete key s))) = None).
  { unfold delete.
    destruct (data_delete_internal key false s) as [E|[E1 E2]].
    - rewrite E. apply dict_get_del_same. exact Hd.
    - rewrite E2. exact E1. }
  split; [|split; [|split]].
  - unfold delete, _delete_internal. rewrite dict_get_in_keys.
    destruct (dict_get key (_data s)) as [v|]; simpl.
    + split; [intros _; exists v; reflexivity | reflexivity].
    + split; [discriminate | intros [v H]; discriminate].
  - unfold get. cbn [count_get _data]. rewrite Hgone. reflexivity.
  - unfold has. rewrite Hgone. reflexivity.
  - unfold delete at 1. rewrite delete_internal_absent by exact Hgone. reflexivity.
Qed.

(** ** The counters *)

Definition is_get_many (op : StoreOp V * Z) : Prop :=
  match fst op with
  | SGetMany _ => True
  | _ => False
  end.

Lemma counters_delete_internal key is_expiry s :
  gets (snd (_delete_internal key is_expiry s)) = gets s
  /\ hits (snd (_delete_internal key is_expiry s)) = hits s
  /\ misses (snd (_delete_internal key is_expiry s)) = misses s.
Proof.
  unfold _delete_internal. destruct (dict_get key (_data s)); repeat split.
Qed.

(** The three counters after a step that neither [get] nor [get_many]
    made are those from before. *)
Definition same_counters s s' : Prop :=
  gets s' = gets s /\ hits s' = hits s /\ misses s' = misses s.

Lemma same_counters_refl s : same_counters s s.
Proof. repeat split. Qed.

Lemma same_counters_trans s1 s2 s3 :
  same_counters s1 s2 -> same_counters s2 s3 -> same_counters s1 s3.
Proof. unfold same_counters. intros (?&?&?) (?&?&?). repeat split; congruence. Qed.

Lemma same_counters_keys pattern now s :
  same_counters s (snd (keys pattern now s)).
Proof.
  unfold keys. generalize (@nil string) as acc.
  generalize (dict_keys (_data s)) as l. intros l.
  assert (H : forall s0 acc, same_counters s s0 ->
            same_counters s (snd (fold_left (keys_step pattern now) l (acc, s0)))).
  { induction l as [|k l IH]; intros s0 acc H0; [exact H0|].
    cbn [fold_left]. unfold keys_step at 2.
    destruct (is_expired k now s0).
    - apply IH. apply (same_counters_trans _ s0); [exact H0|].
      apply counters_delete_internal.
    - destruct (selects pattern k); apply IH; exact H0. }
  intros acc. apply H. apply same_counters_refl.
Qed.

Lemma same_counters_clear_loop l count s :
  same_counters s (snd (fold_left clear_step l (count, s))).
Proof.
  assert (H : forall s0 count0, same_counters s s0 ->
            same_counters s (snd (fold_left clear_step l (count0, s0)))).
  { induction l as [|k l IH]; intros s0 count0 H0; [exact H0|].
    cbn [fold_left]. unfold clear_step at 2.
    pose proof (counters_delete_internal k false s0) as Hd.
    destruct (_delete_internal k false s0) as [deleted s']. apply IH.
    apply (same_counters_trans _ s0); assumption. }
  apply H. apply same_counters_refl.
Qed.

Lemma same_counters_cleanup_loop l s :
  same_counters s
    (fold_left (fun s key => snd (_delete_internal key true s)) l s).
Proof.
  assert (H : forall s0, same_counters s s0 ->
            same_counters s
              (fold_left (fun s key => snd (_delete_internal key true s)) l s0)).
  { induction l as [|k l IH]; intros s0 H0; [exact H0|].
    cbn [fold_left]. apply IH. apply (same_counters_trans _ s0); [exact H0|].
    apply counters_delete_internal. }
  apply H. apply same_counters_refl.
Qed.

Lemma counters_get_many_loop pattern now l result s :
  (gets (snd (get_many_loop pattern now l result s)) = gets s
   \/ gets (snd (get_many_loop pattern now l result s)) = S (gets s))
  /\ hits (snd (get_many_loop pattern now l result s)) = hits s
  /\ misses (snd (get_many_loop pattern now l result s)) = misses s.
Proof.
  revert result. induction l as [|k l IH]; intros result.
  - cbn. split; [right; reflexivity | split; reflexivity].
  - cbn [get_many_loop]. destruct (fnmatch k pattern); [|apply IH].
    destruct (is_expired k now s).
    + destruct (counters_delete_internal k true s) as (Hg & Hh & Hm).
      split; [left; exact Hg | split; assumption].
    + destruct (dict_get k (_data s)); [apply IH|].
      split; [left; reflexivity | split; reflexivity].
Qed.

Lemma counters_run_op s op :
  let s' := run_store_op value_eqb s op in
  (hits s + misses s <= gets s -> hits s' + misses s' <= gets s')%nat
  /\ (~ is_get_many op ->
      hits s + misses s = gets s -> hits s' + misses s' = gets s')%nat.
Proof.
  destruct op as [[key value ttl va|key|key|key|pattern|pattern|pattern|] now];
    cbn [run_store_op]; unfold is_get_many; cbn [fst].
  - cbn. split; intros; lia.
  - unfold get. destruct (dict_get key (_data (count_get s))).
    + destruct (is_expired key now (count_get s)).
      * destruct (counters_delete_internal key true (count_get s)) as (Hg & Hh & Hm).
        cbn [snd count_miss gets hits misses]. rewrite Hg, Hh, Hm. cbn.
        split; intros; lia.
      * cbn. split; intros; lia.
    + cbn. split; intros; lia.
  - destruct (counters_delete_internal key false s) as (Hg & Hh & Hm).
    unfold delete. rewrite Hg, Hh, Hm. split; intros; lia.
  - unfold has. destruct (dict_get key (_data s)); [|cbn [snd]; split; intros; lia].
    destruct (is_expired key now s); [|cbn [snd]; split; intros; lia].
    destruct (counters_delete_internal key true s) as (Hg & Hh & Hm).
    cbn [snd]. rewrite Hg, Hh, Hm. split; intros; lia.
  - destruct (same_counters_keys pattern now s) as (Hg & Hh & Hm).
    rewrite Hg, Hh, Hm. split; intros; lia.
  - destruct (counters_get_many_loop pattern now (dict_keys (_data s)) [] s)
      as (Hg & Hh & Hm).
    unfold get_many. rewrite Hh, Hm. split; [|tauto].
    destruct Hg as [Hg|Hg]; rewrite Hg; lia.
  - unfold clear.
    pose proof (same_counters_keys pattern now s) as Hk.
    destruct (keys pattern now s) as [l s1]. cbn [snd] in Hk.
    destruct (same_counters_trans _ _ _ Hk (same_counters_clear_loop l 0%nat s1))
      as (Hg & Hh & Hm).
    rewrite Hg, Hh, Hm. split; intros; lia.
  - unfold _cleanup_expired.
    destruct (same_counters_cleanup_loop
                (map fst (List.filter (fun km => expired (snd km) now)
                            (_metadata s))) s) as (Hg & Hh & Hm).
    rewrite Hg, Hh, Hm. split; intros; lia.
Qed.

Lemma counters_run ops s :
  (hits s + misses s <= gets s ->
   hits (run_store_ops value_eqb ops s) + misses (run_store_ops value_eqb ops s)
   <= gets (run_store_ops value_eqb ops s))%nat
  /\ (Forall (fun op => ~ is_get_many op) ops ->
      hits s + misses s = gets s ->
      hits (run_store_ops value_eqb ops s) + misses (run_store_ops value_eqb ops s)
      = gets (run_store_ops value_eqb ops s))%nat.
Proof.
  revert s. induction ops as [|op ops IH]; intros s.
  - split; intros; assumption.
  - cbn [run_store_ops fold_left].
    destruct (counters_run_op s op) as (H1 & H2).
    destruct (IH (run_store_op value_eqb s op)) as (I1 & I2).
    split.
    + intros H. apply I1. apply H1. exact H.
    + intros Hops H. inversion Hops as [|x l Hop Hrest]; subst.
      apply I2; [exact Hrest|]. apply H2; assumption.
Qed.

(** On a store that was made by [Store()] and then used in any way,
    [hits + misses] never exceeds [gets], and the two are equal as long as
    [get_many] was not called: a [get_many] that returns counts as a get
    but as neither a hit nor a miss (which lowers the [hit_ratio] of
    [get_stats]). *)
Theorem hits_and_misses_add_up_to_gets (ops : list (StoreOp V * Z)) (bus : bool) :
  let s := run_store_ops value_eqb ops (new_store bus) in
  (hits s + misses s <= gets s)%nat
  /\ (Forall (fun op => ~ is_get_many op) ops ->
      (hits s + misses s = gets s)%nat).
Proof.
  intros s. destruct (counters_run ops (new_store bus)) as (H1 & H2).
  split.
  - apply H1. cbn. lia.
  - intros Hops. apply H2; [exact Hops | reflexivity].
Qed.

(** ** Listing the keys *)

Lemma keys_loop pattern now (l : list string) :
  forall s acc,
    List.NoDup l ->
    fst (fold_left (keys_step pattern now) l (acc, s))
    = (acc ++ List.filter (fun k => negb (is_expired k now s) && selects pattern k) l)%list
    /\ _data (snd (fold_left (keys_step pattern now) l (acc, s)))
       = fold_left (fun d k => if is_expired k now s then dict_del k d else d)
           l (_data s).
Proof.
  induction l as [|k l IH]; intros s acc Hnd.
  - simpl. rewrite app_nil_r. split; reflexivity.
  - inversion Hnd as [|x y Hx Hy]; subst.
    cbn [fold_left List.filter]. unfold keys_step at 2 4.
    destruct (is_expired k now s) eqn:Ek; cbn [negb andb].
    + destruct (IH (snd (_delete_internal k true s)) acc Hy) as (H1 & H2).
      assert (Hsame : forall k', In k' l ->
                is_expired k' now (snd (_delete_internal k true s))
                = is_expired k' now s).
      { intros k' Hk'. unfold is_expired.
        rewrite metadata_of_delete_other; [reflexivity|].
        intros ->. contradiction. }
      split.
      * rewrite H1. f_equal. apply List.filter_ext_in.
        intros k' Hk'. rewrite (Hsame k' Hk'). reflexivity.
      * rewrite H2.
        assert (Hd : _data (snd (_delete_internal k true s))
                     = dict_del k (_data s)).
        { destruct (data_delete_internal k true s) as [E|[E1 E2]]; [exact E|].
          rewrite E2. symmetry. apply dict_del_absent.
          intros Hin. apply dict_get_in_keys in Hin. destruct Hin as [v Hv].
          congruence. }
        rewrite Hd. clear H1 H2.
        generalize (dict_del k (_data s)) as d. revert Hsame. clear.
        induction l as [|k' l IHl]; intros Hsame d; [reflexivity|].
        cbn [fold_left]. rewrite (Hsame k') by (left; reflexivity).
        apply IHl. intros k'' Hk''. apply Hsame. right. exact Hk''.
    + destruct (selects pattern k).
      * destruct (IH s (acc ++ [k])%list Hy) as (H1 & H2).
        split; [rewrite H1, <- app_assoc; reflexivity | exact H2].
      * destruct (IH s acc Hy) as (H1 & H2). split; assumption.
Qed.

Lemma keys_of_distinct pattern now s :
  distinct_keys s ->
  fst (keys pattern now s)
  = List.filter (fun k => negb (is_expired k now s) && selects pattern k)
      (dict_keys (_data s))
  /\ _data (snd (keys pattern now s))
     = List.filter (fun kv => negb (is_expired (fst kv) now s)) (_data s).
Proof.
  intros Hd. unfold keys.
  destruct (keys_loop pattern now (dict_keys (_data s)) s [] Hd) as (H1 & H2).
  split; [exact H1|].
  rewrite H2, (fold_dict_del (fun k => is_expired k now s)) by exact Hd.
  apply List.filter_ext_in. intros [k v] Hin. cbn [fst].
  assert (Hk : existsb (String.eqb k) (dict_keys (_data s)) = true).
  { apply existsb_eqb_in. apply (in_map fst) in Hin. exact Hin. }
  rewrite Hk, andb_true_r. reflexivity.
Qed.

(** On a store that was made by [Store()] and then used in any way,
    [keys(pattern)], for a pattern with neither brackets nor question
    marks, returns, in the order of insertion, the keys that have not
    expired and that the pattern selects (all of them without a pattern),
    and it removes from the data every key that has expired, whether the
    pattern selects it or not. *)
Theorem keys_lists_the_live_keys (ops : list (StoreOp V * Z)) (bus : bool)
    (pattern : option string) now :
  let s := run_store_ops value_eqb ops (new_store bus) in
  plain_pattern pattern ->
  fst (keys pattern now s)
  = List.filter (fun k => negb (is_expired k now s) && selects pattern k)
      (dict_keys (_data s))
  /\ _data (snd (keys pattern now s))
     = List.filter (fun kv => negb (is_expired (fst kv) now s)) (_data s).
Proof. intros s _. apply keys_of_distinct. apply distinct_keys_used. Qed.

(** ** Clearing *)

Lemma clear_loop (l : list string) :
  forall s count,
    List.NoDup l ->
    distinct_keys s ->
    (forall k, In k l -> In k (dict_keys (_data s))) ->
    fst (fold_left clear_step l (count, s)) = (count + length l)%nat
    /\ _data (snd (fold_left clear_step l (count, s)))
       = fold_left (fun d k => if (fun _ => true) k then dict_del k d else d)
           l (_data s).
Proof.
  induction l as [|k l IH]; intros s count Hnd Hd Hin.
  - simpl. split; [lia | reflexivity].
  - inversion Hnd as [|x y Hx Hy]; subst.
    cbn [fold_left]. unfold clear_step at 2 4.
    assert (Hk : In k (dict_keys (_data s))) by (apply Hin; left; reflexivity).
    apply dict_get_in_keys in Hk. destruct Hk as [v Hv].
    destruct (delete_internal_present k false s v Hv) as (Ht & Hdata & _).
    pose proof (distinct_keys_delete_internal k false s Hd) as Hd'.
    destruct (_delete_internal k false s) as [deleted s'].
    cbn [fst snd] in Ht, Hdata, Hd'. subst deleted.
    destruct (IH s' (S count) Hy Hd') as (H1 & H2).
    { intros k' Hk'. rewrite Hdata. apply in_dict_keys_del; [exact Hd|].
      split; [intros ->; contradiction | apply Hin; right; exact Hk']. }
    split; [rewrite H1; simpl; lia | rewrite H2, Hdata; reflexivity].
Qed.

(** On a store that was made by [Store()] and then used in any way,
    [clear(pattern)], for a pattern with neither brackets nor question
    marks, returns the number of keys that [keys(pattern)] lists, and
    leaves in the data exactly the entries that have not expired and that
    the pattern does not select; without a pattern it leaves none. *)
Theorem clear_removes_what_keys_lists (ops : list (StoreOp V * Z)) (bus : bool)
    (pattern : option string) now :
  let s := run_store_ops value_eqb ops (new_store bus) in
  plain_pattern pattern ->
  fst (clear pattern now s) = length (fst (keys pattern now s))
  /\ _data (snd (clear pattern now s))
     = List.filter (fun kv => negb (is_expired (fst kv) now s)
                              && negb (selects pattern (fst kv))) (_data s)
  /\ (pattern = None -> _data (snd (clear pattern now s)) = []).
Proof.
  intros s _. pose proof (distinct_keys_used ops bus) as Hd. fold s in Hd.
  destruct (keys_of_distinct pattern now s Hd) as (Hk1 & Hk2).
  pose proof (distinct_keys_keys pattern now s Hd) as Hd1.
  assert (Hmain : fst (clear pattern now s) = length (fst (keys pattern now s))
          /\ _data (snd (clear pattern now s))
             = List.filter (fun kv => negb (is_expired (fst kv) now s)
                                      && negb (selects pattern (fst kv)))
                 (_data s)).
  { unfold clear. destruct (keys pattern now s) as [l s1].
    cbn [fst snd] in Hk1, Hk2, Hd1 |- *.
    destruct (clear_loop l s1 0%nat) as (H1 & H2).
    - rewrite Hk1. apply List.NoDup_filter. exact Hd.
    - exact Hd1.
    - intros k Hk. rewrite Hk1 in Hk. apply List.filter_In in Hk.
      destruct Hk as [Hk Hlive]. apply andb_prop in Hlive.
      destruct Hlive as [Hlive _].
      rewrite Hk2. unfold dict_keys in Hk |- *. apply in_map_iff in Hk.
      destruct Hk as ([k' v] & E & Hk). cbn [fst] in E. subst k'.
      apply in_map_iff. exists (k, v). split; [reflexivity|].
      apply List.filter_In. split; [exact Hk | exact Hlive].
    - split; [exact H1|].
      rewrite H2, (fold_dict_del (fun _ => true)) by exact Hd1.
      rewrite Hk2, filter_filter. apply List.filter_ext_in.
      intros [k v] Hin. cbn [fst andb].
      destruct (is_expired k now s) eqn:Ek; cbn [negb andb]; [reflexivity|].
      f_equal.
      destruct (selects pattern k) eqn:Es.
      + apply existsb_eqb_in. rewrite Hk1. apply List.filter_In.
        split; [apply (in_map fst) in Hin; exact Hin|].
        rewrite Ek, Es. reflexivity.
      + apply existsb_eqb_not_in. rewrite Hk1. intros H.
        apply List.filter_In in H. destruct H as [_ H].
        rewrite Es, andb_false_r in H. discriminate. }
  destruct Hmain as (H1 & H2). split; [exact H1|]. split; [exact H2|].
  intros ->. rewrite H2. apply filter_none.
  intros kv. cbn [selects negb]. apply andb_false_r.
Qed.

(** ** Many values at once *)

Definition size_changed : Exc :=
  RuntimeError "dictionary changed size during iteration".

Lemma get_many_loop_raises pattern now (l : list string) s :
  forall result,
    (exists key, In key l /\ fnmatch key pattern = true
                 /\ is_expired key now s = true) ->
    (forall k, In k l -> exists v, dict_get k (_data s) = Some v) ->
    exists key,
      is_expired key now s = true
      /\ get_many_loop pattern now l result s
         = (Error size_changed, snd (_delete_internal key true s)).
Proof.
  induction l as [|k l IH]; intros result (key & Hin & Hm & He) Hdata.
  - contradiction.
  - cbn [get_many_loop].
    destruct (fnmatch k pattern) eqn:Em.
    + destruct (is_expired k now s) eqn:Ee.
      * exists k. split; [exact Ee | reflexivity].
      * destruct (Hdata k (or_introl eq_refl)) as [v Hv]. rewrite Hv.
        apply IH.
        -- destruct Hin as [<-|Hin]; [congruence|]. exists key. tauto.
        -- intros k' Hk'. apply Hdata. right. exact Hk'.
    + apply IH.
      * destruct Hin as [<-|Hin]; [congruence|]. exists key. tauto.
      * intros k' Hk'. apply Hdata. right. exact Hk'.
Qed.

Lemma get_many_loop_returns pattern now (d : list (string * V)) s :
  forall result,
    List.NoDup (dict_keys d) ->
    (forall k v, In (k, v) d -> dict_get k (_data s) = Some v) ->
    (forall k, In k (dict_keys d) -> ~ In k (dict_keys result)) ->
    (forall k, In k (dict_keys d) -> fnmatch k pattern = true ->
               is_expired k now s = false) ->
    get_many_loop pattern now (dict_keys d) result s
    = (Ok (result ++ List.filter (fun kv => fnmatch (fst kv) pattern) d)%list,
       count_get s).
Proof.
  induction d as [|[k v] d IH]; intros result Hnd Hdata Hnew Hlive.
  - simpl. rewrite app_nil_r. reflexivity.
  - inversion Hnd as [|x y Hx Hy]; subst.
    cbn [dict_keys map fst get_many_loop List.filter].
    destruct (fnmatch k pattern) eqn:Em.
    + rewrite (Hlive k (or_introl eq_refl) Em).
      rewrite (Hdata k v (or_introl eq_refl)).
      rewrite dict_set_new by (apply Hnew; left; reflexivity).
      fold (dict_keys d). rewrite IH.
      * rewrite <- app_assoc. reflexivity.
      * exact Hy.
      * intros k' v' Hin. apply Hdata. right. exact Hin.
      * intros k' Hk'. unfold dict_keys. rewrite map_app, in_app_iff.
        intros [H|[H|[]]].
        -- apply (Hnew k'); [right; exact Hk' | exact H].
        -- cbn [fst] in H. subst k'. contradiction.
      * intros k' Hk'. apply Hlive. right. exact Hk'.
    + fold (dict_keys d). apply IH.
      * exact Hy.
      * intros k' v' Hin. apply Hdata. right. exact Hin.
      * intros k' Hk'. apply Hnew. right. exact Hk'.
      * intros k' Hk'. apply Hlive. right. exact Hk'.
Qed.

(** On a store that was made by [Store()] and then used in any way, and
    for a pattern with neither brackets nor question marks: if some key
    that the pattern matches has expired and is still in the data,
    [get_many(pattern)] raises [RuntimeError], because it deletes
    the key from the dict it is iterating over; an expired key is gone
    afterwards, one expiration is counted and the call is not counted as
    a get.  If no matching key has expired, [get_many] returns the
    matching entries in the order of insertion and counts one get. *)
Theorem get_many_raises_on_an_expired_key (ops : list (StoreOp V * Z))
    (bus : bool) (pattern : string) now :
  let s := run_store_ops value_eqb ops (new_store bus) in
  plain_glob pattern = true ->
  ((exists key, In key (dict_keys (_data s)) /\ fnmatch key pattern = true
                /\ is_expired key now s = true) ->
   fst (get_many pattern now s) = Error size_changed
   /\ gets (snd (get_many pattern now s)) = gets s
   /\ expirations (snd (get_many pattern now s)) = S (expirations s)
   /\ length (_data (snd (get_many pattern now s))) < length (_data s))%nat
  /\ ((forall key, In key (dict_keys (_data s)) -> fnmatch key pattern = true ->
                   is_expired key now s = false) ->
      get_many pattern now s
      = (Ok (List.filter (fun kv => fnmatch (fst kv) pattern) (_data s)),
         count_get s)).
Proof.
  intros s _. pose proof (distinct_keys_used ops bus) as Hd. fold s in Hd.
  split.
  - intros Hex. unfold get_many.
    destruct (get_many_loop_raises pattern now (dict_keys (_data s)) s [] Hex)
      as (key & He & Hr).
    { intros k Hk. apply dict_get_in_keys. exact Hk. }
    rewrite Hr. cbn [fst snd]. split; [reflexivity|].
    assert (Hin : exists v, dict_get key (_data s) = Some v).
    { destruct (dict_get key (_data s)) as [v|] eqn:E; [exists v; reflexivity|].
      exfalso. unfold get_many in Hr. clear - E He Hr Hex Hd.
      (* the key named by the loop is one of the keys of the data *)
      assert (Hk : forall l result,
                (forall k, In k l -> exists v, dict_get k (_data s) = Some v) ->
                get_many_loop pattern now l result s
                = (Error size_changed, snd (_delete_internal key true s)) ->
                snd (_delete_internal key true s) <> s -> In key l).
      { intros l. induction l as [|k l IH]; intros result Hdata Hloop Hne.
        - cbn in Hloop. discriminate.
        - cbn [get_many_loop] in Hloop.
          destruct (fnmatch k pattern).
          + destruct (is_expired k now s).
            * rewrite (delete_internal_absent key true s E) in Hne. cbn in Hne.
              contradiction.
            * destruct (Hdata k (or_introl eq_refl)) as [v Hv].
              rewrite Hv in Hloop. right.
              apply (IH _ (fun k' Hk' => Hdata k' (or_intror Hk')) Hloop Hne).
          + right.
            apply (IH _ (fun k' Hk' => Hdata k' (or_intror Hk')) Hloop Hne). }
      rewrite (delete_internal_absent key true s E) in Hr. cbn [snd] in Hr.
      (* but then the loop would have returned the store with one more get *)
      assert (Hg : forall l result,
                (forall k, In k l -> exists v, dict_get k (_data s) = Some v) ->
                get_many_loop pattern now l result s = (Error size_changed, s) ->
                False).
      { intros l. induction l as [|k l IH]; intros result Hdata Hloop.
        - cbn in Hloop. discriminate.
        - cbn [get_many_loop] in Hloop.
          destruct (fnmatch k pattern).
          + destruct (is_expired k now s).
            * destruct (Hdata k (or_introl eq_refl)) as [v Hv].
              unfold _delete_internal in Hloop. rewrite Hv in Hloop.
              cbn [snd] in Hloop. injection Hloop as Hs.
              apply (f_equal (@expirations V)) in Hs. cbn in Hs. lia.
            * destruct (Hdata k (or_introl eq_refl)) as [v Hv].
              rewrite Hv in Hloop.
              apply (IH _ (fun k' Hk' => Hdata k' (or_intror Hk')) Hloop).
          + apply (IH _ (fun k' Hk' => Hdata k' (or_intror Hk')) Hloop). }
      apply (Hg (dict_keys (_data s)) []); [|exact Hr].
      intros k Hk0. apply dict_get_in_keys. exact Hk0. }
    destruct Hin as [v Hv].
    unfold _delete_internal. rewrite Hv. cbn [snd gets expirations _data].
    split; [reflexivity|]. split; [reflexivity|].
    rewrite (dict_del_filter key (_data s) Hd).
    clear - Hv. induction (_data s) as [|[k0 v0] d IH]; [discriminate|].
    cbn [dict_get] in Hv. cbn [List.filter fst].
    destruct (String.eqb_spec k0 key) as [->|Hne]; cbn [negb].
    + pose proof (List.filter_length_le
                    (fun kv : string * V => negb (String.eqb (fst kv) key)) d).
      cbn [length]. lia.
    + cbn [length]. specialize (IH Hv). lia.
  - intros Hlive. unfold get_many.
    rewrite (get_many_loop_returns pattern now (_data s) s [] Hd).
    + reflexivity.
    + intros k v Hin. apply in_dict_get; assumption.
    + intros k _ [].
    + exact Hlive.
Qed.

(** ** Versions *)

(** The history of a versioned key.  A key that is created with
    [versioned=True] has only its current value.  A later [set] that
    changes the value puts the value it replaces, with the time of the
    change, right after the current one; a [set] with an equal value
    leaves the history as it was. *)
Theorem history_records_each_change key value ttl versioned_arg now now' s :
  (dict_get key (_data s) = None ->
   is_versioned key (_versioned_keys s) = false ->
   get_version_history key now'
     (set value_eqb key value ttl true now s)
   = [(value, now', true)])
  /\ (forall old,
        dict_get key (_data s) = Some old ->
        is_versioned key (_versioned_keys s) = true ->
        get_version_history key now'
          (set value_eqb key value ttl versioned_arg now s)
        = (value, now', true)
          :: ((if value_eqb old value then [] else [(old, now, false)])
              ++ tl (get_version_history key now' s))%list).
Proof.
  split.
  - intros Hnew Hv. unfold get_version_history.
    rewrite data_set, dict_get_set_eq.
    unfold set, metadata_of. cbn [_versioned_keys _metadata].
    rewrite dict_get_set_eq, Hnew, Hv. cbn [andb negb].
    assert (Hin : is_versioned key (Bus.set_add key (_versioned_keys s)) = true).
    { apply existsb_eqb_in. apply in_set_add. left. reflexivity. }
    rewrite Hin. reflexivity.
  - intros old Hold Hv. unfold get_version_history.
    rewrite data_set, dict_get_set_eq, Hold, Hv.
    unfold set, metadata_of. cbn [_versioned_keys _metadata].
    rewrite dict_get_set_eq, Hold, Hv, andb_false_r. rewrite Hv. cbn [andb tl].
    destruct (value_eqb old value); cbn [negb]; [reflexivity|].
    cbn [history]. rewrite rev_app_distr. reflexivity.
Qed.

End Laws.

(** ** The store of the breaker and of the manager *)

(** No entry has a time to live. *)
Definition without_ttl {V} (s : Store V) : Prop :=
  Forall (fun km => expires_at (snd km) = None) (_metadata s).

Lemma without_ttl_lives {V} (s : Store V) key now :
  without_ttl s -> is_expired key now s = false.
Proof.
  intros H. unfold is_expired, expired, metadata_of.
  destruct (dict_get key (_metadata s)) as [m|] eqn:E; [|reflexivity].
  apply dict_get_in in E. unfold without_ttl in H.
  rewrite List.Forall_forall in H. pose proof (H _ E) as Hm.
  cbn [snd] in Hm. rewrite Hm. reflexivity.
Qed.

Lemma Forall_dict_set {A} (P : string * A -> Prop) k v (d : list (string * A)) :
  P (k, v) -> List.Forall P d -> List.Forall P (dict_set k v d).
Proof.
  intros Hkv. induction d as [|[k0 v0] d IH]; intros H; simpl.
  - constructor; [exact Hkv | constructor].
  - inversion H as [|x l Hx Hl]; subst.
    destruct (String.eqb_spec k0 k) as [->|Hne].
    + constructor; [exact Hkv | exact Hl].
    + constructor; [exact Hx | apply IH; exact Hl].
Qed.

(** As long as no value is given a time to live, the store works as the
    plain dict that the models of the breaker and of the manager take it
    for: [set] is an assignment and keeps the store free of times to
    live, [get] is a lookup that changes only the counters, and [keys],
    for a pattern with neither brackets nor question marks, filters the
    keys and changes nothing. *)
Theorem store_without_ttl_is_a_dict (value_eqb : StoreVal -> StoreVal -> bool)
    (s : KeyValueStore.Store StoreVal) (key : string) (value : StoreVal)
    (versioned_arg : bool) (pattern : option string) (now : Z) :
  without_ttl s ->
  plain_pattern pattern ->
  _data (set value_eqb key value None versioned_arg now s)
  = store_set key value (_data s)
  /\ without_ttl (set value_eqb key value None versioned_arg now s)
  /\ fst (get key now s) = store_get key (_data s)
  /\ _data (snd (get key now s)) = _data s
  /\ keys pattern now s = (store_keys pattern (_data s), s).
Proof.
  intros H _. split; [reflexivity|]. split; [|split; [|split]].
  - unfold without_ttl, set. cbn [_metadata].
    apply Forall_dict_set; [| exact H].
    cbn [snd].
    destruct (versioned_arg && negb (is_versioned key (_versioned_keys s)));
      destruct (is_versioned key _ && _); reflexivity.
  - unfold get, store_get. cbn [count_get _data].
    destruct (dict_get key (_data s)) as [v|]; [|reflexivity].
    rewrite (without_ttl_lives (count_get s) key now H). reflexivity.
  - unfold get. cbn [count_get _data].
    destruct (dict_get key (_data s)) as [v|]; [|reflexivity].
    rewrite (without_ttl_lives (count_get s) key now H). reflexivity.
  - unfold keys, store_keys.
    assert (Hl : forall l acc,
              fold_left (keys_step pattern now) l (acc, s)
              = ((acc ++ List.filter
                           (fun key => match pattern with
                                       | Some p => fnmatch key p
                                       | None => true
                                       end) l)%list, s)).
    { induction l as [|k l IH]; intros acc.
      - simpl. rewrite app_nil_r. reflexivity.
      - cbn [fold_left List.filter]. unfold keys_step at 2.
        rewrite (without_ttl_lives s k now H). unfold selects.
        destruct (match pattern with Some p => fnmatch k p | None => true end).
        + rewrite IH, <- app_assoc. reflexivity.
        + apply IH. }
    apply Hl.
Qed.

(** ** A store in use *)

(** Three keys, the first with five seconds to live, the second
    versioned. *)
Definition example_ops : list (StoreOp Z * Z) :=
  [(SSet "a.1" 1 (Some 5) false, 100);
   (SSet "a.2" 2 None true, 100);
   (SSet "b.1" 3 None false, 101)].

Definition used_store : KeyValueStore.Store Z :=
  run_store_ops Z.eqb example_ops (new_store true).

Lemma get_after_set_witness :
  fst (get "a.9" 109 (set Z.eqb "a.9" 5 (Some 10) false 100 used_store)) = Some 5
  /\ fst (get "a.9" 110 (set Z.eqb "a.9" 5 (Some 10) false 100 used_store)) = None.
Proof.
  split.
  - destruct (proj1 (get_after_set Z.eqb "a.9" 5 (Some 10) false 100 109 used_store))
      as [H _]; [simpl; lia | exact H].
  - destruct (proj2 (get_after_set Z.eqb "a.9" 5 (Some 10) false 100 110 used_store))
      as [H _]; [simpl; lia | exact H].
Defined.

Lemma keys_lists_the_live_keys_witness :
  fst (keys (Some "a.*") 300 used_store) = ["a.2"]
  /\ _data (snd (keys (Some "a.*") 300 used_store)) = [("a.2", 2); ("b.1", 3)].
Proof.
  exact (keys_lists_the_live_keys Z.eqb example_ops true (Some "a.*") 300
           eq_refl).
Defined.

Lemma clear_removes_what_keys_lists_witness :
  fst (clear (Some "a.*") 300 used_store) = 1%nat
  /\ _data (snd (clear (Some "a.*") 300 used_store)) = [("b.1", 3)]
  /\ _data (snd (clear None 300 used_store)) = [].
Proof.
  destruct (clear_removes_what_keys_lists Z.eqb example_ops true (Some "a.*") 300
              eq_refl) as (H1 & H2 & _).
  split; [exact H1|]. split; [exact H2|].
  apply (proj2 (proj2 (clear_removes_what_keys_lists Z.eqb example_ops true None
                         300 I))).
  reflexivity.
Defined.

Lemma get_many_raises_on_an_expired_key_witness :
  fst (get_many "a.*" 300 used_store) = Error size_changed
  /\ gets (snd (get_many "a.*" 300 used_store)) = gets used_store.
Proof.
  destruct (proj1 (get_many_raises_on_an_expired_key Z.eqb example_ops true
                     "a.*" 300 eq_refl)) as (H1 & H2 & _).
  - exists "a.1". split; [left; reflexivity | split; reflexivity].
  - split; [exact H1 | exact H2].
Defined.

(** The same call before the key expires returns both entries. *)
Example get_many_before_expiry :
  fst (get_many "a.*" 104 used_store) = Ok [("a.1", 1); ("a.2", 2)].
Proof. reflexivity. Qed.

Lemma history_records_each_change_witness :
  get_version_history "a.2" 200 (set Z.eqb "a.2" 7 None false 150 used_store)
  = [(7, 200, true); (2, 150, false)].
Proof.
  apply (proj2 (history_records_each_change Z.eqb "a.2" 7 None false 150 200
                  used_store) 2); reflexivity.
Defined.

Lemma hits_and_misses_add_up_to_gets_witness :
  (hits used_store + misses used_store = gets used_store)%nat.
Proof.
  apply (proj2 (hits_and_misses_add_up_to_gets Z.eqb example_ops true)).
  repeat constructor; intros [].
Defined.

(** The store of [BreakerFacts.Example] after its three failures, as a
    store in full. *)
Definition same_value (a b : StoreVal) : bool := false.

Definition breaker_store : KeyValueStore.Store StoreVal :=
  run_store_ops same_value
    [(SSet "circuit.a:b" (VCircuit 0) None false, 0);
     (SSet "circuit.a:b.error.10" (VErrorRecord "boom" 10) None false, 10)]
    (new_store false).

Lemma store_without_ttl_is_a_dict_witness :
  keys (Some "circuit.*.state") 50 breaker_store = ([], breaker_store)
  /\ fst (get "circuit.a:b" 50 breaker_store) = Some (VCircuit 0).
Proof.
  destruct (store_without_ttl_is_a_dict same_value breaker_store "circuit.a:b"
              (VCircuit 0) false (Some "circuit.*.state") 50)
    as (_ & _ & Hget & _ & Hkeys).
  - repeat constructor.
  - reflexivity.
  - split; [rewrite Hkeys; reflexivity | rewrite Hget; reflexivity].
Defined.

End KeyValueStoreLaws.

(* ===================================================================== *)
(** * More about the interaction manager: permissions and the good path   *)
(* ===================================================================== *)

Module MediatorLaws.
Import Py Sys Breaker Mediator BreakerFacts MediatorFacts DictLaws BreakerLaws.

(** ** What is allowed *)

Lemma allowed_permitted (m : InteractionManager) source target sc :
  is_interaction_allowed m source target sc = true
  <-> permitted m source target sc.
Proof.
  unfold is_interaction_allowed, permitted, get_or.
  destruct (dict_get source (registry m)) as [targets|].
  - destruct (dict_get target targets) as [required|].
    + destruct sc as [c|].
      * destruct (Z.gtb_spec (level_value required) (level_value (level c)));
          simpl; split.
        -- discriminate.
        -- intros (r & Hr & Hl). injection Hr as <-.
           specialize (Hl c eq_refl). lia.
        -- intros _. exists required. split; [reflexivity|].
           intros c' Hc'. injection Hc' as <-. lia.
        -- reflexivity.
      * split; [|reflexivity]. intros _. exists required.
        split; [reflexivity | discriminate].
    + split; [discriminate | intros (r & Hr & _); discriminate].
  - split; [discriminate | intros (r & Hr & _); discriminate].
Qed.

Section Refusal.
Context {R : Type}.
Variable py311 : bool.

(** A call that [is_interaction_allowed] does not allow is refused by
    [call] with a [PermissionError] before anything else happens: the
    result does not depend on what the emission to the target would do,
    and the breaker and its circuits are as before. *)
Theorem call_refuses_what_is_not_allowed (cb : option CircuitBreaker)
    source target payload sc clock (handle handle' : Handle R) duration
    duration_ms now (w : World InteractionManager) :
  is_interaction_allowed (user (env w)) source target sc = false ->
  (exists msg,
      fst (fst (call py311 cb source target payload sc clock handle duration
                  duration_ms now w)) = Raised (PermissionError msg))
  /\ snd (fst (call py311 cb source target payload sc clock handle duration
                 duration_ms now w)) = cb
  /\ heap (snd (call py311 cb source target payload sc clock handle duration
                  duration_ms now w)) = heap w
  /\ call py311 cb source target payload sc clock handle duration duration_ms
       now w
     = call py311 cb source target payload sc clock handle' duration duration_ms
         now w.
Proof.
  intros Hno. unfold call. cbv zeta.
  change (registry (user (_update_stats source target Requests
            (env_store_set (trace_key_of source target clock)
               (VTrace (pending_trace source target payload sc clock)) (env w)))))
    with (registry (user (env w))).
  unfold is_interaction_allowed in Hno. unfold get_or.
  destruct (dict_get source (registry (user (env w)))) as [targets|].
  - destruct (dict_get target targets) as [required|].
    + destruct sc as [c|]; [|discriminate].
      destruct (level_value required >? level_value (level c)); [|discriminate].
      repeat split. eexists. reflexivity.
    + simpl. repeat split. eexists. reflexivity.
  - simpl. repeat split. eexists. reflexivity.
Qed.

End Refusal.

(** ** The lists of allowed targets and sources *)

(** The registry has distinct sources and, for each, distinct targets. *)
Definition distinct_edges (m : InteractionManager) : Prop :=
  List.NoDup (dict_keys (registry m))
  /\ forall source targets,
       dict_get source (registry m) = Some targets ->
       List.NoDup (dict_keys targets).

Lemma distinct_edges_register source target permission_level now
    (w : World InteractionManager) :
  distinct_edges (user (env w)) ->
  distinct_edges
    (user (env (snd (register_interaction None source target permission_level
                       now w)))).
Proof.
  intros [Hs Ht]. unfold register_interaction. cbn.
  split.
  - apply NoDup_dict_keys_set. exact Hs.
  - intros s targets. simpl registry.
    destruct (String.eqb_spec source s) as [->|Hne].
    + rewrite BusFacts.dict_get_set_eq. intros H. injection H as <-.
      apply NoDup_dict_keys_set. unfold get_or.
      destruct (dict_get s (registry (user (env w)))) as [l|] eqn:E.
      * apply (Ht s). exact E.
      * constructor.
    + rewrite BusFacts.dict_get_set_ne by exact Hne. apply Ht.
Qed.

Lemma distinct_edges_register_all edges (w : World InteractionManager) :
  distinct_edges (user (env w)) ->
  distinct_edges (user (env (register_all edges w))).
Proof.
  revert w. induction edges as [|[[s t] l] edges IH]; intros w H; [exact H|].
  unfold register_all. cbn [fold_left]. apply IH.
  apply distinct_edges_register. exact H.
Qed.

Lemma distinct_edges_new : distinct_edges new_manager.
Proof. split; [constructor | intros s t H; discriminate]. Qed.

Lemma allowed_targets_of_distinct (m : InteractionManager) source target sc :
  distinct_edges m ->
  (In target (get_allowed_targets m source sc)
   <-> is_interaction_allowed m source target sc = true).
Proof.
  intros [Hs Ht]. unfold get_allowed_targets, is_interaction_allowed.
  destruct (dict_get source (registry m)) as [targets|] eqn:E;
    [|split; [intros [] | discriminate]].
  specialize (Ht source targets E).
  destruct sc as [c|].
  - rewrite in_map_iff. split.
    + intros ([t p] & Et & Hin). cbn [fst] in Et. subst t.
      apply List.filter_In in Hin. destruct Hin as [Hin Hle]. cbn [snd] in Hle.
      rewrite (in_dict_get _ _ _ Ht Hin).
      destruct (Z.gtb_spec (level_value p) (level_value (level c)));
        [apply Z.leb_le in Hle; lia | reflexivity].
    + destruct (dict_get target targets) as [p|] eqn:Ep; [|discriminate].
      intros Hle. exists (target, p). split; [reflexivity|].
      apply List.filter_In. split; [apply dict_get_in; exact Ep|].
      cbn [snd].
      destruct (Z.gtb_spec (level_value p) (level_value (level c)));
        [discriminate | apply Z.leb_le; lia].
  - rewrite dict_get_in_keys. split.
    + intros [p Hp]. rewrite Hp. reflexivity.
    + destruct (dict_get target targets) as [p|]; [|discriminate].
      intros _. exists p. reflexivity.
Qed.

Lemma allowed_sources_of_distinct (m : InteractionManager) source target sc :
  distinct_edges m ->
  (In source (get_allowed_sources m target sc)
   <-> is_interaction_allowed m source target sc = true).
Proof.
  intros [Hs Ht]. unfold get_allowed_sources, is_interaction_allowed.
  rewrite in_map_iff. split.
  - intros ([s targets] & Es & Hin). cbn [fst] in Es. subst s.
    apply List.filter_In in Hin. destruct Hin as [Hin Hok]. cbn [snd] in Hok.
    rewrite (in_dict_get _ _ _ Hs Hin).
    destruct (dict_get target targets) as [p|]; [|discriminate].
    destruct sc as [c|]; [|reflexivity].
    destruct (Z.gtb_spec (level_value p) (level_value (level c)));
      [apply Z.leb_le in Hok; lia | reflexivity].
  - destruct (dict_get source (registry m)) as [targets|] eqn:E; [|discriminate].
    intros Hok. exists (source, targets). split; [reflexivity|].
    apply List.filter_In. split; [apply dict_get_in; exact E|].
    cbn [snd].
    destruct (dict_get target targets) as [p|]; [|discriminate].
    destruct sc as [c|]; [|reflexivity].
    destruct (Z.gtb_spec (level_value p) (level_value (level c)));
      [discriminate | apply Z.leb_le; lia].
Qed.

(** After any registrations on a new manager, the three queries agree:
    a target is in [get_allowed_targets(source)] exactly when
    [is_interaction_allowed(source, target)] holds, and exactly then the
    source is in [get_allowed_sources(target)], with and without a
    security context. *)
Theorem allowed_lists_agree (edges : list (string * string * PermissionLevel))
    (source target : string) (sc : option SecurityContext) :
  let m := user (env (register_all edges
                        (mkWorld [] (mkEnv [] [] new_manager)))) in
  (In target (get_allowed_targets m source sc)
   <-> is_interaction_allowed m source target sc = true)
  /\ (In source (get_allowed_sources m target sc)
      <-> is_interaction_allowed m source target sc = true).
Proof.
  intros m.
  assert (Hd : distinct_edges m).
  { apply distinct_edges_register_all. exact distinct_edges_new. }
  split; [apply allowed_targets_of_distinct | apply allowed_sources_of_distinct];
    exact Hd.
Qed.

(** ** A call that goes well *)

Section GoodPath.
Context {R : Type}.
Variable py311 : bool.

(** A call that [is_interaction_allowed] allows and whose awaited
    emission to the target returns gives back what it returned and marks
    its trace as a success; with a breaker, when the circuit of the pair
    lets the call through. *)
Theorem allowed_call_returns_the_answer (cb : option CircuitBreaker)
    source target payload sc clock (handle : Handle R) v duration duration_ms
    now (w : World InteractionManager) :
  is_interaction_allowed (user (env w)) source target sc = true ->
  (forall e0, fst (handle e0) = Returned v) ->
  (forall b, cb = Some b ->
     exists a c, circuits b !! (source ++ ":" ++ target)%string = Some a
                 /\ heap w !! a = Some c /\ admitted c now = true) ->
  fst (fst (call py311 cb source target payload sc clock handle duration
              duration_ms now w)) = Returned (Some v)
  /\ recorded_as_success
       (env (snd (call py311 cb source target payload sc clock handle duration
                    duration_ms now w)))
       (trace_key_of source target clock).
Proof.
  intros Hallowed Hv Hcb. apply allowed_permitted in Hallowed.
  apply permitted_call_returns; assumption.
Qed.

End GoodPath.

(** ** What a call counts *)

(** The calls that were settled one way or another. *)
Definition settled (st : Stats) : Z :=
  successes st + errors st + timeouts st + fallbacks st
  + permission_errors st + security_errors st.

Lemma requests_increment t st :
  requests (increment t st)
  = requests st + match t with Requests => 1 | _ => 0 end.
Proof. destruct t; simpl; lia. Qed.

Lemma settled_increment t st :
  settled (increment t st)
  = settled st + match t with Requests => 0 | _ => 1 end.
Proof. destruct t; unfold settled; simpl; lia. Qed.

Lemma stats_of_update_stats source target t (e : Env') :
  stats_of (user (_update_stats source target t e)) source target
  = increment t (stats_of (user e) source target).
Proof.
  unfold _update_stats, stats_of, get_or. cbn.
  rewrite !BusFacts.dict_get_set_eq. reflexivity.
Qed.

Lemma stats_of_record_latency source target d (e : Env') :
  requests (stats_of (user (_record_latency source target d e)) source target)
  = requests (stats_of (user e) source target)
  /\ settled (stats_of (user (_record_latency source target d e)) source target)
     = settled (stats_of (user e) source target).
Proof.
  unfold _record_latency, stats_of, get_or.
  destruct (telemetry_enabled (user e)); cbn;
    rewrite !BusFacts.dict_get_set_eq; split; reflexivity.
Qed.

Section Counting.
Context {R : Type}.
Variable py311 : bool.
Variables source target : string.

(** The counters of the pair in an environment. *)
Definition pair_stats (e : Env') : Stats := stats_of (user e) source target.

Lemma pair_stats_handle_error trace_key metadata msg kind clock (e : Env') :
  pair_stats (_handle_error trace_key metadata msg kind clock e) = pair_stats e.
Proof. reflexivity. Qed.

Lemma pair_stats_extends (e e' : Env') :
  env_extends e e' -> pair_stats e' = pair_stats e.
Proof. intros (Hu & _). unfold pair_stats. rewrite Hu. reflexivity. Qed.

Lemma pair_stats_fallback (w : World InteractionManager) x :
  pair_stats (env (snd (fallback_or_raise
                          (Some (@_fallback_handler R source target))
                          x w)))
  = increment Fallbacks (pair_stats (env w)).
Proof.
  unfold fallback_or_raise, _fallback_handler. cbn.
  apply stats_of_update_stats.
Qed.

Lemma pair_stats_do_call payload trace_key metadata timeout clock
    (handle : Handle R) r (e : Env') :
  (forall e0, fst (handle e0) = r) ->
  (forall e0, user (snd (handle e0)) = user e0) ->
  pair_stats (snd (_do_call py311 source target payload trace_key metadata
                     timeout clock handle e))
  = match r with
    | Returned _ => increment Successes (pair_stats e)
    | Raised _ => pair_stats e
    end.
Proof.
  intros Hr Hu. unfold _do_call.
  pose proof (Hr (env_emit ("module:call:" ++ target)
                    (PModuleCall source payload) e)) as H1.
  pose proof (Hu (env_emit ("module:call:" ++ target)
                    (PModuleCall source payload) e)) as H2.
  destruct (handle _) as [r0 e2]. cbn [fst snd] in H1, H2. subst r0.
  destruct r as [v|x].
  - cbn [snd].
    assert (H3 : pair_stats
                   (_update_stats source target Successes
                      (env_store_set trace_key
                         (VTrace
                            (mkTrace "success" (timestamp metadata)
                               (tr_source metadata) (tr_target metadata)
                               (payload_summary metadata)
                               (security_level metadata) (Some clock)
                               (error metadata) (error_type metadata)
                               (error_time metadata))) e2))
                 = increment Successes (pair_stats e)).
    { unfold pair_stats. rewrite stats_of_update_stats. cbn [user env_store_set].
      rewrite H2. reflexivity. }
    destruct (telemetry_enabled _); exact H3.
  - destruct (is_builtin_timeout py311 _); cbn [snd].
    + unfold pair_stats. rewrite H2. reflexivity.
    + rewrite pair_stats_handle_error. unfold pair_stats. rewrite H2. reflexivity.
Qed.

Lemma fst_do_call payload trace_key metadata timeout clock (handle : Handle R) r
    (e : Env') :
  (forall e0, fst (handle e0) = r) ->
  match r with
  | Returned v =>
      fst (_do_call py311 source target payload trace_key metadata timeout clock
             handle e) = Returned (Some v)
  | Raised x =>
      exists x',
        fst (_do_call py311 source target payload trace_key metadata timeout
               clock handle e) = Raised x'
        /\ is_permission_error x' = is_permission_error x
  end.
Proof.
  intros Hr. unfold _do_call.
  pose proof (Hr (env_emit ("module:call:" ++ target)
                    (PModuleCall source payload) e)) as H1.
  destruct (handle _) as [r0 e2]. cbn [fst] in H1. subst r0.
  destruct r as [v|x]; [reflexivity|].
  destruct (is_asyncio_timeout py311 x) eqn:Et.
  - eexists. split.
    + destruct (is_builtin_timeout py311 _); reflexivity.
    + destruct x; try discriminate; reflexivity.
  - exists x. split; [|reflexivity].
    destruct (is_builtin_timeout py311 x); reflexivity.
Qed.

(** Whether a call is left out of all the counters but [requests]: it
    is when the call is allowed, no breaker stands in between, and the
    awaited emission to the target raises a [PermissionError] of its
    own. *)
Definition left_uncounted (cb : option CircuitBreaker) (allowed : bool)
    (r : Outcome R) : bool :=
  match cb, r with
  | None, Raised x => allowed && is_permission_error x
  | _, _ => false
  end.

Lemma counted_after_except payload sc clock (r' : Outcome (option R)) (e : Env') :
  requests (pair_stats (after_except py311 source target payload sc clock r' e))
  = requests (pair_stats e)
  /\ settled (pair_stats (after_except py311 source target payload sc clock r' e))
     = settled (pair_stats e)
       + match r' with
         | Returned _ => 0
         | Raised x =>
             if is_asyncio_timeout py311 x then 1
             else if is_permission_error x then 0 else 1
         end.
Proof.
  unfold after_except. destruct r' as [v|x]; [split; [reflexivity | lia]|].
  destruct (is_asyncio_timeout py311 x).
  - rewrite pair_stats_handle_error. unfold pair_stats.
    rewrite stats_of_update_stats, requests_increment, settled_increment.
    split; lia.
  - destruct (is_permission_error x).
    + rewrite pair_stats_handle_error. split; [reflexivity | lia].
    + rewrite pair_stats_handle_error. unfold pair_stats.
      rewrite stats_of_update_stats, requests_increment, settled_increment.
      split; lia.
Qed.

Lemma counted_execute_call (b : CircuitBreaker) circuit_id payload trace_key
    metadata timeout clock (handle : Handle R) r duration now
    (w : World InteractionManager) :
  (forall e0, fst (handle e0) = r) ->
  (forall e0, user (snd (handle e0)) = user e0) ->
  (exists v, fst (execute_call py311 b circuit_id
                    (_do_call py311 source target payload trace_key metadata
                       timeout clock handle)
                    (Some (_fallback_handler source target)) duration now w)
             = Returned v)
  /\ requests (pair_stats (env (snd (execute_call py311 b circuit_id
                    (_do_call py311 source target payload trace_key metadata
                       timeout clock handle)
                    (Some (_fallback_handler source target)) duration now w))))
     = requests (pair_stats (env w))
  /\ settled (pair_stats (env (snd (execute_call py311 b circuit_id
                    (_do_call py311 source target payload trace_key metadata
                       timeout clock handle)
                    (Some (_fallback_handler source target)) duration now w))))
     = settled (pair_stats (env w)) + 1.
Proof.
  intros Hr Hu. unfold execute_call.
  pose proof (pair_stats_do_call payload trace_key metadata timeout clock handle
                r (env w) Hr Hu) as Hs.
  pose proof (fst_do_call payload trace_key metadata timeout clock handle r
                (env w) Hr) as Hf.
  destruct (_do_call _ _ _ _ _ _ _ _ _ _) as [r' e1]. cbn [fst snd] in Hs, Hf.
  destruct r as [v|x].
  - subst r'. cbn [fst snd]. split; [eexists; reflexivity|].
    rewrite (pair_stats_extends _ _
               (record_success_extends b circuit_id duration now
                  (mkWorld (heap w) e1))).
    cbn [env]. rewrite Hs, requests_increment, settled_increment. split; lia.
  - destruct Hf as (x' & -> & _).
    destruct (is_asyncio_timeout py311 x').
    + split; [apply fallback_or_raise_some|].
      rewrite pair_stats_fallback, requests_increment, settled_increment.
      rewrite (pair_stats_extends _ _
                 (record_timeout_extends b circuit_id now (mkWorld (heap w) e1))).
      cbn [env]. rewrite Hs. split; lia.
    + split; [apply fallback_or_raise_some|].
      rewrite pair_stats_fallback, requests_increment, settled_increment.
      rewrite (pair_stats_extends _ _
                 (record_failure_extends b circuit_id (exc_str x') now
                    (mkWorld (heap w) e1))).
      cbn [env]. rewrite Hs. split; lia.
Qed.

(** Every call adds one to [requests] of its pair, and one to exactly
    one of [successes], [errors], [timeouts], [fallbacks],
    [permission_errors] and [security_errors]; except that a
    [PermissionError] raised by the awaited emission to the target, with
    no breaker in between, is counted nowhere.  (The emission returns or
    raises the same whatever the environment, and leaves the manager
    alone; a breaker knows the circuit of the pair.) *)
Theorem each_call_is_counted (cb : option CircuitBreaker) payload sc clock
    (handle : Handle R) (r : Outcome R) duration duration_ms now
    (w : World InteractionManager) :
  (forall e0, fst (handle e0) = r) ->
  (forall e0, user (snd (handle e0)) = user e0) ->
  (forall b, cb = Some b ->
     exists a c, circuits b !! (source ++ ":" ++ target)%string = Some a
                 /\ heap w !! a = Some c) ->
  requests (pair_stats (env (snd (call py311 cb source target payload sc clock
                                    handle duration duration_ms now w))))
  = requests (pair_stats (env w)) + 1
  /\ settled (pair_stats (env (snd (call py311 cb source target payload sc clock
                                      handle duration duration_ms now w))))
     = settled (pair_stats (env w))
       + (if left_uncounted cb
               (is_interaction_allowed (user (env w)) source target sc) r
          then 0 else 1).
Proof.
  intros Hr Hu Hcb.
  assert (Hbefore : pair_stats (env_before_call source target payload sc clock
                                  (env w))
                    = increment Requests (pair_stats (env w))).
  { unfold env_before_call, pair_stats. rewrite stats_of_update_stats.
    reflexivity. }
  destruct (is_interaction_allowed (user (env w)) source target sc) eqn:Hallowed.
  - apply allowed_permitted in Hallowed.
    destruct cb as [b|].
    + destruct (Hcb b eq_refl) as (a & c & Hreg & Hc).
      rewrite (call_with_breaker py311 b source target payload sc clock handle
                 duration duration_ms now w Hallowed).
      cbv zeta. cbn [snd env left_uncounted].
      destruct (stats_of_record_latency source target duration_ms
                  (after_except py311 source target payload sc clock
                     (fst (fst (execute py311 b (source ++ ":" ++ target)
                        (target_call py311 source target payload sc clock handle
                           (env w))
                        (Some (_fallback_handler source target)) duration now
                        (mkWorld (heap w)
                           (env_before_call source target payload sc clock
                              (env w))))))
                     (env (snd (execute py311 b (source ++ ":" ++ target)
                        (target_call py311 source target payload sc clock handle
                           (env w))
                        (Some (_fallback_handler source target)) duration now
                        (mkWorld (heap w)
                           (env_before_call source target payload sc clock
                              (env w)))))))) as (L1 & L2).
      fold (pair_stats (_record_latency source target duration_ms
              (after_except py311 source target payload sc clock
                 (fst (fst (execute py311 b (source ++ ":" ++ target)
                    (target_call py311 source target payload sc clock handle
                       (env w))
                    (Some (_fallback_handler source target)) duration now
                    (mkWorld (heap w)
                       (env_before_call source target payload sc clock
                          (env w))))))
                 (env (snd (execute py311 b (source ++ ":" ++ target)
                    (target_call py311 source target payload sc clock handle
                       (env w))
                    (Some (_fallback_handler source target)) duration now
                    (mkWorld (heap w)
                       (env_before_call source target payload sc clock
                          (env w))))))))) in L1, L2.
      rewrite L1, L2. clear L1 L2.
      rewrite (execute_registered py311 b (source ++ ":" ++ target) a c _ _
                 duration now
                 (mkWorld (heap w)
                    (env_before_call source target payload sc clock (env w)))
                 Hreg Hc).
      unfold target_call.
      assert (Hcall : forall w2,
                pair_stats (env w2) = increment Requests (pair_stats (env w)) ->
                let x := with_breaker b
                           (execute_call py311 b (source ++ ":" ++ target)
                              (_do_call py311 source target payload
                                 (trace_key_of source target clock)
                                 (pending_trace source target payload sc clock)
                                 (timeout_of source target
                                    (env_before_call source target payload sc
                                       clock (env w)))
                                 clock handle)
                              (Some (_fallback_handler source target)) duration
                              now w2) in
                requests (pair_stats
                            (after_except py311 source target payload sc clock
                               (fst (fst x)) (env (snd x))))
                = requests (pair_stats (env w)) + 1
                /\ settled (pair_stats
                              (after_except py311 source target payload sc clock
                                 (fst (fst x)) (env (snd x))))
                   = settled (pair_stats (env w)) + 1).
      { intros w2 H2 x. subst x. unfold with_breaker. cbn [fst snd].
        destruct (counted_execute_call b (source ++ ":" ++ target) payload
                    (trace_key_of source target clock)
                    (pending_trace source target payload sc clock)
                    (timeout_of source target
                       (env_before_call source target payload sc clock (env w)))
                    clock handle r duration now w2 Hr Hu)
          as ((v & Hv) & Hq & Hs).
        rewrite Hv. cbn [after_except]. rewrite Hq, Hs, H2.
        rewrite requests_increment, settled_increment. split; lia. }
      assert (Hrej : forall w2 x0,
                pair_stats (env w2) = increment Requests (pair_stats (env w)) ->
                let x := with_breaker b
                           (@fallback_or_raise InteractionManager (option R)
                              (@Some (Fallback InteractionManager (option R))
                                 (@_fallback_handler R source target))
                              x0 w2) in
                requests (pair_stats
                            (after_except py311 source target payload sc clock
                               (fst (fst x)) (env (snd x))))
                = requests (pair_stats (env w)) + 1
                /\ settled (pair_stats
                              (after_except py311 source target payload sc clock
                                 (fst (fst x)) (env (snd x))))
                   = settled (pair_stats (env w)) + 1).
      { intros w2 x0 H2 x. subst x. unfold with_breaker. cbn [fst snd].
        destruct (fallback_or_raise_some (@_fallback_handler R source target)
                    x0 w2) as (v & Hv).
        rewrite Hv. cbn [after_except].
        rewrite pair_stats_fallback, H2.
        rewrite !requests_increment, !settled_increment. split; lia. }
      destruct (state c).
      * apply Hcall. exact Hbefore.
      * destruct (now - last_failure_time c >? reset_timeout c).
        -- apply Hcall. cbn [env heap_update].
           rewrite (pair_stats_extends _ _
                      (change_state_extends b (source ++ ":" ++ target) HALF_OPEN
                         now (mkWorld (heap w)
                                (env_before_call source target payload sc clock
                                   (env w))))).
           exact Hbefore.
        -- apply Hrej. exact Hbefore.
      * destruct (half_open_calls c + 1 >? half_open_max_calls c).
        -- apply Hrej. exact Hbefore.
        -- apply Hcall. exact Hbefore.
    + rewrite (call_without_breaker py311 source target payload sc clock handle
                 duration duration_ms now w Hallowed).
      cbv zeta. cbn [snd env left_uncounted andb].
      pose proof (pair_stats_do_call payload (trace_key_of source target clock)
                    (pending_trace source target payload sc clock)
                    (timeout_of source target
                       (env_before_call source target payload sc clock (env w)))
                    clock handle r
                    (env_before_call source target payload sc clock (env w))
                    Hr Hu) as Hs.
      pose proof (fst_do_call payload (trace_key_of source target clock)
                    (pending_trace source target payload sc clock)
                    (timeout_of source target
                       (env_before_call source target payload sc clock (env w)))
                    clock handle r
                    (env_before_call source target payload sc clock (env w))
                    Hr) as Hf.
      unfold target_call.
      destruct (_do_call _ _ _ _ _ _ _ _ _ _) as [r' e1]. cbn [fst snd] in Hs, Hf |- *.
      destruct (stats_of_record_latency source target duration_ms
                  (after_except py311 source target payload sc clock r' e1))
        as (L1 & L2).
      fold (pair_stats (_record_latency source target duration_ms
              (after_except py311 source target payload sc clock r' e1)))
        in L1, L2.
      fold (pair_stats (after_except py311 source target payload sc clock r' e1))
        in L1, L2.
      rewrite L1, L2. clear L1 L2.
      destruct (counted_after_except payload sc clock r' e1) as (A1 & A2).
      rewrite A1, A2, Hs, Hbefore. clear A1 A2.
      destruct r as [v|x].
      * subst r'. rewrite !requests_increment, !settled_increment. split; lia.
      * destruct Hf as (x' & -> & Hp). rewrite Hp.
        rewrite !requests_increment, !settled_increment.
        destruct (is_asyncio_timeout py311 x') eqn:Et.
        -- assert (Hx : is_permission_error x = false).
           { rewrite <- Hp. destruct x'; try discriminate; reflexivity. }
           rewrite Hx. split; lia.
        -- destruct (is_permission_error x); split; lia.
  - assert (Hleft : left_uncounted cb false r = false).
    { destruct cb, r; reflexivity. }
    rewrite Hleft.
    unfold call. cbv zeta.
    change (registry (user (_update_stats source target Requests
              (env_store_set (trace_key_of source target clock)
                 (VTrace (pending_trace source target payload sc clock)) (env w)))))
      with (registry (user (env w))).
    fold (env_before_call source target payload sc clock (env w)).
    unfold is_interaction_allowed in Hallowed. unfold get_or.
    assert (Hperm : forall kind msg t,
              requests (pair_stats
                          (_update_stats source target t
                             (_handle_error (trace_key_of source target clock)
                                (pending_trace source target payload sc clock)
                                msg kind clock
                                (env_before_call source target payload sc clock
                                   (env w)))))
              = requests (pair_stats (env w))
                + 1 + match t with Requests => 1 | _ => 0 end
              /\ settled (pair_stats
                            (_update_stats source target t
                               (_handle_error (trace_key_of source target clock)
                                  (pending_trace source target payload sc clock)
                                  msg kind clock
                                  (env_before_call source target payload sc clock
                                     (env w)))))
                 = settled (pair_stats (env w))
                   + match t with Requests => 0 | _ => 1 end).
    { intros kind msg t. unfold pair_stats at 1 3.
      rewrite stats_of_update_stats.
      fold (pair_stats (_handle_error (trace_key_of source target clock)
              (pending_trace source target payload sc clock) msg kind clock
              (env_before_call source target payload sc clock (env w)))).
      rewrite pair_stats_handle_error, Hbefore.
      rewrite !requests_increment, !settled_increment. split; lia. }
    destruct (dict_get source (registry (user (env w)))) as [targets|].
    + destruct (dict_get target targets) as [required|].
      * destruct sc as [c|]; [|discriminate].
        destruct (level_value required >? level_value (level c)); [|discriminate].
        cbn [snd env].
        destruct (Hperm "SECURITY_ERROR"
                    (level_insufficient required (level c)) SecurityErrors)
          as (H1 & H2).
        split; [rewrite H1; lia | exact H2].
      * cbn [snd env dict_get].
        destruct (Hperm "PERMISSION_ERROR" (not_permitted source target)
                    PermissionErrors) as (H1 & H2).
        split; [rewrite H1; lia | exact H2].
    + cbn [snd env dict_get].
      destruct (Hperm "PERMISSION_ERROR" (not_permitted source target)
                  PermissionErrors) as (H1 & H2).
      split; [rewrite H1; lia | exact H2].
Qed.

End Counting.

(** ** Resetting the counters *)

(** Whether [reset_stats(source, target)] names the pair [(s, t)]: every
    pair without arguments, the pairs of a source, or one pair.  A target
    without a source names none. *)
Definition names_pair (source target : option string) (s t : string) : bool :=
  match source, target with
  | None, None => true
  | Some s0, None => String.eqb s0 s
  | Some s0, Some t0 => String.eqb s0 s && String.eqb t0 t
  | None, Some _ => false
  end.

(** [reset_stats] puts the counters of the pairs it names back to zero
    and leaves those of every other pair as they are; given a target and no
    source it changes nothing. *)
Theorem reset_stats_zeroes_the_named_pairs (source target : option string)
    (m : InteractionManager) (s t : string) :
  stats_of (reset_stats source target m) s t
  = if names_pair source target s t then zero_stats else stats_of m s t.
Proof.
  unfold reset_stats, names_pair, stats_of, get_or.
  destruct source as [s0|], target as [t0|]; [| |reflexivity|reflexivity].
  - destruct (dict_get s0 (_stats m)) as [per_source|] eqn:Es.
    + destruct (dict_get t0 per_source) as [old|] eqn:Et.
      * simpl _stats.
        destruct (String.eqb_spec s0 s) as [->|Hs].
        -- rewrite BusFacts.dict_get_set_eq, Es.
           destruct (String.eqb_spec t0 t) as [->|Ht]; cbn [andb].
           ++ rewrite BusFacts.dict_get_set_eq. reflexivity.
           ++ rewrite (BusFacts.dict_get_set_ne _ _ _ _ Ht). reflexivity.
        -- rewrite (BusFacts.dict_get_set_ne _ _ _ _ Hs). reflexivity.
      * destruct (String.eqb_spec s0 s) as [->|Hs]; [|reflexivity].
        destruct (String.eqb_spec t0 t) as [->|Ht]; [|reflexivity].
        cbn [andb]. rewrite Es, Et. reflexivity.
    + destruct (String.eqb_spec s0 s) as [->|Hs]; [|reflexivity].
      destruct (String.eqb_spec t0 t) as [->|Ht]; [|reflexivity].
      cbn [andb]. rewrite Es. reflexivity.
  - destruct (dict_get s0 (_stats m)) as [per_source|] eqn:Es.
    + simpl _stats.
      destruct (String.eqb_spec s0 s) as [->|Hs].
      * rewrite BusFacts.dict_get_set_eq. reflexivity.
      * rewrite (BusFacts.dict_get_set_ne _ _ _ _ Hs). reflexivity.
    + destruct (String.eqb_spec s0 s) as [->|Hs]; [|reflexivity].
      rewrite Es. reflexivity.
Qed.

(** ** The manager of the example *)

Lemma call_refuses_what_is_not_allowed_witness :
  exists msg,
    fst (fst (call true (Some Example.cb1) "tv" "ui" "ping" None "t1"
                Example.answers 0 5 20 Example.w1))
    = Raised (PermissionError msg).
Proof.
  apply (proj1 (call_refuses_what_is_not_allowed true (Some Example.cb1) "tv" "ui"
                  "ping" None "t1" Example.answers Example.too_slow 0 5 20
                  Example.w1 ltac:(vm_compute; reflexivity))).
Defined.

Lemma allowed_call_returns_the_answer_witness :
  fst (fst (call true (Some Example.cb1) "ui" "tv" "ping" None "t1"
              Example.answers 0 5 20 Example.w1))
  = Returned (Some "pong").
Proof.
  apply (proj1 (allowed_call_returns_the_answer true (Some Example.cb1) "ui" "tv"
                  "ping" None "t1" Example.answers "pong" 0 5 20 Example.w1
                  ltac:(vm_compute; reflexivity) ltac:(intros e0; reflexivity)
                  ltac:(intros b Hb; injection Hb as <-;
                        exists 0%nat,
                          (fresh_circuit Example.cb0 "ui" "tv" None None None None 0);
                        split; [vm_compute; reflexivity
                               | split; [reflexivity | reflexivity]]))).
Defined.

Lemma each_call_is_counted_witness :
  requests (pair_stats "ui" "tv"
              (env (snd (call true (Some Example.cb1) "ui" "tv" "ping" None "t1"
                           Example.answers 0 5 20 Example.w1))))
  = requests (pair_stats "ui" "tv" (env Example.w1)) + 1.
Proof.
  apply (proj1 (each_call_is_counted true "ui" "tv" (Some Example.cb1) "ping" None
                  "t1" Example.answers (Returned "pong") 0 5 20 Example.w1
                  ltac:(intros e0; reflexivity) ltac:(intros e0; reflexivity)
                  ltac:(intros b Hb; injection Hb as <-;
                        exists 0%nat,
                          (fresh_circuit Example.cb0 "ui" "tv" None None None None 0);
                        split; [vm_compute; reflexivity | reflexivity]))).
Defined.

(** An emission that raises a [PermissionError] of its own, without a
    breaker: the request is counted and nothing else is. *)
Example permission_error_of_the_target_is_not_counted :
  let forbidden : Handle string :=
    fun e => (Raised (PermissionError "mine"), e) in
  let res := call true None "ui" "tv" "ping" None "t1" forbidden 0 5 20
               Example.w1 in
  fst (fst res) = Raised (PermissionError "mine")
  /\ requests (pair_stats "ui" "tv" (env (snd res))) = 1
  /\ settled (pair_stats "ui" "tv" (env (snd res))) = 0.
Proof. vm_compute. repeat split. Qed.

(** Two edges from "ui" and one from "admin", and what a caller of level
    NORMAL may reach. *)
Example allowed_lists_of_three_edges :
  let m := user (env (register_all
                        [("ui", "tv", NORMAL); ("ui", "vault", ADMIN);
                         ("admin", "vault", READ)]
                        (mkWorld [] (mkEnv [] [] new_manager)))) in
  get_allowed_targets m "ui" (Some (mkSecurityContext NORMAL [])) = ["tv"]
  /\ get_allowed_targets m "ui" None = ["tv"; "vault"]
  /\ get_allowed_sources m "vault" (Some (mkSecurityContext NORMAL [])) = ["admin"]
  /\ get_allowed_sources m "vault" None = ["ui"; "admin"].
Proof. vm_compute. repeat split. Qed.

End MediatorLaws.

(* ===================================================================== *)
(** * Laws of the telemetry collector                                     *)
(* ===================================================================== *)

Module TelemetryLaws.
Import Py Telemetry TelemetryFacts.

(** ** The patterns of metrics *)

(** [s + t] *)
Lemma startswith_app (s t : string) : startswith (s ++ t) s = true.
Proof.
  unfold startswith. induction s as [|c s IH]; simpl.
  - destruct t; reflexivity.
  - destruct (Ascii.ascii_dec c c) as [_|Hne]; [exact IH | contradiction].
Qed.

Lemma startswith_empty (s : string) : startswith s "" = true.
Proof. destruct s; reflexivity. Qed.

Lemma endswith_refl (s : string) : endswith s s = true.
Proof.
  destruct s as [|c s]; [reflexivity|].
  change (endswith (String c s) (String c s))
    with (if String.eqb (String c s) (String c s) then true
          else endswith s (String c s)).
  rewrite String.eqb_refl. reflexivity.
Qed.

Lemma endswith_empty (s : string) : endswith s "" = true.
Proof.
  induction s as [|c s IH]; [reflexivity|].
  simpl. exact IH.
Qed.

Lemma endswith_tail (c : ascii) (s p : string) :
  endswith s p = true -> endswith (String c s) p = true.
Proof.
  intros H. change (endswith (String c s) p)
    with (if String.eqb (String c s) p then true else endswith s p).
  rewrite H. destruct (String.eqb (String c s) p); reflexivity.
Qed.

Lemma endswith_app (s t : string) : endswith (s ++ t) t = true.
Proof.
  induction s as [|c s IH]; [apply endswith_refl|].
  apply endswith_tail. exact IH.
Qed.

(** A string without ["*"] neither starts nor ends with it. *)
Lemma no_star_endswith (s : string) :
  contains "*" s = false -> endswith s "*" = false.
Proof.
  induction s as [|c s IH]; [reflexivity|].
  simpl contains. destruct (Ascii.eqb_spec c "*") as [->|Hne]; [discriminate|].
  intros H. change (endswith (String c s) "*")
    with (if String.eqb (String c s) "*" then true else endswith s "*").
  rewrite (IH H).
  destruct (String.eqb_spec (String c s) "*") as [E|_]; [|reflexivity].
  injection E as -> _. contradiction.
Qed.

Lemma no_star_startswith (s : string) :
  contains "*" s = false -> startswith s "*" = false.
Proof.
  destruct s as [|c s]; [reflexivity|].
  simpl contains. destruct (Ascii.eqb_spec c "*") as [->|Hne]; [discriminate|].
  intros _. unfold startswith.
  change (String.prefix "*" (String c s))
    with (if Ascii.ascii_dec "*" c then String.prefix "" s else false).
  destruct (Ascii.ascii_dec "*" c) as [E|_]; [|reflexivity].
  symmetry in E. contradiction.
Qed.

Lemma no_star_split (s : string) :
  contains "*" s = false -> split "*" s = [s].
Proof.
  induction s as [|c s IH]; [reflexivity|].
  simpl. destruct (Ascii.eqb c "*"); [discriminate|].
  intros H. rewrite (IH H). reflexivity.
Qed.

(** The pattern [before + "*" + after], of one ["*"]. *)
Definition one_star (before after : string) : string :=
  before ++ String "*" after.

Lemma one_star_contains (before after : string) :
  contains "*" (one_star before after) = true.
Proof.
  unfold one_star. induction before as [|c b IH]; simpl; [reflexivity|].
  destruct (Ascii.eqb c "*"); [reflexivity | exact IH].
Qed.

Lemma one_star_split (before after : string) :
  contains "*" before = false -> contains "*" after = false ->
  split "*" (one_star before after) = [before; after].
Proof.
  intros Hb Ha. unfold one_star.
  induction before as [|c b IH]; simpl.
  - rewrite (no_star_split _ Ha). reflexivity.
  - simpl in Hb. destruct (Ascii.eqb c "*"); [discriminate|].
    rewrite (IH Hb). reflexivity.
Qed.

Lemma one_star_endswith (before after : string) :
  contains "*" before = false -> contains "*" after = false ->
  endswith (one_star before after) "*" = String.eqb after "".
Proof.
  intros Hb Ha. unfold one_star.
  induction before as [|c b IH].
  - change (endswith ("" ++ String "*" after) "*")
      with (if String.eqb (String "*" after) "*" then true else endswith after "*").
    rewrite (no_star_endswith _ Ha).
    destruct after; reflexivity.
  - simpl in Hb. destruct (Ascii.eqb_spec c "*") as [->|Hne]; [discriminate|].
    change (endswith (String c b ++ String "*" after) "*")
      with (if String.eqb (String c (b ++ String "*" after)) "*" then true
            else endswith (b ++ String "*" after) "*").
    rewrite (IH Hb).
    destruct (String.eqb_spec (String c (b ++ String "*" after)) "*") as [E|_];
      [|reflexivity].
    injection E as -> _. contradiction.
Qed.

Lemma one_star_startswith (before after : string) :
  contains "*" before = false ->
  startswith (one_star before after) "*" = String.eqb before "".
Proof.
  intros Hb. unfold one_star, startswith.
  destruct before as [|c b].
  - destruct after; reflexivity.
  - simpl in Hb. destruct (Ascii.eqb_spec c "*") as [->|Hne]; [discriminate|].
    change (String.prefix "*" (String c b ++ String "*" after))
      with (if Ascii.ascii_dec "*" c
            then String.prefix "" (b ++ String "*" after) else false).
    destruct (Ascii.ascii_dec "*" c) as [E|_]; [|reflexivity].
    symmetry in E. contradiction.
Qed.

Lemma one_star_endswith_after (before after : string) :
  endswith (one_star before after) after = true.
Proof.
  unfold one_star. induction before as [|c b IH].
  - apply endswith_tail, endswith_refl.
  - apply endswith_tail. exact IH.
Qed.

Lemma one_star_drop_last (before : string) :
  drop_last (one_star before "") = before.
Proof.
  unfold one_star. induction before as [|c b IH]; [reflexivity|].
  simpl. rewrite IH. destruct b; reflexivity.
Qed.

(** A pattern without ["*"] matches its own name and no other: ["?"] and
    brackets stand for themselves. *)
Theorem pattern_without_star_matches_itself_only (metric_name pattern : string) :
  contains "*" pattern = false ->
  _match_metric_pattern metric_name pattern = String.eqb pattern metric_name.
Proof.
  intros H. unfold _match_metric_pattern.
  rewrite (no_star_endswith _ H), (no_star_startswith _ H), H.
  destruct (String.eqb pattern metric_name); reflexivity.
Qed.

Lemma pattern_without_star_matches_itself_only_witness :
  _match_metric_pattern "cpu.percent" "cpu.percen?" = false.
Proof.
  rewrite (pattern_without_star_matches_itself_only "cpu.percent" "cpu.percen?"
             ltac:(reflexivity)).
  reflexivity.
Defined.

(** A pattern with one ["*"] matches the names that start with what is
    before the ["*"] and end with what is after it; the two may overlap in
    the name. *)
Theorem pattern_with_one_star (metric_name before after : string) :
  contains "*" before = false ->
  contains "*" after = false ->
  _match_metric_pattern metric_name (one_star before after)
  = startswith metric_name before && endswith metric_name after.
Proof.
  intros Hb Ha. unfold _match_metric_pattern.
  rewrite (one_star_endswith _ _ Hb Ha), (one_star_startswith _ after Hb),
    one_star_contains, (one_star_split _ _ Hb Ha).
  destruct (String.eqb_spec (one_star before after) metric_name) as [<-|_].
  - unfold one_star at 1. rewrite startswith_app, one_star_endswith_after.
    reflexivity.
  - destruct after as [|a after'].
    + rewrite one_star_drop_last, endswith_empty.
      simpl String.eqb. cbn [andb].
      destruct (startswith metric_name before) eqn:Hs; [reflexivity|].
      destruct before as [|b before']; [rewrite startswith_empty in Hs; discriminate|].
      reflexivity.
    + simpl String.eqb. cbn [andb].
      destruct before as [|b before'].
      * simpl String.eqb. cbn [andb]. unfold one_star. simpl drop_first.
        rewrite startswith_empty.
        destruct (endswith metric_name (String a after')); reflexivity.
      * simpl String.eqb. cbn [andb]. reflexivity.
Qed.

Lemma pattern_with_one_star_witness :
  _match_metric_pattern "latency.db.p95" (one_star "latency." ".p95") = true.
Proof.
  rewrite (pattern_with_one_star "latency.db.p95" "latency." ".p95"
             ltac:(reflexivity) ltac:(reflexivity)).
  reflexivity.
Defined.

(** What is before the ["*"] and what is after it share the ["b"] of the
    name; a glob would ask for two.  Two ["*"] in the middle match nothing,
    and at the two ends they stand for themselves. *)
Example patterns_are_no_globs :
  _match_metric_pattern "ab" "ab*b" = true
  /\ fnmatch "ab" "ab*b" = false
  /\ _match_metric_pattern "cpu.core.0.user" "cpu.*.*.user" = false
  /\ _match_metric_pattern "bab" "*a*" = false
  /\ _match_metric_pattern "*ab" "*a*" = true.
Proof. vm_compute. repeat split. Qed.

(** ** Alerts *)

(** Whether the active alert of the metric is of this severity and less
    than 300 seconds old. *)
Definition recent_same_severity (metric_name : string) (severity : AlertSeverity)
    (now : Z) (c : Collector) : bool :=
  match dict_get (alert_key_of metric_name) (active_alerts c) with
  | Some last_alert =>
      (now - a_timestamp last_alert <? 300)
      && String.eqb (a_severity last_alert) (severity_value severity)
  | None => false
  end.

(** The alert dict that [_emit_alert] builds. *)
Definition alert_of (metric_name : string) (value threshold : float)
    (severity : AlertSeverity) (stats : option (list (string * float)))
    (now : Z) (clock : string) : Alert :=
  mkAlert (type_value (alert_type_of metric_name)) (severity_value severity)
    metric_name value threshold
    (_format_alert_message (alert_type_of metric_name) metric_name value threshold
       severity)
    now clock
    (match stats with
     | Some (_ :: _) => stats
     | _ => None
     end).

Lemma suppressed_by_age_and_severity (last_alert : Alert) (value : float)
    (severity : AlertSeverity) (now : Z) :
  suppressed last_alert value severity now
  = (now - a_timestamp last_alert <? 300)
    && String.eqb (a_severity last_alert) (severity_value severity).
Proof.
  unfold suppressed. cbv zeta.
  destruct (now - a_timestamp last_alert <? 300);
    destruct (String.eqb (a_severity last_alert) (severity_value severity));
    reflexivity.
Qed.

Lemma emit_alert_cases metric_name value threshold severity stats now clock
    (c : Collector) :
  _emit_alert metric_name value threshold severity stats now clock c
  = if recent_same_severity metric_name severity now c then c
    else
      let alert := alert_of metric_name value threshold severity stats now clock in
      mkCollector (metrics_buffer c) (last_values c) (alert_thresholds c)
        (dict_set (alert_key_of metric_name) alert (active_alerts c))
        (anomalies c) (anomaly_models c)
        (dict_set ("alerts." ++ str_int now ++ "-" ++ alert_key_of metric_name)
           (IAlert alert) (store c))
        (events c ++ [("system:alert", IAlert alert)])%list.
Proof.
  unfold _emit_alert, recent_same_severity. cbv zeta.
  destruct (dict_get (alert_key_of metric_name) (active_alerts c)) as [last|];
    [rewrite suppressed_by_age_and_severity|]; reflexivity.
Qed.

(** [_emit_alert] drops an alert when the active alert of its metric is of
    the same severity and less than 300 seconds old, whatever the two
    values are.  Every other alert becomes the active alert of the metric,
    is put in the store under [alerts.<now>-<key>] and is emitted as
    [system:alert]. *)
Theorem alert_is_dropped_by_age_and_severity_alone metric_name value threshold
    severity stats now clock (c : Collector) :
  let c' := _emit_alert metric_name value threshold severity stats now clock c in
  let alert := alert_of metric_name value threshold severity stats now clock in
  if recent_same_severity metric_name severity now c then c' = c
  else
    dict_get (alert_key_of metric_name) (active_alerts c') = Some alert
    /\ dict_get ("alerts." ++ str_int now ++ "-" ++ alert_key_of metric_name)
         (store c')
       = Some (IAlert alert)
    /\ events c' = (events c ++ [("system:alert", IAlert alert)])%list.
Proof.
  cbv zeta. rewrite emit_alert_cases.
  destruct (recent_same_severity metric_name severity now c); [reflexivity|].
  cbv zeta. simpl. rewrite !dict_get_dict_set_same. repeat split.
Qed.

(** Alerts of one metric and one severity, given to [_emit_alert] one
    after the other: each with its value, its threshold and the two clock
    readings. *)
Definition emit_all (metric_name : string) (severity : AlertSeverity)
    (alerts : list (float * float * Z * string)) (c : Collector) : Collector :=
  fold_left (fun c a =>
               let '(value, threshold, now, clock) := a in
               _emit_alert metric_name value threshold severity None now clock c)
    alerts c.

(** The timestamps of the alerts among the events. *)
Definition alert_times (evs : list (string * Item)) : list Z :=
  flat_map (fun ev => match snd ev with
                      | IAlert a => [a_timestamp a]
                      | IAnomaly _ => []
                      end) evs.

(** Each timestamp is 300 seconds or more after the one before it. *)
Fixpoint spaced (times : list Z) : Prop :=
  match times with
  | t1 :: ((t2 :: _) as rest) => 300 <= t2 - t1 /\ spaced rest
  | _ => True
  end.

Lemma spaced_snoc (times : list Z) (t : Z) :
  spaced times ->
  (forall t0, List.last times t = t0 -> times <> [] -> 300 <= t - t0) ->
  spaced (times ++ [t])%list.
Proof.
  induction times as [|t1 [|t2 rest] IH]; intros Hs Hlast.
  - exact I.
  - simpl. split; [|exact I]. apply Hlast; [reflexivity | discriminate].
  - destruct Hs as [H12 Hs].
    change (300 <= t2 - t1 /\ spaced ((t2 :: rest) ++ [t])%list).
    split; [exact H12|]. apply IH; [exact Hs|].
    intros t0 E _. apply Hlast; [exact E | discriminate].
Qed.

Lemma alert_times_app (l1 l2 : list (string * Item)) :
  alert_times (l1 ++ l2) = (alert_times l1 ++ alert_times l2)%list.
Proof. unfold alert_times. apply flat_map_app. Qed.

(** What holds while the alerts are given: the ones emitted so far are
    spaced, and the last of them is the active alert of the metric. *)
Definition spaced_so_far (metric_name : string) (severity : AlertSeverity)
    (new : list (string * Item)) (c : Collector) : Prop :=
  spaced (alert_times new)
  /\ (new <> [] ->
      exists last_alert,
        dict_get (alert_key_of metric_name) (active_alerts c) = Some last_alert
        /\ a_severity last_alert = severity_value severity
        /\ forall t, List.last (alert_times new) t = a_timestamp last_alert).

Lemma spaced_so_far_step metric_name severity value threshold now clock
    (c0 c : Collector) (new : list (string * Item)) :
  events c = (events c0 ++ new)%list ->
  spaced_so_far metric_name severity new c ->
  exists new',
    events (_emit_alert metric_name value threshold severity None now clock c)
    = (events c0 ++ new')%list
    /\ spaced_so_far metric_name severity new'
         (_emit_alert metric_name value threshold severity None now clock c).
Proof.
  intros Hev [Hs Hlast]. rewrite emit_alert_cases.
  destruct (recent_same_severity metric_name severity now c) eqn:Hr.
  - exists new. split; [exact Hev|]. split; assumption.
  - cbv zeta.
    set (alert := alert_of metric_name value threshold severity None now clock).
    exists (new ++ [("system:alert", IAlert alert)])%list.
    split; [simpl; rewrite Hev, <- app_assoc; reflexivity|].
    split.
    + rewrite alert_times_app. simpl alert_times.
      apply spaced_snoc; [exact Hs|].
      intros t0 Ht0 Hne.
      assert (Hnew : new <> []) by (intros ->; apply Hne; reflexivity).
      destruct (Hlast Hnew) as (last_alert & Hget & Hsev & Htime).
      rewrite Htime in Ht0. subst t0.
      unfold recent_same_severity in Hr. rewrite Hget, Hsev, String.eqb_refl in Hr.
      rewrite andb_true_r in Hr.
      change (a_timestamp alert) with now.
      apply Z.ltb_ge in Hr. lia.
    + intros _. exists alert. simpl active_alerts.
      rewrite dict_get_dict_set_same.
      split; [reflexivity|]. split; [reflexivity|].
      intros t. rewrite alert_times_app. simpl alert_times.
      apply List.last_last.
Qed.

(** Of the alerts of one metric and one severity given to [_emit_alert]
    one after the other, those that are emitted are 300 seconds or more
    apart, each from the one before. *)
Theorem alerts_of_one_severity_are_spaced metric_name severity
    (alerts : list (float * float * Z * string)) (c : Collector) :
  exists new,
    events (emit_all metric_name severity alerts c) = (events c ++ new)%list
    /\ spaced (alert_times new).
Proof.
  assert (H : forall c1 new,
             events c1 = (events c ++ new)%list ->
             spaced_so_far metric_name severity new c1 ->
             exists new',
               events (emit_all metric_name severity alerts c1)
               = (events c ++ new')%list
               /\ spaced_so_far metric_name severity new'
                    (emit_all metric_name severity alerts c1)).
  { induction alerts as [|[[[value threshold] now] clock] alerts IH];
      intros c1 new Hev Hinv.
    - exists new. split; assumption.
    - destruct (spaced_so_far_step metric_name severity value threshold now clock
                  c c1 new Hev Hinv) as (new1 & Hev1 & Hinv1).
      exact (IH _ new1 Hev1 Hinv1). }
  destruct (H c [] ltac:(rewrite app_nil_r; reflexivity)
              ltac:(split; [exact I | intros Hne; contradiction Hne; reflexivity]))
    as (new & Hev & Hs & _).
  exists new. split; assumption.
Qed.

(** Six CRITICAL alerts for [cpu.percent]: the second, the fifth and the
    sixth come less than 300 seconds after the one emitted before them and
    are dropped, be the value 150 or 1. *)
Example critical_alerts_in_a_row :
  alert_times
    (events (emit_all "cpu.percent" CRITICAL
               [(95%float, 90%float, 1000, "t1"); (150%float, 90%float, 1010, "t2");
                (95%float, 90%float, 1300, "t3"); (99%float, 90%float, 1599, "t4");
                (99%float, 90%float, 1600, "t5"); (1%float, 90%float, 1040, "t6")]
               new_collector))
  = [1000; 1300; 1600].
Proof. vm_compute. reflexivity. Qed.

(** Alerts of alternating severity are all emitted, ten seconds apart. *)
Example alternating_severities_are_emitted :
  let c1 := _emit_alert "cpu.percent" 95%float 90%float CRITICAL None 1000 "t1"
              new_collector in
  let c2 := _emit_alert "cpu.percent" 95%float 70%float WARNING None 1010 "t2" c1 in
  let c3 := _emit_alert "cpu.percent" 95%float 90%float CRITICAL None 1020 "t3" c2 in
  alert_times (events c3) = [1000; 1010; 1020].
Proof. vm_compute. reflexivity. Qed.

End TelemetryLaws.
